(** * pydbxcli: a shallow embedding of [pydbxcli.py]

    The commands [ls], [get] and [peek] of the Dropbox command line client
    are embedded as functions of an error-and-state monad over a [World]
    that holds what the program can observe and change: the lines written
    to standard output, the persisted work queues, the class attribute
    [FakeFileList.entries], and the local file system.

    Python objects read through [getattr] are attribute lists over a small
    universe of values; the libraries the program calls ([json],
    [datetime], [queuelib], [os], the Dropbox SDK) are modelled next to the
    program, each with a note saying what the model covers. *)

From Stdlib Require Import ZArith NArith String Ascii List Bool Lia.
From Stdlib Require Import DecimalString DecimalZ.
From stdpp Require Import gmap strings list.

Local Open Scope string_scope.
Local Open Scope list_scope.
Local Open Scope Z_scope.

(** ** Python values and strings *)

(** [datetime.datetime], naive and with a resolution of one second, which
    is what the Dropbox SDK produces for [server_modified] and
    [client_modified]. *)
Record datetime := mk_datetime {
  year : Z; month : Z; day : Z;
  hour : Z; minute : Z; second : Z
}.

(** The values an attribute of a remote entry or a member of a decoded
    JSON object can hold. *)
Inductive pyval :=
| PNone
| PInt (n : Z)
| PStr (s : string)
| PDatetime (d : datetime).

(** An object seen through [getattr]: its attributes in definition order.
    A Dropbox [FileMetadata], a [FolderMetadata], the [namedtuple] that
    [get] builds from a JSON object and the [__dict__] of a [FakeFile] all
    have this shape. *)
Definition pyobj := list (string * pyval).

Fixpoint getattr (o : pyobj) (name : string) : option pyval :=
  match o with
  | [] => None
  | (k, v) :: o' => if String.eqb k name then Some v else getattr o' name
  end.

(** [getattr(o, name, default)] *)
Definition getattr_default (o : pyobj) (name : string) (d : pyval) : pyval :=
  match getattr o name with Some v => v | None => d end.

(** Python truth value: [bool(v)]. *)
Definition truthy (v : pyval) : bool :=
  match v with
  | PNone => false
  | PInt n => negb (n =? 0)
  | PStr s => negb (String.eqb s "")
  | PDatetime _ => true
  end.

(** [v != None] *)
Definition is_not_None (v : pyval) : bool :=
  match v with PNone => false | _ => true end.

(** [s.startswith(p)] *)
Fixpoint startswith (s p : string) : bool :=
  match p, s with
  | EmptyString, _ => true
  | String c p', String d s' => Ascii.eqb c d && startswith s' p'
  | String _ _, EmptyString => false
  end.

(** [any(map(s.startswith, prefixes))] *)
Definition any_startswith (s : string) (prefixes : list string) : bool :=
  existsb (startswith s) prefixes.

Definition digit_char (n : Z) : ascii :=
  ascii_of_N (48 + Z.to_N (n mod 10)).

(** Decimal digits of [n], most significant first, padded with zeros to
    [width] characters ([%0<width>d] for [0 <= n < 10^width]). *)
Fixpoint zero_pad (width : nat) (n : Z) : string :=
  match width with
  | O => ""
  | S w => zero_pad w (n / 10) +:+ String (digit_char n) ""
  end.

(** [repr(n)] for an integer. *)
Definition str_of_Z (n : Z) : string := NilZero.string_of_int (Z.to_int n).

Fixpoint spaces (n : nat) : string :=
  match n with O => "" | S n' => String " " (spaces n') end.

(** [format(s, '>width')]: right-justify in a field of [width]. *)
Definition rjust (width : nat) (s : string) : string :=
  spaces (width - String.length s) +:+ s.

(** [datetime.isoformat()] at whole seconds: [YYYY-MM-DDTHH:MM:SS]. *)
Definition isoformat_sep (sep : string) (d : datetime) : string :=
  zero_pad 4 (year d) +:+ "-" +:+ zero_pad 2 (month d) +:+ "-" +:+
  zero_pad 2 (day d) +:+ sep +:+ zero_pad 2 (hour d) +:+ ":" +:+
  zero_pad 2 (minute d) +:+ ":" +:+ zero_pad 2 (second d).

Definition isoformat (d : datetime) : string := isoformat_sep "T" d.

(** [str(v)], as [print] and [str.format] show a value. *)
Definition py_str (v : pyval) : string :=
  match v with
  | PNone => "None"
  | PInt n => str_of_Z n
  | PStr s => s
  | PDatetime d => isoformat_sep " " d
  end.

Definition is_leap (y : Z) : bool :=
  ((y mod 4 =? 0) && negb (y mod 100 =? 0)) || (y mod 400 =? 0).

Definition days_in_month (y m : Z) : Z :=
  if m =? 2 then (if is_leap y then 29 else 28)
  else if (m =? 4) || (m =? 6) || (m =? 9) || (m =? 11) then 30
  else 31.

(** The invariant every [datetime] object satisfies. *)
Definition valid_datetime (d : datetime) : bool :=
  (1 <=? year d) && (year d <=? 9999) &&
  (1 <=? month d) && (month d <=? 12) &&
  (1 <=? day d) && (day d <=? days_in_month (year d) (month d)) &&
  (0 <=? hour d) && (hour d <=? 23) &&
  (0 <=? minute d) && (minute d <=? 59) &&
  (0 <=? second d) && (second d <=? 59).

Definition digit_val (c : ascii) : option Z :=
  let n := N_of_ascii c in
  if ((48 <=? n) && (n <=? 57))%N then Some (Z.of_N n - 48) else None.

(** Reads exactly [width] decimal digits from the front of [s]. *)
Fixpoint read_digits (width : nat) (acc : Z) (s : string) : option (Z * string) :=
  match width with
  | O => Some (acc, s)
  | S w =>
      match s with
      | String c s' =>
          match digit_val c with
          | Some v => read_digits w (10 * acc + v) s'
          | None => None
          end
      | EmptyString => None
      end
  end.

(** Reads the literal character [c] from the front of [s]. *)
Definition read_char (c : ascii) (s : string) : option string :=
  match s with
  | String d s' => if Ascii.eqb c d then Some s' else None
  | EmptyString => None
  end.

(** [datetime.strptime(s, '%Y-%m-%dT%H:%M:%S')].

    Modelled from the spec: the standard library's parser is not part of
    the program; the spec gives the accepted form as the pattern
    [YYYY-MM-DDTHH:MM:SS].  The model accepts exactly the zero-padded
    fixed-width form naming a valid date and time of day, and answers
    [None] (Python: [ValueError]) for everything else. *)
Definition strptime (s : string) : option datetime :=
  match read_digits 4 0 s with
  | Some (y, s1) =>
  match read_char "-" s1 with
  | Some s2 =>
  match read_digits 2 0 s2 with
  | Some (mo, s3) =>
  match read_char "-" s3 with
  | Some s4 =>
  match read_digits 2 0 s4 with
  | Some (d, s5) =>
  match read_char "T" s5 with
  | Some s6 =>
  match read_digits 2 0 s6 with
  | Some (h, s7) =>
  match read_char ":" s7 with
  | Some s8 =>
  match read_digits 2 0 s8 with
  | Some (mi, s9) =>
  match read_char ":" s9 with
  | Some s10 =>
  match read_digits 2 0 s10 with
  | Some (sec, EmptyString) =>
      let dt := mk_datetime y mo d h mi sec in
      if valid_datetime dt then Some dt else None
  | _ => None
  end | None => None end | None => None end | None => None end
  | None => None end | None => None end | None => None end
  | None => None end | None => None end | None => None end
  | None => None end.

(** ** Text encodings

    A Python [str] is modelled as a Rocq [string] with one character per
    code point, which covers the code points U+0000 to U+00FF; [bytes] are
    strings of octets. *)

Definition quote : ascii := ascii_of_N 34.
Definition backslash : ascii := ascii_of_N 92.

Definition utf8_encode_char (c : ascii) : string :=
  let n := N_of_ascii c in
  if (n <? 128)%N then String c ""
  else String (ascii_of_N (192 + n / 64)) (String (ascii_of_N (128 + n mod 64)) "").

(** [str.encode(s)] (UTF-8). *)
Fixpoint str_encode (s : string) : string :=
  match s with
  | EmptyString => ""
  | String c s' => utf8_encode_char c +:+ str_encode s'
  end.

(** [b.decode()] (UTF-8); [None] is [UnicodeDecodeError], or a code point
    above U+00FF, which the model of [str] does not cover. *)
Fixpoint bytes_decode (b : string) : option string :=
  match b with
  | EmptyString => Some ""
  | String c rest =>
      let n := N_of_ascii c in
      if (n <? 128)%N then option_map (String c) (bytes_decode rest)
      else if ((n =? 194) || (n =? 195))%N then
        match rest with
        | String c2 rest' =>
            let m := N_of_ascii c2 in
            if ((128 <=? m) && (m <? 192))%N
            then option_map (String (ascii_of_N ((n - 192) * 64 + (m - 128))))
                            (bytes_decode rest')
            else None
        | EmptyString => None
        end
      else None
  end.

(** ** JSON

    [json.dumps] and [json.loads] on the fragment the program produces:
    objects whose members are strings, integers or [null].  Arrays, nested
    objects, floats and booleans are outside the model and are answered as
    a decoding error. *)
Module Json.

Definition hex_digit (n : N) : ascii :=
  if (n <? 10)%N then ascii_of_N (48 + n) else ascii_of_N (87 + n).

(** One character of a string under [ensure_ascii=True]. *)
Definition escape_char (c : ascii) : string :=
  let n := N_of_ascii c in
  if (n =? 34)%N then String backslash (String quote "")
  else if (n =? 92)%N then String backslash (String backslash "")
  else if (n =? 10)%N then String backslash "n"
  else if (n =? 13)%N then String backslash "r"
  else if (n =? 9)%N then String backslash "t"
  else if (n =? 8)%N then String backslash "b"
  else if (n =? 12)%N then String backslash "f"
  else if ((32 <=? n) && (n <=? 126))%N then String c ""
  else String backslash
         ("u00" +:+ String (hex_digit (n / 16)) (String (hex_digit (n mod 16)) "")).

Fixpoint escape (s : string) : string :=
  match s with
  | EmptyString => ""
  | String c s' => escape_char c +:+ escape s'
  end.

Definition dumps_str (s : string) : string :=
  String quote (escape s) +:+ String quote "".

(** A member value; [None] is the [TypeError] of a value that is not
    JSON serializable. *)
Definition dumps_value (v : pyval) : option string :=
  match v with
  | PNone => Some "null"
  | PInt n => Some (str_of_Z n)
  | PStr s => Some (dumps_str s)
  | PDatetime _ => None
  end.

Fixpoint dumps_members (d : pyobj) : option string :=
  match d with
  | [] => Some ""
  | (k, v) :: d' =>
      match dumps_value v, dumps_members d' with
      | Some sv, Some sd =>
          Some (dumps_str k +:+ ": " +:+ sv +:+
                match d' with [] => "" | _ => ", " +:+ sd end)
      | _, _ => None
      end
  end.

(** [json.dumps(d)] for a [dict] with string keys. *)
Definition dumps (d : pyobj) : option string :=
  option_map (fun m => "{" +:+ m +:+ "}") (dumps_members d).

Definition is_ws (c : ascii) : bool :=
  let n := N_of_ascii c in
  ((n =? 32) || (n =? 9) || (n =? 10) || (n =? 13))%N.

Fixpoint skip_ws (s : string) : string :=
  match s with
  | String c s' => if is_ws c then skip_ws s' else s
  | EmptyString => ""
  end.

Definition hex_val (c : ascii) : option N :=
  let n := N_of_ascii c in
  if ((48 <=? n) && (n <=? 57))%N then Some (n - 48)%N
  else if ((97 <=? n) && (n <=? 102))%N then Some (n - 87)%N
  else if ((65 <=? n) && (n <=? 70))%N then Some (n - 55)%N
  else None.

(** The character a one-letter escape stands for. *)
Definition unescape_simple (e : ascii) : option ascii :=
  let n := N_of_ascii e in
  if (n =? 34)%N then Some quote
  else if (n =? 92)%N then Some backslash
  else if (n =? 47)%N then Some "/"%char
  else if (n =? 98)%N then Some (ascii_of_N 8)
  else if (n =? 102)%N then Some (ascii_of_N 12)
  else if (n =? 110)%N then Some (ascii_of_N 10)
  else if (n =? 114)%N then Some (ascii_of_N 13)
  else if (n =? 116)%N then Some (ascii_of_N 9)
  else None.

(** The body of a string literal, from after its opening quote: the
    decoded text and what follows the closing quote. *)
Fixpoint scan_string (s : string) : option (string * string) :=
  match s with
  | EmptyString => None
  | String c rest =>
      if Ascii.eqb c quote then Some ("", rest)
      else if Ascii.eqb c backslash then
        match rest with
        | String e rest1 =>
            if Ascii.eqb e "u" then
              match rest1 with
              | String h1 (String h2 (String h3 (String h4 rest2))) =>
                  match hex_val h1, hex_val h2, hex_val h3, hex_val h4 with
                  | Some 0%N, Some 0%N, Some a, Some b =>
                      match scan_string rest2 with
                      | Some (t, r) => Some (String (ascii_of_N (a * 16 + b)) t, r)
                      | None => None
                      end
                  | _, _, _, _ => None
                  end
              | _ => None
              end
            else
              match unescape_simple e with
              | Some d =>
                  match scan_string rest1 with
                  | Some (t, r) => Some (String d t, r)
                  | None => None
                  end
              | None => None
              end
        | EmptyString => None
        end
      else if (N_of_ascii c <? 32)%N then None
      else
        match scan_string rest with
        | Some (t, r) => Some (String c t, r)
        | None => None
        end
  end.

Definition is_digit (c : ascii) : bool :=
  let n := N_of_ascii c in ((48 <=? n) && (n <=? 57))%N.

(** The longest run of decimal digits at the front of [s]. *)
Fixpoint scan_digits (s : string) : string * string :=
  match s with
  | String c s' =>
      if is_digit c then let (ds, r) := scan_digits s' in (String c ds, r)
      else ("", s)
  | EmptyString => ("", "")
  end.

Definition starts_fraction (s : string) : bool :=
  match s with
  | String c _ => Ascii.eqb c "." || Ascii.eqb c "e" || Ascii.eqb c "E"
  | EmptyString => false
  end.

(** A digit run that is the decimal form of its value (a single zero,
    or no leading zero), not followed by a fraction or an exponent. *)
Definition scan_natural (s : string) : option (Z * string) :=
  let (ds, r) := scan_digits s in
  match NilZero.uint_of_string ds with
  | Some u =>
      let v := Z.of_uint u in
      if String.eqb (str_of_Z v) ds && negb (starts_fraction r)
      then Some (v, r)
      else None
  | None => None
  end.

(** An integer literal: an optional minus sign and a natural. *)
Definition scan_number (s : string) : option (Z * string) :=
  match s with
  | String c s' =>
      if Ascii.eqb c "-" then
        match scan_natural s' with
        | Some (v, r) => Some (- v, r)
        | None => None
        end
      else scan_natural s
  | EmptyString => None
  end.

Definition scan_value (s : string) : option (pyval * string) :=
  match s with
  | String c rest =>
      if Ascii.eqb c quote then
        match scan_string rest with
        | Some (t, r) => Some (PStr t, r)
        | None => None
        end
      else if Ascii.eqb c "n" then
        match rest with
        | String "u"%char (String "l"%char (String "l"%char r)) => Some (PNone, r)
        | _ => None
        end
      else
        match scan_number s with
        | Some (n, r) => Some (PInt n, r)
        | None => None
        end
  | EmptyString => None
  end.

(** The members of an object, from the first key to the closing brace. *)
Fixpoint scan_members (fuel : nat) (s : string) : option (pyobj * string) :=
  match fuel with
  | O => None
  | S fuel' =>
      match skip_ws s with
      | String c s1 =>
          if Ascii.eqb c quote then
            match scan_string s1 with
            | Some (k, s2) =>
                match skip_ws s2 with
                | String ":"%char s3 =>
                    match scan_value (skip_ws s3) with
                    | Some (v, s4) =>
                        match skip_ws s4 with
                        | String ","%char s5 =>
                            match scan_members fuel' s5 with
                            | Some (d, s6) => Some ((k, v) :: d, s6)
                            | None => None
                            end
                        | String "}"%char s5 => Some ([(k, v)], s5)
                        | _ => None
                        end
                    | None => None
                    end
                | _ => None
                end
            | None => None
            end
          else None
      | EmptyString => None
      end
  end.

(** [d[k] = v] on an insertion-ordered [dict]. *)
Fixpoint dict_set (d : pyobj) (k : string) (v : pyval) : pyobj :=
  match d with
  | [] => [(k, v)]
  | (k', v') :: d' =>
      if String.eqb k' k then (k', v) :: d' else (k', v') :: dict_set d' k v
  end.

(** The [dict] built from the members in reading order: a repeated key
    keeps its first position and its last value. *)
Definition dict_of_members (ms : pyobj) : pyobj :=
  fold_left (fun d kv => dict_set d (fst kv) (snd kv)) ms [].

(** What [json.loads] returns: a [dict] or a scalar. *)
Inductive value :=
| JDict (d : pyobj)
| JScalar (v : pyval).

(** [json.loads(s)]; [None] is [JSONDecodeError]. *)
Definition loads (s : string) : option value :=
  match skip_ws s with
  | String "{"%char s1 =>
      match skip_ws s1 with
      | String "}"%char s2 =>
          match skip_ws s2 with EmptyString => Some (JDict []) | _ => None end
      | _ =>
          match scan_members (String.length s) s1 with
          | Some (ms, s2) =>
              match skip_ws s2 with
              | EmptyString => Some (JDict (dict_of_members ms))
              | _ => None
              end
          | None => None
          end
      end
  | s0 =>
      match scan_value s0 with
      | Some (v, s1) =>
          match skip_ws s1 with EmptyString => Some (JScalar v) | _ => None end
      | None => None
      end
  end.

End Json.

(** ** Exceptions, outcomes and the program monad *)

Inductive exn_kind :=
| AttributeError | TypeError | ValueError | KeyError
| JSONDecodeError | UnicodeDecodeError
| FileExistsError | FileNotFoundError | NotADirectoryError
| IsADirectoryError | OverflowError
| ApiError.    (* the Dropbox SDK *)

(** An exception with the text [print(err)] shows. *)
Record exn := mk_exn { exn_type : exn_kind; exn_msg : string }.

(** How a computation ends: normally, with an exception that nothing
    caught so far, through [sys.exit(status)], or not within the given
    number of loop iterations. *)
Inductive outcome (A : Type) :=
| Ok (a : A)
| Raised (e : exn)
| Exited (status : Z)
| OutOfFuel.
Arguments Ok {A} a.
Arguments Raised {A} e.
Arguments Exited {A} status.
Arguments OutOfFuel {A}.

(** A local regular file: its contents, and its (access, modification)
    times once [os.utime] has set them ([None]: whatever the operating
    system gave the file when it was written). *)
Record FileStat := mk_stat {
  st_data : string;
  st_times : option (Z * Z)
}.

(** Everything the program can observe or change. *)
Record World := mk_world {
  stdout : list string;                 (* the texts printed, oldest first *)
  disk : gmap string (list string);     (* persisted queues, by name *)
  FakeFileList_entries : list string;   (* the class attribute [FakeFileList.entries] *)
  dirs : gset string;                   (* local directories *)
  files : gmap string FileStat          (* local regular files *)
}.

Definition set_stdout (w : World) (x : list string) : World :=
  mk_world x (disk w) (FakeFileList_entries w) (dirs w) (files w).
Definition set_disk (w : World) (x : gmap string (list string)) : World :=
  mk_world (stdout w) x (FakeFileList_entries w) (dirs w) (files w).
Definition set_FakeFileList_entries (w : World) (x : list string) : World :=
  mk_world (stdout w) (disk w) x (dirs w) (files w).
Definition set_dirs (w : World) (x : gset string) : World :=
  mk_world (stdout w) (disk w) (FakeFileList_entries w) x (files w).
Definition set_files (w : World) (x : gmap string FileStat) : World :=
  mk_world (stdout w) (disk w) (FakeFileList_entries w) (dirs w) x.

Definition M (A : Type) : Type := World -> outcome A * World.

Definition ret {A} (a : A) : M A := fun w => (Ok a, w).

Definition bind {A B} (m : M A) (k : A -> M B) : M B :=
  fun w =>
    match m w with
    | (Ok a, w') => k a w'
    | (Raised e, w') => (Raised e, w')
    | (Exited c, w') => (Exited c, w')
    | (OutOfFuel, w') => (OutOfFuel, w')
    end.

Declare Scope py_scope.
Delimit Scope py_scope with py.
Notation "x <- m ;; k" := (bind m (fun x => k))
  (at level 100, m at level 99, right associativity) : py_scope.
Notation "m ;; k" := (bind m (fun _ => k))
  (at level 100, right associativity) : py_scope.
Local Open Scope py_scope.

Definition raise {A} (t : exn_kind) (msg : string) : M A :=
  fun w => (Raised (mk_exn t msg), w).

(** [sys.exit(status)] *)
Definition sys_exit {A} (status : Z) : M A := fun w => (Exited status, w).

Definition out_of_fuel {A} : M A := fun w => (OutOfFuel, w).

(** [try: m except Exception as err: handler(err)].  [SystemExit] is not
    an [Exception], so an exit passes through. *)
Definition try_except {A} (m : M A) (handler : exn -> M A) : M A :=
  fun w =>
    match m w with
    | (Raised e, w') => handler e w'
    | r => r
    end.

(** A library call that returns or raises. *)
Definition lift {A} (x : exn + A) : M A :=
  match x with inl e => fun w => (Raised e, w) | inr a => ret a end.

(** [print(s)] *)
Definition print (s : string) : M unit :=
  fun w => (Ok tt, set_stdout w (stdout w ++ [s])).

(** The exit status of the process for an outcome of the command that
    [main] dispatched: 0 on return, the argument of [sys.exit], 1 for a
    traceback. *)
Definition exit_status {A} (o : outcome A) : option Z :=
  match o with
  | Ok _ => Some 0
  | Exited c => Some c
  | Raised _ => Some 1
  | OutOfFuel => None
  end.

(** [for x in l: body(x)], threading a loop-carried value. *)
Fixpoint for_each {A S} (l : list A) (s : S) (body : S -> A -> M S) : M S :=
  match l with
  | [] => ret s
  | x :: l' => s' <- body s x ;; for_each l' s' body
  end.

(** Truth value of an optional command line string. *)
Definition opt_truthy (o : option string) : bool :=
  match o with Some s => negb (String.eqb s "") | None => false end.

Definition opt_str (o : option string) : string :=
  match o with Some s => s | None => "" end.

Definition newline : string := String (ascii_of_N 10) "".

(** ** The work queue ([queuelib.FifoDiskQueue]) *)

(** Modelled from the spec: the queue library is not part of the program.
    The contract of the spec's Work Queue is followed: a queue is a FIFO
    sequence of blobs persisted under a name; [open] creates the storage if
    absent and otherwise resumes the sequence; [push] appends at the tail
    and may stay buffered in the handle until [close]; [pop] removes and
    returns the head, or reports that there is none; [close] commits the
    buffered pushes.  A handle is an ordinary object, so it is true in a
    Boolean context and different from [None].  The contract does not
    say when a pop reaches the storage, nor what the truth value of an
    empty handle is; where the library's answers show, in [peek] and at
    a failed or empty pop of [get], the module [Queuelib] below has the
    handle of the library. *)
Record FifoDiskQueue := mk_queue {
  q_name : string;
  q_buffer : list string
}.

Definition stored (w : World) (name : string) : list string :=
  default [] (disk w !! name).

(** [FifoDiskQueue(name)] *)
Definition queue_open (name : string) : M FifoDiskQueue :=
  fun w => (Ok (mk_queue name []), set_disk w (<[name := stored w name]> (disk w))).

(** [queue.push(blob)] *)
Definition queue_push (q : FifoDiskQueue) (blob : string) : FifoDiskQueue :=
  mk_queue (q_name q) (q_buffer q ++ [blob]).

(** [queue.pop()] *)
Definition queue_pop (q : FifoDiskQueue) : M (option string * FifoDiskQueue) :=
  fun w =>
    match stored w (q_name q) with
    | x :: rest => (Ok (Some x, q), set_disk w (<[q_name q := rest]> (disk w)))
    | [] =>
        match q_buffer q with
        | x :: rest => (Ok (Some x, mk_queue (q_name q) rest), w)
        | [] => (Ok (None, q), w)
        end
    end.

(** [queue.close()] *)
Definition queue_close (q : FifoDiskQueue) : M unit :=
  fun w =>
    (Ok tt, set_disk w (<[q_name q := stored w (q_name q) ++ q_buffer q]> (disk w))).

(** [bool(queue)] *)
Definition queue_truthy (q : FifoDiskQueue) : bool := true.

(** ** The local file system ([os], [os.path]) *)

Definition is_slash (c : ascii) : bool := Ascii.eqb c "/".

(** [p[:p.rfind('/') + 1]] *)
Fixpoint upto_last_slash (p : string) : string :=
  match p with
  | EmptyString => ""
  | String c p' =>
      let h := upto_last_slash p' in
      if is_slash c then String c h
      else if String.eqb h "" then "" else String c h
  end.

(** [p[p.rfind('/') + 1:]] *)
Fixpoint after_last_slash (p : string) : string :=
  match p with
  | EmptyString => ""
  | String c p' =>
      if String.eqb (upto_last_slash p) "" then p else after_last_slash p'
  end.

(** [s.rstrip('/')] *)
Fixpoint rstrip_slash (s : string) : string :=
  match s with
  | EmptyString => ""
  | String c s' =>
      let t := rstrip_slash s' in
      if is_slash c && String.eqb t "" then "" else String c t
  end.

(** [posixpath.split(p)] *)
Definition path_split (p : string) : string * string :=
  let head := upto_last_slash p in
  (if String.eqb (rstrip_slash head) "" then head else rstrip_slash head,
   after_last_slash p).

(** [os.path.dirname(p)] *)
Definition dirname (p : string) : string := fst (path_split p).

(** A name made of slashes only: the root directory. *)
Fixpoint is_root (p : string) : bool :=
  match p with
  | EmptyString => false
  | String c EmptyString => is_slash c
  | String c p' => is_slash c && is_root p'
  end.

(** [os.path.exists(p)].  Paths are compared as written: the model does
    not resolve [.], [..], doubled slashes or symbolic links. *)
Definition path_exists (w : World) (p : string) : bool :=
  is_root p || bool_decide (p ∈ dirs w) || bool_decide (is_Some (files w !! p)).

(** Whether [d] is a directory; the empty name stands for the current
    directory of a relative path. *)
Definition is_dir (w : World) (d : string) : bool :=
  String.eqb d "" || is_root d || bool_decide (d ∈ dirs w).

(** Why nothing can be created or opened inside [d], when [d] is not a
    directory. *)
Definition parent_error (w : World) (d : string) : exn :=
  if bool_decide (is_Some (files w !! d))
  then mk_exn NotADirectoryError ("Not a directory: " +:+ d)
  else mk_exn FileNotFoundError ("No such file or directory: " +:+ d).

(** [os.mkdir(p)] *)
Definition mkdir (p : string) : M unit :=
  fun w =>
    if String.eqb p ""
    then (Raised (mk_exn FileNotFoundError "No such file or directory: "), w)
    else if path_exists w p
    then (Raised (mk_exn FileExistsError ("File exists: " +:+ p)), w)
    else if is_dir w (dirname p)
    then (Ok tt, set_dirs w ({[ p ]} ∪ dirs w))
    else (Raised (parent_error w (dirname p)), w).

(** [os.makedirs(p)]: the missing ancestors first, then [p] itself. *)
Fixpoint makedirs_rec (fuel : nat) (p : string) : M unit :=
  match fuel with
  | O => out_of_fuel
  | S fuel' =>
      let '(head, tail) := path_split p in
      let '(head, tail) :=
        if String.eqb tail "" then path_split head else (head, tail) in
      fun w =>
        if negb (String.eqb head "") && negb (String.eqb tail "")
           && negb (path_exists w head)
        then
          (try_except (makedirs_rec fuel' head)
             (fun e => match exn_type e with
                       | FileExistsError => ret tt
                       | _ => fun w' => (Raised e, w')
                       end) ;;
           if String.eqb tail "." then ret tt else mkdir p) w
        else mkdir p w
  end.

Definition makedirs (p : string) : M unit :=
  makedirs_rec (S (String.length p)) p.

(** Writing a downloaded body to [dest] ([open(dest, 'wb')] and the
    writes). *)
Definition write_file (dest : string) (data : string) : M unit :=
  fun w =>
    if bool_decide (dest ∈ dirs w) || is_root dest
    then (Raised (mk_exn IsADirectoryError ("Is a directory: " +:+ dest)), w)
    else if String.eqb dest ""
    then (Raised (mk_exn FileNotFoundError "No such file or directory: "), w)
    else if is_dir w (dirname dest)
    then (Ok tt, set_files w (<[dest := mk_stat data None]> (files w)))
    else (Raised (parent_error w (dirname dest)), w).

(** [os.utime(path=p, times=(atime, mtime))] *)
Definition utime (p : string) (times : Z * Z) : M unit :=
  fun w =>
    match files w !! p with
    | Some st =>
        (Ok tt, set_files w (<[p := mk_stat (st_data st) (Some times)]> (files w)))
    | None =>
        if bool_decide (p ∈ dirs w) || is_root p then (Ok tt, w)
        else (Raised (mk_exn FileNotFoundError ("No such file or directory: " +:+ p)), w)
    end.

Definition empty_world : World := mk_world [] ∅ [] ∅ ∅.

(** ** The Dropbox SDK *)

(** A page of a folder listing ([ListFolderResult]). *)
Record ListFolderResult := mk_page {
  entries : list pyobj;
  has_more : bool;
  cursor : string
}.

(** A connected client ([dropbox.Dropbox]): the three calls the program
    makes.  The remote side is any function of the request; a call either
    returns or raises. *)
Record Dropbox := mk_dropbox {
  files_list_folder : string -> bool -> exn + ListFolderResult;
  files_list_folder_continue : string -> exn + ListFolderResult;
  files_download : string -> exn + string
}.

(** [dbx.files_download_to_file(path=src, download_path=dest)]: the
    request, then the body saved at [dest]. *)
Definition files_download_to_file (dbx : Dropbox) (src dest : string) : M unit :=
  body <- lift (files_download dbx src) ;;
  write_file dest body.

(** What the program takes from its surroundings: the environment
    variable [DROPBOX_TOKEN], the service answering a login with a client
    and the e-mail address of the account, and [datetime.timestamp()],
    which depends on the local time zone and raises outside the platform's
    range. *)
Record Platform := mk_platform {
  environ_DROPBOX_TOKEN : option string;
  dropbox_login : string -> exn + (Dropbox * string);
  timestamp : datetime -> exn + Z
}.

(** The [argparse] namespace. *)
Record Args := mk_args {
  dropbox_token : option string;
  r : bool;
  path : string;
  excludePaths : list string;
  pushFilesToQueue : option string;
  src_path : string;
  dest_path : string;
  pullFilesFromQueue : option string;
  queueName : option string;
  flush : bool
}.

Definition set_path (a : Args) (p : string) : Args :=
  mk_args (dropbox_token a) (r a) p (excludePaths a) (pushFilesToQueue a)
          (src_path a) (dest_path a) (pullFilesFromQueue a) (queueName a) (flush a).

Definition set_src_path (a : Args) (p : string) : Args :=
  mk_args (dropbox_token a) (r a) (path a) (excludePaths a) (pushFilesToQueue a)
          p (dest_path a) (pullFilesFromQueue a) (queueName a) (flush a).

(** ** [collections.namedtuple] *)

Definition keywords : list string :=
  ["False"; "None"; "True"; "and"; "as"; "assert"; "async"; "await"; "break";
   "class"; "continue"; "def"; "del"; "elif"; "else"; "except"; "finally";
   "for"; "from"; "global"; "if"; "import"; "in"; "is"; "lambda"; "nonlocal";
   "not"; "or"; "pass"; "raise"; "return"; "try"; "while"; "with"; "yield"].

Definition id_start (c : ascii) : bool :=
  let n := N_of_ascii c in
  ((65 <=? n) && (n <=? 90) || (97 <=? n) && (n <=? 122) || (n =? 95)
   || (n =? 170) || (n =? 181) || (n =? 186)
   || (192 <=? n) && (n <=? 214) || (216 <=? n) && (n <=? 246) || (248 <=? n))%N.

Definition id_continue (c : ascii) : bool :=
  let n := N_of_ascii c in
  (id_start c || (48 <=? n) && (n <=? 57) || (n =? 183))%N.

Fixpoint all_chars (f : ascii -> bool) (s : string) : bool :=
  match s with
  | EmptyString => true
  | String c s' => f c && all_chars f s'
  end.

(** [s.isidentifier()] *)
Definition isidentifier (s : string) : bool :=
  match s with
  | EmptyString => false
  | String c s' => id_start c && all_chars id_continue s'
  end.

(** The check [namedtuple] makes on each field name. *)
Definition field_name_ok (s : string) : bool :=
  isidentifier s && negb (existsb (String.eqb s) keywords)
  && negb (startswith s "_").

(** The [namedtuple] whose fields are the keys of [d], holding the values
    of [d] (the [object_hook] of [get]). *)
Definition namedtuple_of_dict (d : pyobj) : M pyobj :=
  if forallb (fun kv => field_name_ok (fst kv)) d then ret d
  else raise ValueError "Type names and field names must be valid identifiers".

(** ** The program *)

(** [json_serial(obj)] *)
Definition json_serial (obj : pyval) : M pyval :=
  match obj with
  | PDatetime d => ret (PStr (isoformat d))
  | _ => raise TypeError "Type not serializable"
  end.

(** [getattr(o, name)], which raises when the attribute is missing. *)
Definition getattr_strict (o : pyobj) (name : string) : M pyval :=
  match getattr o name with
  | Some v => ret v
  | None => raise AttributeError ("object has no attribute " +:+ name)
  end.

(** The bound method [v.startswith]: only a [str] has it. *)
Definition startswith_method (v : pyval) : M string :=
  match v with
  | PStr s => ret s
  | _ => raise AttributeError "object has no attribute startswith"
  end.

(** [get_queue(name)] *)
Definition get_queue (name : string) : M FifoDiskQueue := queue_open name.

(** An instance of [FakeFileList].  The class body sets [has_more] and
    [entries] once, so every instance reads and appends to the one list
    held by the class. *)
Inductive FakeFileList := FakeFileList_new.

Definition FakeFileList_get_entries (x : FakeFileList) : M (list string) :=
  fun w => (Ok (FakeFileList_entries w), w).

Definition FakeFileList_append (x : FakeFileList) (s : string) : M unit :=
  fun w => (Ok tt, set_FakeFileList_entries w (FakeFileList_entries w ++ [s])).

(** [b.decode()] *)
Definition decode (b : string) : M string :=
  match bytes_decode b with
  | Some s => ret s
  | None => raise UnicodeDecodeError "invalid utf-8"
  end.

(** [json.loads(s)] *)
Definition json_loads (s : string) : M Json.value :=
  match Json.loads s with
  | Some v => ret v
  | None => raise JSONDecodeError "Expecting value"
  end.

(** [v[key]] for a string key *)
Definition subscript (v : Json.value) (key : string) : M pyval :=
  match v with
  | Json.JDict d =>
      match getattr d key with
      | Some x => ret x
      | None => raise KeyError key
      end
  | Json.JScalar _ => raise TypeError "indices must be integers"
  end.

(** The loop of [get_files_in_queue]. *)
Fixpoint get_files_in_queue_loop (fuel : nat) (result : FakeFileList)
    (queue : FifoDiskQueue) : M (FakeFileList * FifoDiskQueue) :=
  match fuel with
  | O => out_of_fuel
  | S fuel' =>
      pq <- queue_pop queue ;;
      let queue := snd pq in
      match fst pq with
      | None => ret (result, queue)
      | Some file =>
          if String.eqb file "" then ret (result, queue)
          else
            text <- decode file ;;
            FakeFileList_append result text ;;
            get_files_in_queue_loop fuel' result queue
      end
  end.

(** [get_files_in_queue(queue)]; the handle is returned with the result
    because the caller goes on using the object the loop has changed. *)
Definition get_files_in_queue (fuel : nat) (queue : FifoDiskQueue)
    : M (FakeFileList * FifoDiskQueue) :=
  let result := FakeFileList_new in
  if negb (queue_truthy queue) then
    print "queue not found" ;;
    ret (result, queue)
  else get_files_in_queue_loop fuel result queue.

(** [peek(args)] *)
Definition peek (fuel : nat) (args : Args) : M unit :=
  if negb (opt_truthy (queueName args)) then ret tt
  else
    queue <- get_queue (opt_str (queueName args)) ;;
    fq <- get_files_in_queue fuel queue ;;
    let files := fst fq in
    let queue := snd fq in
    es <- FakeFileList_get_entries files ;;
    for_each es tt (fun _ file =>
      v <- json_loads file ;;
      p <- subscript v "path_display" ;;
      print (py_str p)) ;;
    if flush args then queue_close queue else ret tt.

(** [connect_to_dropbox(args)] *)
Definition connect_to_dropbox (sys : Platform) (args : Args) : M Dropbox :=
  let DROPBOX_TOKEN :=
    if opt_truthy (dropbox_token args) then dropbox_token args
    else environ_DROPBOX_TOKEN sys in
  if negb (opt_truthy DROPBOX_TOKEN) then
    print ("Generate an OAuath 2 Application Developers Access Token " +:+
           "from https://dropbox.com/developers/apps") ;;
    sys_exit 1
  else
    da <- try_except (lift (dropbox_login sys (opt_str DROPBOX_TOKEN)))
            (fun err => print (exn_msg err) ;; sys_exit 1) ;;
    print ("Connected to Dropbox as " +:+ snd da +:+ newline +:+ newline) ;;
    ret (fst da).

(** The [__dict__] of the [FakeFile] that [ls] fills in: the four
    attributes in the order they are assigned. *)
Definition FakeFile_dict (path_display size server_modified client_modified : pyval)
    : pyobj :=
  [("path_display", path_display); ("size", size);
   ("server_modified", server_modified); ("client_modified", client_modified)].

(** [json.dumps(d)] *)
Definition json_dumps (d : pyobj) : M string :=
  match Json.dumps d with
  | Some s => ret s
  | None => raise TypeError "Object is not JSON serializable"
  end.

(** [datetime.strptime(s, '%Y-%m-%dT%H:%M:%S')] *)
Definition strptime_call (s : string) : M pyval :=
  match strptime s with
  | Some d => ret (PDatetime d)
  | None => raise ValueError ("time data does not match format: " +:+ s)
  end.

Section Commands.

(** [sizeof_fmt] formats a size with binary floating point division and
    rounding, which are not modelled: the commands take the function
    from integers to text as given. *)
Variable sizeof_fmt : Z -> string.

Variable sys : Platform.

(** [sizeof_fmt(v)]: [abs] rejects what is not a number. *)
Definition sizeof_fmt_call (v : pyval) : M string :=
  match v with
  | PInt n => ret (sizeof_fmt n)
  | _ => raise TypeError "bad operand type for abs()"
  end.

(** The body of the [for] loop of [ls]; [queue] is [None] when no queue
    name was given. *)
Definition ls_entry (args : Args) (queue : option FifoDiskQueue) (entry : pyobj)
    : M (option FifoDiskQueue) :=
  pd <- getattr_strict entry "path_display" ;;
  p <- startswith_method pd ;;
  if any_startswith p (excludePaths args) then
    print ("Excluding " +:+ p) ;;
    ret queue
  else
    sz <- sizeof_fmt_call (getattr_default entry "size" (PInt 0)) ;;
    print (rjust 8 sz +:+ "  " +:+
           rjust 20 (py_str (getattr_default entry "client_modified" (PStr "-")))
           +:+ "  " +:+ py_str (getattr_default entry "path_display" (PStr "-"))) ;;
    match queue with
    | Some q =>
        if is_not_None (getattr_default entry "size" PNone) then
          f_path <- getattr_strict entry "path_display" ;;
          f_size <- getattr_strict entry "size" ;;
          sm <- getattr_strict entry "server_modified" ;;
          f_sm <- json_serial sm ;;
          cm <- getattr_strict entry "client_modified" ;;
          f_cm <- json_serial cm ;;
          text <- json_dumps (FakeFile_dict f_path f_size f_sm f_cm) ;;
          ret (Some (queue_push q (str_encode text)))
        else ret queue
    | None => ret queue
    end.

(** [if queue: queue.close()] *)
Definition close_if_queue (queue : option FifoDiskQueue) : M unit :=
  match queue with
  | Some q => if queue_truthy q then queue_close q else ret tt
  | None => ret tt
  end.

(** The [while True] loop of [ls], entered with the current page. *)
Fixpoint ls_loop (fuel : nat) (args : Args) (dbx : Dropbox)
    (page : ListFolderResult) : M unit :=
  match fuel with
  | O => out_of_fuel
  | S fuel' =>
      queue <- (if opt_truthy (pushFilesToQueue args)
                then q <- get_queue (opt_str (pushFilesToQueue args)) ;; ret (Some q)
                else ret None) ;;
      queue <- for_each (entries page) queue (ls_entry args) ;;
      if has_more page then
        page' <- lift (files_list_folder_continue dbx (cursor page)) ;;
        close_if_queue queue ;;
        ls_loop fuel' args dbx page'
      else
        close_if_queue queue
  end.

(** [ls(args)] *)
Definition ls (fuel : nat) (args : Args) : M unit :=
  dbx <- connect_to_dropbox sys args ;;
  let args := if String.eqb (path args) "/" then set_path args "" else args in
  page <- lift (files_list_folder dbx (path args) (r args)) ;;
  ls_loop fuel args dbx page.

(** [v.timestamp()] *)
Definition timestamp_call (v : pyval) : M Z :=
  match v with
  | PDatetime d => lift (timestamp sys d)
  | _ => raise AttributeError "object has no attribute timestamp"
  end.

(** [print(err); sys.exit(1)], the handler of every [try] of
    [copy_dropbox_file]. *)
Definition print_and_exit {A} (err : exn) : M A :=
  print (exn_msg err) ;; sys_exit 1.

(** The first [try] block of [copy_dropbox_file]. *)
Definition make_local_dir (local_dir : string) : M unit :=
  fun w =>
    if negb (path_exists w local_dir) then
      (print ("Creating directory " +:+ local_dir) ;; makedirs local_dir) w
    else ret tt w.

(** The last [try] block of [copy_dropbox_file]. *)
Definition set_times (entry : pyobj) (dest : string) : M unit :=
  modified <- getattr_strict entry "server_modified" ;;
  cModified <- getattr_strict entry "client_modified" ;;
  modified <- (match modified with PStr s => strptime_call s | v => ret v end) ;;
  cModified <- (match cModified with PStr s => strptime_call s | v => ret v end) ;;
  atime <- timestamp_call modified ;;
  mtime <- timestamp_call cModified ;;
  utime dest (atime, mtime).

(** [copy_dropbox_file(args, entry, dbx)]; returns the namespace, whose
    [src_path] it may rewrite. *)
Definition copy_dropbox_file (args : Args) (entry : pyobj) (dbx : Dropbox) : M Args :=
  if negb (truthy (getattr_default entry "size" PNone)) then
    pd <- getattr_strict entry "path_display" ;;
    match pd with
    | PStr p => print ("empty file or directory skipping " +:+ p) ;; ret args
    | _ => raise TypeError "can only concatenate str to str"
    end
  else
    pd <- getattr_strict entry "path_display" ;;
    p <- startswith_method pd ;;
    if any_startswith p (excludePaths args) then
      print ("Excluding " +:+ p) ;;
      ret args
    else
      let args := if String.eqb (src_path args) "/" then set_src_path args "" else args in
      let local_dir := dirname (dest_path args +:+ p) in
      try_except (make_local_dir local_dir) print_and_exit ;;
      let src := p in
      let dest := dest_path args +:+ p in
      print ("Downloading " +:+ src +:+ " to " +:+ dest) ;;
      try_except (files_download_to_file dbx src dest) print_and_exit ;;
      try_except (set_times entry dest) print_and_exit ;;
      ret args.

(** [json.loads(entry, object_hook=...)] on a blob popped from the
    queue.  A scalar has none of the attributes [copy_dropbox_file] asks
    for, like an object without attributes. *)
Definition parse_work_item (blob : string) : M pyobj :=
  text <- decode blob ;;
  v <- json_loads text ;;
  match v with
  | Json.JDict d => namedtuple_of_dict d
  | Json.JScalar _ => ret []
  end.

(** The loop of [get] when a queue name is given. *)
Fixpoint get_from_queue (fuel : nat) (args : Args) (dbx : Dropbox) : M unit :=
  match fuel with
  | O => out_of_fuel
  | S fuel' =>
      queue <- get_queue (opt_str (pullFilesFromQueue args)) ;;
      pq <- queue_pop queue ;;
      let queue := snd pq in
      match fst pq with
      | None => ret tt
      | Some entry =>
          if String.eqb entry "" then ret tt
          else
            parsed <- parse_work_item entry ;;
            args' <- copy_dropbox_file args parsed dbx ;;
            queue_close queue ;;
            get_from_queue fuel' args' dbx
      end
  end.

(** The loop of [get] when no queue name is given.  The first page is
    requested at the top of every iteration; the page fetched with the
    cursor is assigned to [files] and replaced there. *)
Fixpoint get_direct (fuel : nat) (args : Args) (dbx : Dropbox) : M unit :=
  match fuel with
  | O => out_of_fuel
  | S fuel' =>
      page <- lift (files_list_folder dbx (src_path args) (r args)) ;;
      args' <- for_each (entries page) args
                 (fun a entry => copy_dropbox_file a entry dbx) ;;
      if has_more page then
        _ <- lift (files_list_folder_continue dbx (cursor page)) ;;
        get_direct fuel' args' dbx
      else ret tt
  end.

(** [get(args)] *)
Definition get (fuel : nat) (args : Args) : M unit :=
  dbx <- connect_to_dropbox sys args ;;
  if opt_truthy (pullFilesFromQueue args) then get_from_queue fuel args dbx
  else
    dbx <- connect_to_dropbox sys args ;;
    get_direct fuel args dbx.

End Commands.

(** ** The queue library as the program runs it *)

(** The contract of the work queue above is the spec's.  The library the
    program imports, [queuelib], is not part of the program's source, and
    it differs from the contract where the spec is silent or says
    otherwise: [pop] moves the read position of the handle only, and the
    position reaches the storage when the handle is closed; [close]
    removes the storage of a queue it leaves empty; and a handle has a
    length, the number of items it still holds, so that an empty handle is
    false.  This module has the handle on that behaviour, and the
    functions of the program that only pop, which is where the difference
    shows.  [disk] holds what has been committed.  The library keeps a
    queue in chunks of 100000 items and deletes a chunk with the pop of
    its last item; the module is about queues that stay within their first
    chunk, and it has no [push]. *)
Module Queuelib.

(** A handle: the name of the queue and the items between its read
    position and its end. *)
Record FifoDiskQueue := mk_queue {
  q_name : string;
  q_items : list string
}.

(** [FifoDiskQueue(name)]: the storage is made if it is missing, and the
    committed state is read. *)
Definition queue_open (name : string) : M FifoDiskQueue :=
  fun w => (Ok (mk_queue name (stored w name)),
            set_disk w (<[name := stored w name]> (disk w))).

(** [queue.pop()]: the storage is read, not changed. *)
Definition queue_pop (q : FifoDiskQueue) : M (option string * FifoDiskQueue) :=
  match q_items q with
  | x :: rest => ret (Some x, mk_queue (q_name q) rest)
  | [] => ret (None, q)
  end.

(** [len(queue)] *)
Definition queue_len (q : FifoDiskQueue) : nat := length (q_items q).

(** [queue.close()]: the read position is committed, and the storage of
    a queue that is left empty is removed. *)
Definition queue_close (q : FifoDiskQueue) : M unit :=
  fun w =>
    (Ok tt,
     set_disk w (if Nat.eqb (queue_len q) 0
                 then delete (q_name q) (disk w)
                 else <[q_name q := q_items q]> (disk w))).

(** [bool(queue)]: the handle has a length, which decides. *)
Definition queue_truthy (q : FifoDiskQueue) : bool := negb (Nat.eqb (queue_len q) 0).

(** [get_queue(name)] *)
Definition get_queue (name : string) : M FifoDiskQueue := queue_open name.

(** The loop of [get_files_in_queue]. *)
Fixpoint get_files_in_queue_loop (fuel : nat) (result : FakeFileList)
    (queue : FifoDiskQueue) : M (FakeFileList * FifoDiskQueue) :=
  match fuel with
  | O => out_of_fuel
  | S fuel' =>
      pq <- queue_pop queue ;;
      let queue := snd pq in
      match fst pq with
      | None => ret (result, queue)
      | Some file =>
          if String.eqb file "" then ret (result, queue)
          else
            text <- decode file ;;
            FakeFileList_append result text ;;
            get_files_in_queue_loop fuel' result queue
      end
  end.

(** [get_files_in_queue(queue)] *)
Definition get_files_in_queue (fuel : nat) (queue : FifoDiskQueue)
    : M (FakeFileList * FifoDiskQueue) :=
  let result := FakeFileList_new in
  if negb (queue_truthy queue) then
    print "queue not found" ;;
    ret (result, queue)
  else get_files_in_queue_loop fuel result queue.

(** [peek(args)] *)
Definition peek (fuel : nat) (args : Args) : M unit :=
  if negb (opt_truthy (queueName args)) then ret tt
  else
    queue <- get_queue (opt_str (queueName args)) ;;
    fq <- get_files_in_queue fuel queue ;;
    let files := fst fq in
    let queue := snd fq in
    es <- FakeFileList_get_entries files ;;
    for_each es tt (fun _ file =>
      v <- json_loads file ;;
      p <- subscript v "path_display" ;;
      print (py_str p)) ;;
    if flush args then queue_close queue else ret tt.

(** The loop of [get] when a queue name is given. *)
Fixpoint get_from_queue (sys : Platform) (fuel : nat) (args : Args) (dbx : Dropbox)
    : M unit :=
  match fuel with
  | O => out_of_fuel
  | S fuel' =>
      queue <- get_queue (opt_str (pullFilesFromQueue args)) ;;
      pq <- queue_pop queue ;;
      let queue := snd pq in
      match fst pq with
      | None => ret tt
      | Some entry =>
          if String.eqb entry "" then ret tt
          else
            parsed <- parse_work_item entry ;;
            args' <- copy_dropbox_file sys args parsed dbx ;;
            queue_close queue ;;
            get_from_queue sys fuel' args' dbx
      end
  end.

End Queuelib.

(** ** [sizeof_fmt] *)

(** The commands above take the formatting of a size as a parameter;
    this is the function of the program on integer sizes.  A size is an
    integer, and the only arithmetic is the division by
    [1024.0], which is exact in binary floating point: the value is kept
    as the integer the function was given and the number of divisions
    made, [num / 1024 ^ k].  This is the value the program computes as
    long as the integer is itself a float without rounding, that is below
    [2 ^ 53] in absolute value; the properties are stated for such
    sizes. *)

(** [a / b] rounded to the nearest integer, a tie going to the even
    one: the rounding of the [%f] conversion. *)
Definition round_half_even (a b : Z) : Z :=
  let q := a / b in
  let r := a mod b in
  if 2 * r <? b then q
  else if b <? 2 * r then q + 1
  else if Z.even q then q else q + 1.

(** ["%3.1f" % (num / 1024 ** k)]; the width of three is always
    reached. *)
Definition format_1f (num : Z) (k : nat) : string :=
  let t := round_half_even (10 * Z.abs num) (1024 ^ Z.of_nat k) in
  (if num <? 0 then "-" else "") +:+ str_of_Z (t / 10) +:+ "." +:+ str_of_Z (t mod 10).

(** The [for] loop of [sizeof_fmt] over the units that are left, [k]
    divisions having been made. *)
Fixpoint sizeof_fmt_loop (units : list string) (num : Z) (k : nat) : string :=
  match units with
  | unit :: units' =>
      if Z.abs num <? 1024 * 1024 ^ Z.of_nat k
      then format_1f num k +:+ unit +:+ "B"
      else sizeof_fmt_loop units' num (S k)
  | [] => format_1f num k +:+ "Yi" +:+ "B"
  end.

(** [sizeof_fmt(num)] *)
Definition sizeof_fmt (num : Z) : string :=
  sizeof_fmt_loop [""; "Ki"; "Mi"; "Gi"; "Ti"; "Pi"; "Ei"; "Zi"] num 0.

(** The units of [sizeof_fmt], by the number of divisions. *)
Definition unit_name (k : nat) : string :=
  nth k [""; "Ki"; "Mi"; "Gi"; "Ti"; "Pi"; "Ei"; "Zi"] "Yi".

(** * Vocabulary of the properties *)

(** ** Worlds, lines and texts *)

(** Case analysis on the 256 characters. *)
Ltac each_char c :=
  destruct c as [[] [] [] [] [] [] [] []].

(** What may follow an integer literal in a document. *)
Definition ends_number (rest : string) : bool :=
  match rest with
  | String c _ => negb (Json.is_digit c) && negb (Json.starts_fraction rest)
  | EmptyString => true
  end.

(** The world after [print(s)]. *)
Definition printed (w : World) (s : string) : World :=
  set_stdout w (stdout w ++ [s]).

(** The line [copy_dropbox_file] prints for an entry it does not
    transfer. *)
Definition skip_line (entry : pyobj) (p : string) : string :=
  if truthy (getattr_default entry "size" PNone)
  then "Excluding " +:+ p
  else "empty file or directory skipping " +:+ p.

(** The text of a Work Item: the JSON object [ls] writes for a file at
    [p] of [n] bytes with the two times in ISO form. *)
Definition work_item_text (p : string) (n : Z) (sm cm : string) : string :=
  "{" +:+ Json.dumps_str "path_display" +:+ ": " +:+ Json.dumps_str p +:+ ", " +:+
  Json.dumps_str "size" +:+ ": " +:+ str_of_Z n +:+ ", " +:+
  Json.dumps_str "server_modified" +:+ ": " +:+ Json.dumps_str sm +:+ ", " +:+
  Json.dumps_str "client_modified" +:+ ": " +:+ Json.dumps_str cm +:+ "}".

(** The blob stored in the queue. *)
Definition work_item_blob (p : string) (n : Z) (sm cm : string) : string :=
  str_encode (work_item_text p n sm cm).

(** The line [ls] prints for an entry it lists. *)
Definition listing_line (sizeof_fmt : Z -> string) (entry : pyobj) : string :=
  rjust 8 (sizeof_fmt (match getattr entry "size" with Some (PInt n) => n | _ => 0 end))
  +:+ "  " +:+
  rjust 20 (py_str (getattr_default entry "client_modified" (PStr "-")))
  +:+ "  " +:+ py_str (getattr_default entry "path_display" (PStr "-")).

(** The two forms in which an entry can hold the time [d]: the
    [datetime] itself (a live remote entry), or its ISO text (a decoded
    Work Item). *)
Inductive timestamp_form (d : datetime) : pyval -> Prop :=
| form_datetime : timestamp_form d (PDatetime d)
| form_iso_string : valid_datetime d = true -> timestamp_form d (PStr (isoformat d)).

(** [args] after the rewrite of [src_path] in [copy_dropbox_file]. *)
Definition normalized (args : Args) : Args :=
  if String.eqb (src_path args) "/" then set_src_path args "" else args.

(** A computation that leaves every persisted queue as it found it,
    however it ends. *)
Definition keeps_disk {A} (m : M A) : Prop :=
  forall w, disk (snd (m w)) = disk w.

(** The three ways the transfer of the entry at [p] can fail in world
    [w]: making the local directory raises, or the download raises, or
    reading and applying the two times raises.  [err] is the exception and
    [wf] the world at that point. *)
Inductive transfer_failure (sys : Platform) (args : Args) (entry : pyobj)
    (dbx : Dropbox) (p : string) (w : World) : exn -> World -> Prop :=
| directory_failure err wf :
    make_local_dir (dirname (dest_path args +:+ p)) w = (Raised err, wf) ->
    transfer_failure sys args entry dbx p w err wf
| download_failure err w1 wf :
    make_local_dir (dirname (dest_path args +:+ p)) w = (Ok tt, w1) ->
    files_download_to_file dbx p (dest_path args +:+ p)
      (printed w1 ("Downloading " +:+ p +:+ " to " +:+ dest_path args +:+ p))
    = (Raised err, wf) ->
    transfer_failure sys args entry dbx p w err wf
| timestamp_failure err w1 w2 wf :
    make_local_dir (dirname (dest_path args +:+ p)) w = (Ok tt, w1) ->
    files_download_to_file dbx p (dest_path args +:+ p)
      (printed w1 ("Downloading " +:+ p +:+ " to " +:+ dest_path args +:+ p))
    = (Ok tt, w2) ->
    set_times sys entry (dest_path args +:+ p) w2 = (Raised err, wf) ->
    transfer_failure sys args entry dbx p w err wf.

(** The world once the head of the queue [name] has been popped, [rest]
    being what stays queued. *)
Definition popped (w : World) (name : string) (rest : list string) : World :=
  set_disk w (<[name := rest]> (disk w)).

(** ** Work Items *)

(** A Work Item as it stands in a queue: the path, the size and the two
    times in ISO form. *)
Record WorkItem := mk_item {
  wi_path : string;
  wi_size : Z;
  wi_server_modified : string;
  wi_client_modified : string
}.

Definition item_text (it : WorkItem) : string :=
  work_item_text (wi_path it) (wi_size it)
                 (wi_server_modified it) (wi_client_modified it).

Definition item_blob (it : WorkItem) : string := str_encode (item_text it).

Definition item_dict (it : WorkItem) : pyobj :=
  FakeFile_dict (PStr (wi_path it)) (PInt (wi_size it))
                (PStr (wi_server_modified it)) (PStr (wi_client_modified it)).

(** The world after [get_files_in_queue] has emptied the queue [name],
    whose blobs decoded to [texts]. *)
Definition drained (w : World) (name : string) (texts : list string) : World :=
  set_FakeFileList_entries (set_disk w (<[name := []]> (disk w)))
                           (FakeFileList_entries w ++ texts).

(** One entry pushed by [ls] on the queue [name], the handle closed, the
    queue opened again and popped, and the blob decoded as [get] decodes
    it. *)
Definition push_close_reopen_pop (sizeof_fmt : Z -> string) (args : Args)
    (name : string) (entry : pyobj) : M pyobj :=
  q <- get_queue name ;;
  q' <- ls_entry sizeof_fmt args (Some q) entry ;;
  close_if_queue q' ;;
  q2 <- get_queue name ;;
  pq <- queue_pop q2 ;;
  match fst pq with
  | Some blob => parse_work_item blob
  | None => ret []
  end.

(** ** Example machines and command lines *)

(** Days from 1970-01-01 to the civil date, and the seconds since the
    epoch of a time read as UTC: the [timestamp()] of a machine whose
    local zone is UTC. *)
Definition days_from_civil (y m d : Z) : Z :=
  let y' := if m <=? 2 then y - 1 else y in
  let era := y' / 400 in
  let yoe := y' - era * 400 in
  let mp := (m + 9) mod 12 in
  let doy := (153 * mp + 2) / 5 + d - 1 in
  let doe := yoe * 365 + yoe / 4 - yoe / 100 + doy in
  era * 146097 + doe - 719468.

Definition utc_timestamp (d : datetime) : exn + Z :=
  inr (days_from_civil (year d) (month d) (day d) * 86400
       + hour d * 3600 + minute d * 60 + second d).

(** [sizeof_fmt] on sizes below 1024: one decimal and the unit [B]. *)
Definition sizeof_fmt_bytes (n : Z) : string := str_of_Z n +:+ ".0B".

Definition example_time : datetime := mk_datetime 2019 3 7 9 5 59.

(** A remote file as the SDK lists it. *)
Definition remote_file (p : string) (n : Z) : pyobj :=
  [("path_display", PStr p); ("size", PInt n);
   ("server_modified", PDatetime example_time);
   ("client_modified", PDatetime example_time)].

(** A remote folder whose listing has two pages: [/a.txt] with
    [has_more] set and the cursor [c1], then [/b.txt]. *)
Definition two_pages : Dropbox :=
  mk_dropbox
    (fun _ _ => inr (mk_page [remote_file "/a.txt" 3] true "c1"))
    (fun c => if String.eqb c "c1"
              then inr (mk_page [remote_file "/b.txt" 5] false "")
              else inl (mk_exn ApiError "invalid cursor"))
    (fun p => inr ("contents of " +:+ p)).

Definition example_sys (dbx : Dropbox) : Platform :=
  mk_platform (Some "token") (fun _ => inr (dbx, "user@example.com")) utc_timestamp.

(** [get '' out] *)
Definition direct_args : Args :=
  mk_args None false "" [] None "" "out" None None false.

(** A machine where the directory [out] exists. *)
Definition out_world : World := set_dirs empty_world {[ "out" ]}.

Definition download_line_a : string := "Downloading /a.txt to out/a.txt".

(** A folder listed in one page: an empty file and a subfolder. *)
Definition one_page : Dropbox :=
  mk_dropbox
    (fun _ _ => inr (mk_page [remote_file "/docs/empty.txt" 0;
                              [("path_display", PStr "/docs/sub")]] false ""))
    (fun _ => inl (mk_exn ApiError "invalid cursor"))
    (fun _ => inl (mk_exn ApiError "path/not_found")).

(** [ls /docs --pushFilesToQueue q] *)
Definition ls_args : Args :=
  mk_args None false "/docs" [] (Some "q") "" "" None None false.

(** [get '' out --excludePaths /tmp] *)
Definition exclude_args : Args :=
  mk_args None false "" ["/tmp"] None "" "out" None None false.

(** [peek --queueName q] *)
Definition peek_args : Args :=
  mk_args None false "" [] None "" "" None (Some "q") false.

(** [get '' out --pullFilesFromQueue q] *)
Definition queue_args : Args :=
  mk_args None false "" [] None "" "out" (Some "q") None false.

Definition item_a : WorkItem :=
  mk_item "/a.txt" 3 "2019-03-07T09:05:59" "2019-03-07T09:05:59".
Definition item_b : WorkItem :=
  mk_item "/b.txt" 5 "2019-03-07T09:05:59" "2019-03-07T09:05:59".

(** A machine where the queue [q] holds two Work Items and the
    directory [out] exists. *)
Definition queue_world : World :=
  set_disk out_world {[ "q" := [item_blob item_a; item_blob item_b] ]}.

(** A remote whose downloads are refused. *)
Definition refusing : Dropbox :=
  mk_dropbox
    (fun _ _ => inr (mk_page [remote_file "/a.txt" 3; remote_file "/b.txt" 5] false ""))
    (fun _ => inl (mk_exn ApiError "invalid cursor"))
    (fun _ => inl (mk_exn ApiError "path/not_found")).

(** A decoded Work Item whose client time is already a [datetime]. *)
Definition mixed_entry : pyobj :=
  [("path_display", PStr "/a.txt"); ("size", PInt 3);
   ("server_modified", PStr "2019-03-07T09:05:59");
   ("client_modified", PDatetime (mk_datetime 2019 3 8 0 0 0))].

(** [ls / --pushFilesToQueue q] *)
Definition ls_root_args : Args :=
  mk_args None false "/" [] (Some "q") "" "" None None false.

(** [peek --queueName q --flush] *)
Definition peek_flush_args : Args :=
  mk_args None false "" [] None "" "" None (Some "q") true.

(** ** Frames, listings and transfers *)

(** A relation between the world before and the world after, kept by
    every step of a computation [m], however [m] ends. *)
Definition stays {A} (R : World -> World -> Prop) (m : M A) : Prop :=
  forall w, R w (snd (m w)).

(** Only standard output differs. *)
Definition only_printed (w w' : World) : Prop :=
  disk w' = disk w /\ FakeFileList_entries w' = FakeFileList_entries w
  /\ dirs w' = dirs w /\ files w' = files w.

(** The local file system is the same, and so is every queue but
    [name]. *)
Definition only_queue (name : string) (w w' : World) : Prop :=
  dirs w' = dirs w /\ files w' = files w
  /\ forall other, other <> name -> disk w' !! other = disk w !! other.

(** A handle, if there is one, is a handle on the queue [name]. *)
Definition handle_on (name : string) (queue : option FifoDiskQueue) : Prop :=
  match queue with Some q => q_name q = name | None => True end.

(** Every queue but [name] is as it was. *)
Definition other_queues (name : string) (w w' : World) : Prop :=
  forall other, other <> name -> disk w' !! other = disk w !! other.

(** The pages a listing session goes through from [page] on: each page
    with [has_more] set is followed by the page its cursor gives, and the
    session ends at the first page without [has_more]. *)
Inductive listing (dbx : Dropbox) : ListFolderResult -> list ListFolderResult -> Prop :=
| listing_last page :
    has_more page = false -> listing dbx page [page]
| listing_more page next rest :
    has_more page = true ->
    files_list_folder_continue dbx (cursor page) = inr next ->
    listing dbx next rest ->
    listing dbx page (page :: rest).

(** What the Dropbox SDK lists: a folder (a path, no size) or a file (a
    path, an integer size and two [datetime]s). *)
Inductive listable : pyobj -> Prop :=
| listable_folder entry p :
    getattr entry "path_display" = Some (PStr p) ->
    getattr entry "size" = None ->
    listable entry
| listable_file entry p n sm cm :
    getattr entry "path_display" = Some (PStr p) ->
    getattr entry "size" = Some (PInt n) ->
    getattr entry "server_modified" = Some (PDatetime sm) ->
    getattr entry "client_modified" = Some (PDatetime cm) ->
    listable entry.

Definition entry_path (entry : pyobj) : string :=
  match getattr entry "path_display" with Some (PStr p) => p | _ => "" end.

(** The line [ls] prints for a listable entry. *)
Definition ls_line (sizeof_fmt : Z -> string) (excluded : list string)
    (entry : pyobj) : string :=
  if any_startswith (entry_path entry) excluded
  then "Excluding " +:+ entry_path entry
  else listing_line sizeof_fmt entry.

(** The blobs [ls] pushes for a listable entry: one for a file that is
    not excluded, none otherwise. *)
Definition ls_blobs (excluded : list string) (entry : pyobj) : list string :=
  if any_startswith (entry_path entry) excluded then []
  else
    match getattr entry "size", getattr entry "server_modified",
          getattr entry "client_modified" with
    | Some (PInt n), Some (PDatetime sm), Some (PDatetime cm) =>
        [work_item_blob (entry_path entry) n (isoformat sm) (isoformat cm)]
    | _, _, _ => []
    end.

(** The handle after the blobs [bs] have been pushed. *)
Definition pushed_all (queue : option FifoDiskQueue) (bs : list string)
    : option FifoDiskQueue :=
  match queue with
  | Some q => Some (mk_queue (q_name q) (q_buffer q ++ bs))
  | None => None
  end.

(** The world after [ls] has listed the entries [es]: their lines
    printed in order and, with a queue name, their blobs appended to that
    queue in the same order. *)
Definition listed (sizeof_fmt : Z -> string) (args : Args) (w : World)
    (es : list pyobj) : World :=
  mk_world (stdout w ++ map (ls_line sizeof_fmt (excludePaths args)) es)
           (if opt_truthy (pushFilesToQueue args)
            then <[opt_str (pushFilesToQueue args)
                   := stored w (opt_str (pushFilesToQueue args))
                      ++ flat_map (ls_blobs (excludePaths args)) es]> (disk w)
            else disk w)
           (FakeFileList_entries w) (dirs w) (files w).

(** The path [ls] asks the listing of: the root is the empty string. *)
Definition ls_path (args : Args) : string :=
  if String.eqb (path args) "/" then "" else path args.

(** The text printed when no token is at hand. *)
Definition token_hint : string :=
  "Generate an OAuath 2 Application Developers Access Token " +:+
  "from https://dropbox.com/developers/apps".

(** The token [connect_to_dropbox] logs in with: the one of the command
    line when it is given and not empty, else the one of the
    environment. *)
Definition effective_token (sys : Platform) (args : Args) : option string :=
  if opt_truthy (dropbox_token args) then dropbox_token args
  else environ_DROPBOX_TOKEN sys.

(** The two ways the connection fails, with the text printed: no token,
    or a login the service refuses. *)
Inductive connection_refused (sys : Platform) (args : Args) : string -> Prop :=
| refused_no_token :
    opt_truthy (effective_token sys args) = false ->
    connection_refused sys args token_hint
| refused_login err :
    opt_truthy (effective_token sys args) = true ->
    dropbox_login sys (opt_str (effective_token sys args)) = inl err ->
    connection_refused sys args (exn_msg err).

(** Whether [c] can begin a JSON value as [json.loads] reads it: an
    object, an array, a string, a number, [true], [false], [null], [NaN]
    or [Infinity]. *)
Definition json_start (c : ascii) : bool :=
  existsb (Ascii.eqb c)
    ["{"; "["; quote; "-"; "0"; "1"; "2"; "3"; "4"; "5"; "6"; "7"; "8"; "9";
     "t"; "f"; "n"; "N"; "I"]%char.

(** A text that holds no JSON value at all: nothing but white space, or
    a first character that begins none. *)
Definition no_json_value (s : string) : bool :=
  match Json.skip_ws s with
  | EmptyString => true
  | String c _ => negb (json_start c)
  end.

(** The outcome of a computation that returned or raised. *)
Definition returned_or_raised {A} (o : outcome A) : bool :=
  match o with Ok _ | Raised _ => true | _ => false end.

(** The outcome of a computation that returned or left through
    [sys.exit(1)]. *)
Definition returned_or_exit_1 {A} (o : outcome A) : bool :=
  match o with Ok _ => true | Exited c => c =? 1 | _ => false end.

(** The outcome of a computation that ended within the iterations it was
    given. *)
Definition ended {A} (o : outcome A) : bool :=
  match o with OutOfFuel => false | _ => true end.

Definition plain {A} (m : M A) : Prop :=
  forall w, returned_or_raised (fst (m w)) = true.

Definition halts {A} (m : M A) : Prop :=
  forall w, ended (fst (m w)) = true.

(** What a transfer to [dest] may change on the machine: standard output,
    the file [dest], and directories that are missing, each of them a
    prefix of [dest].  No directory goes away, the file [dest] does not go
    away if it was there, and the queues and [FakeFileList.entries] are
    as before. *)
Definition wrote_only (dest : string) (w w' : World) : Prop :=
  (forall q, q <> dest -> files w' !! q = files w !! q)
  /\ (is_Some (files w !! dest) -> is_Some (files w' !! dest))
  /\ (forall q, q ∈ dirs w -> q ∈ dirs w')
  /\ (forall q, q ∈ dirs w' -> q ∈ dirs w \/ startswith dest q = true)
  /\ disk w' = disk w
  /\ FakeFileList_entries w' = FakeFileList_entries w.

(** Nothing local has gone away: every directory and every file that was
    there is still there. *)
Definition nothing_removed (w w' : World) : Prop :=
  (forall q, q ∈ dirs w -> q ∈ dirs w')
  /\ (forall q, is_Some (files w !! q) -> is_Some (files w' !! q)).

(** Steps that create directories only, all of them prefixes of [d]. *)
Definition makes_under {A} (d : string) (m : M A) : Prop :=
  forall w, files (snd (m w)) = files w /\ wrote_only d w (snd (m w)).

(** The line printed after a successful login. *)
Definition greeting (email : string) : string :=
  "Connected to Dropbox as " +:+ email +:+ newline +:+ newline.

(** A computation that neither reads nor writes the persisted queues:
    run with other queues, it ends the same way and leaves the same world,
    but for those queues. *)
Definition ignores_disk {A} (m : M A) : Prop :=
  forall w d, m (set_disk w d) = (fst (m w), set_disk (snd (m w)) d).

(** An outcome as the caller of a loop sees it, the value dropped. *)
Definition without_value {A} (o : outcome A) : outcome unit :=
  match o with
  | Ok _ => Ok tt
  | Raised e => Raised e
  | Exited c => Exited c
  | OutOfFuel => OutOfFuel
  end.

(** The part of the world outside the queues: standard output and the
    local file system. *)
Definition outside_queues (w : World) : list string * gset string * gmap string FileStat :=
  (stdout w, dirs w, files w).

(** Every [datetime] the entry holds is a date of the calendar. *)
Definition valid_times (entry : pyobj) : Prop :=
  forall name d, getattr entry name = Some (PDatetime d) -> valid_datetime d = true.

(** The Work Items [ls] queues for a listable entry, and the entries it
    queues one for: the files that are not excluded. *)
Definition ls_items (excluded : list string) (entry : pyobj) : list WorkItem :=
  if any_startswith (entry_path entry) excluded then []
  else
    match getattr entry "size", getattr entry "server_modified",
          getattr entry "client_modified" with
    | Some (PInt n), Some (PDatetime sm), Some (PDatetime cm) =>
        [mk_item (entry_path entry) n (isoformat sm) (isoformat cm)]
    | _, _, _ => []
    end.

Definition ls_files (excluded : list string) (entry : pyobj) : list pyobj :=
  if any_startswith (entry_path entry) excluded then []
  else
    match getattr entry "size", getattr entry "server_modified",
          getattr entry "client_modified" with
    | Some (PInt n), Some (PDatetime sm), Some (PDatetime cm) => [entry]
    | _, _, _ => []
    end.

(** * Properties *)

(** ** Checks of the model *)

Example strptime_ex :
  strptime "2019-03-07T09:05:59" = Some (mk_datetime 2019 3 7 9 5 59).
Proof. reflexivity. Qed.

Example isoformat_ex :
  isoformat (mk_datetime 2019 3 7 9 5 59) = "2019-03-07T09:05:59".
Proof. reflexivity. Qed.

Example dumps_ex :
  Json.dumps [("path_display", PStr "/a b"); ("size", PInt 12)]
  = Some ("{" +:+ Json.dumps_str "path_display" +:+ ": " +:+ Json.dumps_str "/a b"
          +:+ ", " +:+ Json.dumps_str "size" +:+ ": 12}").
Proof. reflexivity. Qed.

Example loads_dumps_ex :
  option_map Json.loads
    (Json.dumps [("path_display", PStr "/a b"); ("size", PInt (-12)); ("x", PNone)])
  = Some (Some (Json.JDict [("path_display", PStr "/a b"); ("size", PInt (-12)); ("x", PNone)])).
Proof. vm_compute. reflexivity. Qed.

Example dirname_ex1 : dirname "out/a/b.txt" = "out/a".
Proof. reflexivity. Qed.
Example dirname_ex2 : dirname "/b.txt" = "/".
Proof. reflexivity. Qed.
Example dirname_ex3 : dirname "b.txt" = "".
Proof. reflexivity. Qed.
Example path_split_ex : path_split "/a//b/" = ("/a//b", "").
Proof. reflexivity. Qed.

Example makedirs_ex :
  let '(o, w) := makedirs "out/a/b" (set_dirs empty_world {[ "out" ]}) in
  o = Ok tt /\ dirs w = {[ "out/a/b" ]} ∪ ({[ "out/a" ]} ∪ {[ "out" ]}).
Proof. vm_compute. split; reflexivity. Qed.

Example makedirs_under_file :
  fst (makedirs "out/a/b"
         (set_files empty_world {[ "out" := mk_stat "x" None ]}))
  = Raised (mk_exn NotADirectoryError "Not a directory: out").
Proof. vm_compute. reflexivity. Qed.

(** ** Text encodings and JSON *)

Lemma append_cons (x : ascii) (a b : string) :
  String x a +:+ b = String x (a +:+ b).
Proof. reflexivity. Qed.

Lemma append_nil_l (b : string) : "" +:+ b = b.
Proof. reflexivity. Qed.

Lemma append_assoc (a b c : string) : (a +:+ b) +:+ c = a +:+ (b +:+ c).
Proof.
  induction a as [|x a IH]; [reflexivity|].
  now rewrite !append_cons, IH.
Qed.

Lemma append_nil_r (a : string) : a +:+ "" = a.
Proof.
  induction a as [|x a IH]; [reflexivity|].
  now rewrite append_cons, IH.
Qed.

Lemma decode_encode_char (c : ascii) (rest : string) :
  bytes_decode (utf8_encode_char c +:+ rest)
  = option_map (String c) (bytes_decode rest).
Proof. each_char c; reflexivity. Qed.

Lemma bytes_decode_encode (s : string) : bytes_decode (str_encode s) = Some s.
Proof.
  induction s as [|c s IH]; [reflexivity|].
  cbn [str_encode]. now rewrite decode_encode_char, IH.
Qed.

Lemma scan_escape_char (c : ascii) (t : string) :
  Json.scan_string (Json.escape_char c +:+ t)
  = match Json.scan_string t with
    | Some (u, r) => Some (String c u, r)
    | None => None
    end.
Proof. each_char c; reflexivity. Qed.

Lemma scan_string_escape (s rest : string) :
  Json.scan_string (Json.escape s +:+ String quote rest) = Some (s, rest).
Proof.
  induction s as [|c s IH]; cbn [Json.escape].
  - reflexivity.
  - now rewrite append_assoc, scan_escape_char, IH.
Qed.

Lemma scan_digits_uint (u : Decimal.uint) (rest : string) :
  ends_number rest = true ->
  Json.scan_digits (NilEmpty.string_of_uint u +:+ rest)
  = (NilEmpty.string_of_uint u, rest).
Proof.
  intros Hr.
  induction u; cbn [NilEmpty.string_of_uint]; rewrite ?append_cons, ?append_nil_l;
    try (cbn [Json.scan_digits]; rewrite IHu; reflexivity).
  destruct rest as [|c rest']; [reflexivity|].
  cbn in Hr. apply andb_prop in Hr as [Hd _].
  apply negb_true_iff in Hd. cbn [Json.scan_digits]. now rewrite Hd.
Qed.

Lemma string_of_pos_uint (p : positive) :
  NilZero.string_of_uint (Pos.to_uint p) = NilEmpty.string_of_uint (Pos.to_uint p).
Proof.
  pose proof (DecimalPos.Unsigned.to_uint_nonnil p) as H.
  destruct (Pos.to_uint p); [contradiction | reflexivity ..].
Qed.

Lemma uint_string_head (u : Decimal.uint) (rest : string) :
  u <> Decimal.Nil ->
  exists c t, NilEmpty.string_of_uint u +:+ rest = String c t
              /\ Ascii.eqb c "-" = false.
Proof.
  intros Hnn.
  destruct u; [contradiction | ..]; cbn [NilEmpty.string_of_uint];
    rewrite append_cons; eexists _, _; split; reflexivity.
Qed.

Lemma ends_number_fraction (rest : string) :
  ends_number rest = true -> Json.starts_fraction rest = false.
Proof.
  destruct rest as [|c rest']; [reflexivity|]. unfold ends_number.
  intros H. apply andb_prop in H as [_ H]. now apply negb_true_iff in H.
Qed.

Lemma scan_natural_uint (u : Decimal.uint) (rest : string) :
  u <> Decimal.Nil ->
  ends_number rest = true ->
  str_of_Z (Z.of_uint u) = NilEmpty.string_of_uint u ->
  Json.scan_natural (NilEmpty.string_of_uint u +:+ rest) = Some (Z.of_uint u, rest).
Proof.
  intros Hnn Hr Hp. unfold Json.scan_natural.
  rewrite scan_digits_uint by assumption.
  assert (NilZero.uint_of_string (NilEmpty.string_of_uint u) = Some u) as ->.
  { destruct u; [contradiction | apply (NilEmpty.usu) ..]. }
  cbv zeta. now rewrite Hp, String.eqb_refl, (ends_number_fraction _ Hr).
Qed.

Lemma scan_natural_pos (p : positive) (rest : string) :
  ends_number rest = true ->
  Json.scan_natural (NilEmpty.string_of_uint (Pos.to_uint p) +:+ rest)
  = Some (Z.pos p, rest).
Proof.
  intros Hr.
  assert (Hv : Z.of_uint (Pos.to_uint p) = Z.pos p).
  { unfold Z.of_uint. now rewrite DecimalPos.Unsigned.of_to. }
  rewrite <- Hv. apply scan_natural_uint.
  - apply DecimalPos.Unsigned.to_uint_nonnil.
  - assumption.
  - rewrite Hv. unfold str_of_Z. cbn. apply string_of_pos_uint.
Qed.

Lemma scan_number_str_of_Z (n : Z) (rest : string) :
  ends_number rest = true ->
  Json.scan_number (str_of_Z n +:+ rest) = Some (n, rest).
Proof.
  intros Hr. destruct n as [|p|p].
  - change (str_of_Z 0) with (NilEmpty.string_of_uint (Decimal.D0 Decimal.Nil)).
    pose proof (scan_natural_uint (Decimal.D0 Decimal.Nil) rest) as H.
    cbn [NilEmpty.string_of_uint] in *. rewrite !append_cons, append_nil_l in *.
    unfold Json.scan_number. change (Ascii.eqb "0" "-") with false. cbv iota.
    apply H; [discriminate | assumption | reflexivity].
  - replace (str_of_Z (Z.pos p)) with (NilEmpty.string_of_uint (Pos.to_uint p))
      by (unfold str_of_Z; cbn; now rewrite string_of_pos_uint).
    destruct (uint_string_head (Pos.to_uint p) rest
                (DecimalPos.Unsigned.to_uint_nonnil p)) as (c & t & E & Hc).
    unfold Json.scan_number. rewrite E, Hc, <- E.
    now apply scan_natural_pos.
  - replace (str_of_Z (Z.neg p))
      with (String "-" (NilEmpty.string_of_uint (Pos.to_uint p)))
      by (unfold str_of_Z; cbn; now rewrite string_of_pos_uint).
    rewrite append_cons. unfold Json.scan_number.
    change (Ascii.eqb "-" "-") with true. cbv iota.
    now rewrite scan_natural_pos.
Qed.

Lemma str_of_Z_head (n : Z) (rest : string) :
  exists c t, str_of_Z n +:+ rest = String c t
              /\ Json.is_ws c = false
              /\ Ascii.eqb c quote = false
              /\ Ascii.eqb c "n" = false.
Proof.
  destruct n as [|p|p].
  - exists "0"%char, rest. repeat split; reflexivity.
  - replace (str_of_Z (Z.pos p)) with (NilEmpty.string_of_uint (Pos.to_uint p))
      by (unfold str_of_Z; cbn; now rewrite string_of_pos_uint).
    pose proof (DecimalPos.Unsigned.to_uint_nonnil p) as Hnn.
    destruct (Pos.to_uint p); [contradiction | ..]; cbn [NilEmpty.string_of_uint];
      rewrite append_cons; eexists _, _; repeat split; reflexivity.
  - replace (str_of_Z (Z.neg p))
      with (String "-" (NilEmpty.string_of_uint (Pos.to_uint p)))
      by (unfold str_of_Z; cbn; now rewrite string_of_pos_uint).
    rewrite append_cons. eexists _, _; repeat split; reflexivity.
Qed.

Lemma skip_ws_dumps_value (v : pyval) (sv tail : string) :
  Json.dumps_value v = Some sv ->
  Json.skip_ws (sv +:+ tail) = sv +:+ tail.
Proof.
  intros Hv. destruct v as [| n | s | d]; cbn in Hv; inversion Hv; subst; clear Hv.
  - reflexivity.
  - destruct (str_of_Z_head n tail) as (c & t & E & Hw & _).
    rewrite E. cbn [Json.skip_ws]. now rewrite Hw.
  - reflexivity.
Qed.

Lemma scan_value_dumps (v : pyval) (sv tail : string) :
  Json.dumps_value v = Some sv ->
  ends_number tail = true ->
  Json.scan_value (sv +:+ tail) = Some (v, tail).
Proof.
  intros Hv Ht. destruct v as [| n | s | d]; cbn in Hv; inversion Hv; subst; clear Hv.
  - reflexivity.
  - destruct (str_of_Z_head n tail) as (c & t & E & Hw & Hq & Hn).
    unfold Json.scan_value. rewrite E, Hq, Hn, <- E.
    now rewrite scan_number_str_of_Z.
  - unfold Json.dumps_str. rewrite !append_cons.
    unfold Json.scan_value. change (Ascii.eqb quote quote) with true. cbv iota.
    rewrite append_assoc, append_cons, append_nil_l.
    now rewrite scan_string_escape.
Qed.

Lemma scan_members_space (fuel : nat) (s : string) :
  Json.scan_members fuel (String " " s) = Json.scan_members fuel s.
Proof. destruct fuel; reflexivity. Qed.

Lemma skip_ws_space (s : string) : Json.skip_ws (String " " s) = Json.skip_ws s.
Proof. reflexivity. Qed.

(** One member at the front of the text: its key and value are read, and
    the scan goes on after the value. *)
Lemma scan_members_step (fuel : nat) (k : string) (v : pyval) (sv tail : string) :
  Json.dumps_value v = Some sv ->
  ends_number tail = true ->
  Json.scan_members (S fuel)
    (Json.dumps_str k +:+ String ":" (String " " (sv +:+ tail)))
  = match Json.skip_ws tail with
    | String "}"%char s5 => Some ([(k, v)], s5)
    | String ","%char s5 =>
        match Json.scan_members fuel s5 with
        | Some (d0, s6) => Some ((k, v) :: d0, s6)
        | None => None
        end
    | _ => None
    end.
Proof.
  intros Hv Ht. cbn [Json.scan_members]. unfold Json.dumps_str.
  rewrite !append_cons, !append_assoc, !append_cons, !append_nil_l.
  cbn [Json.skip_ws]. change (Json.is_ws quote) with false. cbv iota.
  change (Ascii.eqb quote quote) with true. cbv iota.
  rewrite scan_string_escape.
  cbn [Json.skip_ws]. change (Json.is_ws ":") with false. cbv iota.
  rewrite skip_ws_space, (skip_ws_dumps_value v) by assumption.
  now rewrite (scan_value_dumps v) by assumption.
Qed.

Lemma scan_members_dumps (d : pyobj) :
  forall (m rest : string) (fuel : nat),
    d <> [] ->
    Json.dumps_members d = Some m ->
    (length d <= fuel)%nat ->
    Json.scan_members fuel (m +:+ String "}" rest) = Some (d, rest).
Proof.
  induction d as [|[k v] d IH]; intros m rest fuel Hne Hm Hfuel; [contradiction|].
  destruct fuel as [|fuel]; [cbn in Hfuel; lia|].
  cbn [Json.dumps_members] in Hm.
  destruct (Json.dumps_value v) as [sv|] eqn:Hv; [|discriminate].
  destruct (Json.dumps_members d) as [sd|] eqn:Hd; [|discriminate].
  injection Hm as <-.
  destruct d as [|kv d'].
  - rewrite !append_assoc, !append_cons, !append_nil_l.
    rewrite (scan_members_step fuel k v sv (String "}" rest) Hv eq_refl).
    reflexivity.
  - rewrite !append_assoc, !append_cons, !append_nil_l.
    rewrite (scan_members_step fuel k v sv
               (String "," (String " " (sd +:+ String "}" rest))) Hv eq_refl).
    cbn [Json.skip_ws]. change (Json.is_ws ",") with false. cbv iota.
    rewrite scan_members_space.
    rewrite (IH sd rest fuel); [reflexivity | discriminate | reflexivity |].
    cbn in Hfuel |- *. lia.
Qed.

Lemma length_append (a b : string) :
  String.length (a +:+ b) = (String.length a + String.length b)%nat.
Proof.
  induction a as [|x a IH]; [reflexivity|].
  rewrite append_cons. cbn [String.length]. now rewrite IH.
Qed.

Lemma dumps_members_length (d : pyobj) :
  forall m, Json.dumps_members d = Some m -> (length d <= String.length m)%nat.
Proof.
  induction d as [|[k v] d IH]; intros m Hm; [cbn; lia|].
  cbn [Json.dumps_members] in Hm.
  destruct (Json.dumps_value v) as [sv|]; [|discriminate].
  destruct (Json.dumps_members d) as [sd|]; [|discriminate].
  injection Hm as <-. specialize (IH sd eq_refl).
  unfold Json.dumps_str. rewrite !length_append. cbn [String.length length].
  destruct d; rewrite ?length_append; cbn [String.length length] in *; lia.
Qed.

Lemma getattr_app_fresh (d : pyobj) (k k' : string) (v : pyval) :
  getattr d k' = None -> k <> k' -> getattr (d ++ [(k, v)]) k' = None.
Proof.
  intros Hd Hk. induction d as [|[a b] d IH]; cbn in *.
  - destruct (String.eqb_spec k k'); [contradiction | reflexivity].
  - destruct (String.eqb a k'); [discriminate | auto].
Qed.

Lemma dict_set_fresh (d : pyobj) (k : string) (v : pyval) :
  getattr d k = None -> Json.dict_set d k v = d ++ [(k, v)].
Proof.
  induction d as [|[a b] d IH]; cbn; [reflexivity|].
  destruct (String.eqb a k); [discriminate|].
  intros H. now rewrite IH.
Qed.

Lemma fold_dict_set (ms : pyobj) :
  forall acc,
    NoDup (map fst ms) ->
    (forall k, In k (map fst ms) -> getattr acc k = None) ->
    fold_left (fun d kv => Json.dict_set d (fst kv) (snd kv)) ms acc = acc ++ ms.
Proof.
  induction ms as [|[k v] ms IH]; intros acc Hnd Hfresh; cbn.
  - now rewrite app_nil_r.
  - inversion Hnd as [|? ? Hk Hnd']; subst.
    rewrite dict_set_fresh by (apply Hfresh; now left).
    rewrite IH; [now rewrite <- app_assoc | assumption |].
    intros k' Hin. apply getattr_app_fresh.
    + apply Hfresh. now right.
    + intros E. subst k'. apply Hk. now apply list_elem_of_In.
Qed.

Lemma dict_of_members_nodup (d : pyobj) :
  NoDup (map fst d) -> Json.dict_of_members d = d.
Proof.
  intros H. unfold Json.dict_of_members. now rewrite fold_dict_set.
Qed.

(** Decoding what [json.dumps] wrote gives the dictionary back. *)
Lemma loads_dumps (d : pyobj) (t : string) :
  NoDup (map fst d) ->
  Json.dumps d = Some t ->
  Json.loads t = Some (Json.JDict d).
Proof.
  intros Hnd Ht. unfold Json.dumps in Ht.
  destruct (Json.dumps_members d) as [m|] eqn:Hm; [|discriminate].
  injection Ht as <-. rewrite append_cons, append_nil_l.
  unfold Json.loads. cbn [Json.skip_ws]. change (Json.is_ws "{") with false.
  cbv iota.
  destruct d as [|[k v] d].
  - injection Hm as <-. reflexivity.
  - pose proof (scan_members_dumps ((k, v) :: d) m ""
                  (String.length (String "{" (m +:+ "}")))) as Hs.
    pose proof (dumps_members_length _ _ Hm) as Hl.
    rewrite Hs; [| discriminate | assumption |].
    2:{ cbn [String.length]. rewrite length_append. lia. }
    cbn [Json.dumps_members] in Hm.
    destruct (Json.dumps_value v) as [sv|]; [|discriminate].
    destruct (Json.dumps_members d) as [sd|]; [|discriminate].
    injection Hm as <-. unfold Json.dumps_str.
    rewrite !append_cons. cbn [Json.skip_ws].
    change (Json.is_ws quote) with false. cbv iota.
    let q := eval vm_compute in quote in change quote with q.
    cbv iota. now rewrite dict_of_members_nodup.
Qed.

(** ** Timestamps *)

Lemma read_digits_snoc (w : nat) :
  forall acc s,
    read_digits (S w) acc s
    = match read_digits w acc s with
      | Some (v, String c r) =>
          match digit_val c with
          | Some x => Some (10 * v + x, r)
          | None => None
          end
      | _ => None
      end.
Proof.
  induction w as [|w IH]; intros acc s.
  - cbn. destruct s as [|c r]; [reflexivity|]. now destruct (digit_val c).
  - cbn [read_digits] in *. destruct s as [|c r]; [reflexivity|].
    destruct (digit_val c) as [x|]; [|reflexivity].
    apply IH.
Qed.

Lemma digit_val_char (n : Z) :
  digit_val (digit_char n) = Some (n mod 10).
Proof.
  unfold digit_char.
  assert (H : 0 <= n mod 10 < 10) by (apply Z.mod_pos_bound; lia).
  destruct (n mod 10) as [|p|p]; [reflexivity | | lia].
  do 4 (destruct p as [p|p|]; try lia; try reflexivity).
Qed.

Lemma read_zero_pad (w : nat) :
  forall n acc rest,
    0 <= n < 10 ^ Z.of_nat w ->
    read_digits w acc (zero_pad w n +:+ rest) = Some (acc * 10 ^ Z.of_nat w + n, rest).
Proof.
  induction w as [|w IH]; intros n acc rest Hn.
  - cbn in *. f_equal. f_equal. lia.
  - rewrite read_digits_snoc. cbn [zero_pad]. rewrite append_assoc, append_cons, append_nil_l.
    rewrite Nat2Z.inj_succ, Z.pow_succ_r in Hn by lia.
    rewrite IH by (split; [apply Z.div_pos; lia | apply Z.div_lt_upper_bound; lia]).
    rewrite digit_val_char. f_equal. f_equal.
    rewrite Nat2Z.inj_succ, Z.pow_succ_r by lia.
    pose proof (Z.div_mod n 10 ltac:(lia)). lia.
Qed.

Lemma strptime_isoformat (d : datetime) :
  valid_datetime d = true -> strptime (isoformat d) = Some d.
Proof.
  intros Hv. pose proof Hv as Hv'. unfold valid_datetime in Hv'.
  repeat (apply andb_prop in Hv' as [Hv' ?]).
  assert (Hdim : days_in_month (year d) (month d) <= 31).
  { unfold days_in_month.
    repeat match goal with |- context [if ?b then _ else _] => destruct b end; lia. }
  unfold strptime, isoformat, isoformat_sep.
  rewrite !append_cons, !append_nil_l.
  rewrite (read_zero_pad 4) by (cbn; lia).
  cbn [read_char]. change (Ascii.eqb "-" "-") with true. cbv iota.
  rewrite (read_zero_pad 2) by (cbn; lia).
  cbn [read_char]. change (Ascii.eqb "-" "-") with true. cbv iota.
  rewrite (read_zero_pad 2) by (cbn; lia).
  cbn [read_char]. change (Ascii.eqb "T" "T") with true. cbv iota.
  rewrite (read_zero_pad 2) by (cbn; lia).
  cbn [read_char]. change (Ascii.eqb ":" ":") with true. cbv iota.
  rewrite (read_zero_pad 2) by (cbn; lia).
  cbn [read_char]. change (Ascii.eqb ":" ":") with true. cbv iota.
  rewrite <- (append_nil_r (zero_pad 2 (second d))).
  rewrite (read_zero_pad 2) by (cbn; lia).
  cbn [Z.mul]. rewrite !Z.add_0_l. cbv zeta.
  destruct d; cbn in *. now rewrite Hv.
Qed.

(** ** The program monad *)

Lemma bind_ok {A B} (m : M A) (k : A -> M B) (w w' : World) (a : A) :
  m w = (Ok a, w') -> bind m k w = k a w'.
Proof. intros H. unfold bind. now rewrite H. Qed.

Lemma bind_exited {A B} (m : M A) (k : A -> M B) (w w' : World) (c : Z) :
  m w = (Exited c, w') -> bind m k w = (Exited c, w').
Proof. intros H. unfold bind. now rewrite H. Qed.

Lemma bind_raised {A B} (m : M A) (k : A -> M B) (w w' : World) (e : exn) :
  m w = (Raised e, w') -> bind m k w = (Raised e, w').
Proof. intros H. unfold bind. now rewrite H. Qed.

Lemma try_except_ok {A} (m : M A) (h : exn -> M A) (w w' : World) (a : A) :
  m w = (Ok a, w') -> try_except m h w = (Ok a, w').
Proof. intros H. unfold try_except. now rewrite H. Qed.

Lemma try_except_raised {A} (m : M A) (h : exn -> M A) (w w' : World) (e : exn) :
  m w = (Raised e, w') -> try_except m h w = h e w'.
Proof. intros H. unfold try_except. now rewrite H. Qed.

Lemma print_eq (s : string) (w : World) : print s w = (Ok tt, printed w s).
Proof. reflexivity. Qed.

Lemma getattr_default_some (o : pyobj) (name : string) (d v : pyval) :
  getattr o name = Some v -> getattr_default o name d = v.
Proof. intros H. unfold getattr_default. now rewrite H. Qed.

Lemma getattr_default_none (o : pyobj) (name : string) (d : pyval) :
  getattr o name = None -> getattr_default o name d = d.
Proof. intros H. unfold getattr_default. now rewrite H. Qed.

Lemma getattr_strict_some (o : pyobj) (name : string) (v : pyval) (w : World) :
  getattr o name = Some v -> getattr_strict o name w = (Ok v, w).
Proof. intros H. unfold getattr_strict. now rewrite H. Qed.

(** ** The skip rule and the exclusion rule *)

(** C8.  For an entry whose size is zero or absent, [copy_dropbox_file]
    prints the skip message and returns normally; standard output apart,
    the world is the one it started in: no directory is made, nothing is
    downloaded, no time is set. *)
Theorem copy_skips_empty
    (sys : Platform) (args : Args) (entry : pyobj) (dbx : Dropbox)
    (w : World) (p : string) :
  getattr entry "size" = None \/ getattr entry "size" = Some (PInt 0) ->
  getattr entry "path_display" = Some (PStr p) ->
  copy_dropbox_file sys args entry dbx w
  = (Ok args, printed w ("empty file or directory skipping " +:+ p)).
Proof.
  intros Hsize Hp. unfold copy_dropbox_file.
  assert (truthy (getattr_default entry "size" PNone) = false) as ->.
  { destruct Hsize as [H|H].
    - now rewrite (getattr_default_none _ _ _ H).
    - now rewrite (getattr_default_some _ _ _ _ H). }
  cbn [negb]. cbv iota.
  now rewrite (bind_ok _ _ _ _ _ (getattr_strict_some _ _ _ w Hp)).
Qed.

(** C7, as the code has it.  An entry whose path starts with an exclusion
    prefix is passed over by [ls] and by [copy_dropbox_file], and both
    return normally.  [ls] prints the exclusion notice and leaves the queue
    handle as it was, so nothing is serialized or pushed.
    [copy_dropbox_file] prints one line, the exclusion notice when the size
    is non-zero and the skip message when it is zero or absent, and changes
    nothing else: no directory is made and nothing is downloaded. *)
Theorem excluded_entry_is_skipped
    (sizeof_fmt : Z -> string) (sys : Platform) (args : Args)
    (queue : option FifoDiskQueue) (entry : pyobj) (dbx : Dropbox)
    (w : World) (p : string) :
  getattr entry "path_display" = Some (PStr p) ->
  any_startswith p (excludePaths args) = true ->
  ls_entry sizeof_fmt args queue entry w
  = (Ok queue, printed w ("Excluding " +:+ p))
  /\ copy_dropbox_file sys args entry dbx w
     = (Ok args, printed w (skip_line entry p)).
Proof.
  intros Hp Hex. split.
  - unfold ls_entry.
    rewrite (bind_ok _ _ _ _ _ (getattr_strict_some _ _ _ w Hp)).
    cbn [startswith_method]. unfold bind at 1, ret at 1.
    now rewrite Hex.
  - unfold copy_dropbox_file, skip_line.
    destruct (truthy (getattr_default entry "size" PNone)); cbn [negb]; cbv iota;
      rewrite (bind_ok _ _ _ _ _ (getattr_strict_some _ _ _ w Hp)).
    + cbn [startswith_method]. unfold bind at 1, ret at 1. now rewrite Hex.
    + reflexivity.
Qed.

(** C10.  Without a queue name [peek] returns at once: no queue is opened,
    nothing is printed, and the world is unchanged. *)
Theorem peek_without_name_is_noop (fuel : nat) (args : Args) (w : World) :
  opt_truthy (queueName args) = false ->
  peek fuel args w = (Ok tt, w).
Proof. intros H. unfold peek. now rewrite H. Qed.

(** ** What [ls] pushes *)

Lemma dumps_work_item (p : string) (n : Z) (sm cm : string) :
  Json.dumps (FakeFile_dict (PStr p) (PInt n) (PStr sm) (PStr cm))
  = Some (work_item_text p n sm cm).
Proof.
  unfold Json.dumps, FakeFile_dict, work_item_text. cbn.
  now rewrite ?append_assoc, ?append_cons, ?append_nil_l.
Qed.

Lemma ls_entry_listed (sizeof_fmt : Z -> string) (args : Args)
    (queue : option FifoDiskQueue) (entry : pyobj) (w : World) (p : string) :
  getattr entry "path_display" = Some (PStr p) ->
  any_startswith p (excludePaths args) = false ->
  getattr entry "size" = None ->
  ls_entry sizeof_fmt args queue entry w
  = (Ok queue, printed w (listing_line sizeof_fmt entry)).
Proof.
  intros Hp Hex Hs. unfold ls_entry.
  rewrite (bind_ok _ _ _ _ _ (getattr_strict_some _ _ _ w Hp)).
  cbn [startswith_method]. unfold bind at 1, ret at 1. rewrite Hex.
  rewrite (getattr_default_none _ _ (PInt 0) Hs).
  rewrite (getattr_default_none _ _ PNone Hs).
  unfold listing_line. rewrite Hs.
  destruct queue; reflexivity.
Qed.

Lemma ls_entry_pushed (sizeof_fmt : Z -> string) (args : Args)
    (q : FifoDiskQueue) (entry : pyobj) (w : World) (p : string)
    (n : Z) (sm cm : datetime) :
  getattr entry "path_display" = Some (PStr p) ->
  any_startswith p (excludePaths args) = false ->
  getattr entry "size" = Some (PInt n) ->
  getattr entry "server_modified" = Some (PDatetime sm) ->
  getattr entry "client_modified" = Some (PDatetime cm) ->
  ls_entry sizeof_fmt args (Some q) entry w
  = (Ok (Some (queue_push q (work_item_blob p n (isoformat sm) (isoformat cm)))),
     printed w (listing_line sizeof_fmt entry)).
Proof.
  intros Hp Hex Hs Hsm Hcm. unfold ls_entry.
  rewrite (bind_ok _ _ _ _ _ (getattr_strict_some _ _ _ w Hp)).
  cbn [startswith_method]. unfold bind at 1, ret at 1. rewrite Hex.
  rewrite (getattr_default_some _ _ (PInt 0) _ Hs).
  rewrite (getattr_default_some _ _ PNone _ Hs).
  unfold listing_line. rewrite Hs.
  cbn [sizeof_fmt_call is_not_None]. unfold bind at 1, ret at 1.
  rewrite (bind_ok _ _ _ _ _ (print_eq _ _)).
  rewrite (bind_ok _ _ _ _ _ (getattr_strict_some _ _ _ _ Hp)).
  rewrite (bind_ok _ _ _ _ _ (getattr_strict_some _ _ _ _ Hs)).
  rewrite (bind_ok _ _ _ _ _ (getattr_strict_some _ _ _ _ Hsm)).
  cbn [json_serial]. unfold bind at 1, ret at 1.
  rewrite (bind_ok _ _ _ _ _ (getattr_strict_some _ _ _ _ Hcm)).
  cbn [json_serial]. unfold bind at 1, ret at 1.
  unfold json_dumps. rewrite dumps_work_item. reflexivity.
Qed.

Lemma ls_entry_push_only_if (sizeof_fmt : Z -> string) (args : Args)
    (q : FifoDiskQueue) (entry : pyobj) (w w' : World)
    (q' : option FifoDiskQueue) :
  ls_entry sizeof_fmt args (Some q) entry w = (Ok q', w') ->
  q' <> Some q ->
  exists v p, getattr entry "size" = Some v /\ is_not_None v = true
              /\ getattr entry "path_display" = Some (PStr p)
              /\ any_startswith p (excludePaths args) = false.
Proof.
  unfold ls_entry, getattr_strict, getattr_default.
  destruct (getattr entry "path_display") as [[| |p|]|] eqn:Hp;
    try (cbn; discriminate).
  unfold bind at 1, ret at 1. cbn [startswith_method].
  unfold bind at 1, ret at 1.
  destruct (any_startswith p (excludePaths args)) eqn:Hex.
  - cbn. intros [= <- <-] Hne. now contradiction Hne.
  - destruct (getattr entry "size") as [v|] eqn:Hs.
    + destruct v as [|n|s|d]; try (cbn; discriminate).
      intros _ _. exists (PInt n), p. repeat split; auto.
    + cbn. intros [= <- <-] Hne. now contradiction Hne.
Qed.

(** ** The transfer *)

Lemma dest_path_normalized (args : Args) : dest_path (normalized args) = dest_path args.
Proof. unfold normalized. now destruct (String.eqb (src_path args) "/"). Qed.

(** [copy_dropbox_file] on an entry that passes the skip rule and the
    exclusion rule: the three guarded steps in sequence. *)
Lemma copy_dropbox_file_steps
    (sys : Platform) (args : Args) (entry : pyobj) (dbx : Dropbox)
    (w : World) (p : string) :
  truthy (getattr_default entry "size" PNone) = true ->
  getattr entry "path_display" = Some (PStr p) ->
  any_startswith p (excludePaths args) = false ->
  copy_dropbox_file sys args entry dbx w
  = (try_except (make_local_dir (dirname (dest_path args +:+ p))) (print_and_exit) ;;
     print ("Downloading " +:+ p +:+ " to " +:+ dest_path args +:+ p) ;;
     try_except (files_download_to_file dbx p (dest_path args +:+ p)) (print_and_exit) ;;
     try_except (set_times sys entry (dest_path args +:+ p)) (print_and_exit) ;;
     ret (normalized args)) w.
Proof.
  intros Hs Hp Hex. unfold copy_dropbox_file. rewrite Hs. cbn [negb]. cbv iota.
  rewrite (bind_ok _ _ _ _ _ (getattr_strict_some _ _ _ w Hp)).
  cbn [startswith_method]. unfold bind at 1, ret at 1. rewrite Hex.
  fold (normalized args). now rewrite dest_path_normalized.
Qed.

Lemma print_and_exit_eq {A} (err : exn) (w : World) :
  @print_and_exit A err w = (Exited 1, printed w (exn_msg err)).
Proof. reflexivity. Qed.

(** A download that returned has written the file. *)
Lemma download_writes (dbx : Dropbox) (src dest : string) (w w' : World) :
  files_download_to_file dbx src dest w = (Ok tt, w') ->
  exists body, files_download dbx src = inr body
               /\ w' = set_files w (<[dest := mk_stat body None]> (files w)).
Proof.
  unfold files_download_to_file, bind, lift, write_file.
  destruct (files_download dbx src) as [e|body]; [discriminate|].
  unfold ret. intros H. exists body. split; [reflexivity|].
  destruct (bool_decide (dest ∈ dirs w) || is_root dest); [discriminate|].
  destruct (String.eqb dest ""); [discriminate|].
  destruct (is_dir w (dirname dest)); [|discriminate].
  now injection H.
Qed.

Lemma set_times_forms (sys : Platform) (entry : pyobj) (dest : string)
    (w : World) (vs vc : pyval) (sm cm : datetime) (ta tm : Z) :
  getattr entry "server_modified" = Some vs -> timestamp_form sm vs ->
  getattr entry "client_modified" = Some vc -> timestamp_form cm vc ->
  timestamp sys sm = inr ta -> timestamp sys cm = inr tm ->
  set_times sys entry dest w = utime dest (ta, tm) w.
Proof.
  intros Hvs Fs Hvc Fc Ha Hm. unfold set_times.
  rewrite (bind_ok _ _ _ _ _ (getattr_strict_some _ _ _ w Hvs)).
  rewrite (bind_ok _ _ _ _ _ (getattr_strict_some _ _ _ w Hvc)).
  assert (Hs : forall d v, timestamp_form d v ->
             (match v with PStr s => strptime_call s | v0 => ret v0 end) w
             = (Ok (PDatetime d), w)).
  { intros d v [|Hv]; [reflexivity|].
    unfold strptime_call. now rewrite strptime_isoformat. }
  rewrite (bind_ok _ _ _ _ _ (Hs _ _ Fs)).
  rewrite (bind_ok _ _ _ _ _ (Hs _ _ Fc)).
  cbn [timestamp_call]. rewrite Ha, Hm. reflexivity.
Qed.

(** *** Steps that leave the persisted queues alone *)

Lemma keeps_disk_ret {A} (a : A) : keeps_disk (ret a).
Proof. intros w. reflexivity. Qed.

Lemma keeps_disk_print (s : string) : keeps_disk (print s).
Proof. intros w. reflexivity. Qed.

Lemma keeps_disk_raise {A} (t : exn_kind) (s : string) : keeps_disk (@raise A t s).
Proof. intros w. reflexivity. Qed.

Lemma keeps_disk_lift {A} (x : exn + A) : keeps_disk (lift x).
Proof. intros w. destruct x; reflexivity. Qed.

Lemma keeps_disk_bind {A B} (m : M A) (k : A -> M B) :
  keeps_disk m -> (forall a, keeps_disk (k a)) -> keeps_disk (bind m k).
Proof.
  intros Hm Hk w. unfold bind. specialize (Hm w).
  destruct (m w) as [[a|e|c|] w']; cbn in *; try assumption.
  now rewrite Hk.
Qed.

Lemma keeps_disk_try {A} (m : M A) (h : exn -> M A) :
  keeps_disk m -> (forall e, keeps_disk (h e)) -> keeps_disk (try_except m h).
Proof.
  intros Hm Hh w. unfold try_except. specialize (Hm w).
  destruct (m w) as [[a|e|c|] w']; cbn in *; try assumption.
  now rewrite Hh.
Qed.

Lemma keeps_disk_exit {A} (e : exn) : keeps_disk (@print_and_exit A e).
Proof. intros w. reflexivity. Qed.

Lemma keeps_disk_mkdir (p : string) : keeps_disk (mkdir p).
Proof.
  intros w. unfold mkdir.
  repeat match goal with |- context [if ?b then _ else _] => destruct b end;
    reflexivity.
Qed.

Lemma keeps_disk_makedirs_rec (fuel : nat) :
  forall p, keeps_disk (makedirs_rec fuel p).
Proof.
  induction fuel as [|fuel IH]; intros p w; [reflexivity|].
  cbn [makedirs_rec].
  destruct (path_split p) as [head tail].
  destruct (if String.eqb tail "" then path_split head else (head, tail))
    as [head' tail'].
  destruct (negb (String.eqb head' "") && negb (String.eqb tail' "")
            && negb (path_exists w head')).
  - apply keeps_disk_bind.
    + apply keeps_disk_try; [apply IH|].
      intros e. destruct (exn_type e); try (intros w0; reflexivity).
    + intros _. destruct (String.eqb tail' ".");
        [apply keeps_disk_ret | apply keeps_disk_mkdir].
  - apply keeps_disk_mkdir.
Qed.

Lemma keeps_disk_make_local_dir (d : string) : keeps_disk (make_local_dir d).
Proof.
  intros w. unfold make_local_dir. destruct (negb (path_exists w d)).
  - apply keeps_disk_bind; [apply keeps_disk_print|].
    intros _. apply keeps_disk_makedirs_rec.
  - reflexivity.
Qed.

Lemma keeps_disk_download (dbx : Dropbox) (src dest : string) :
  keeps_disk (files_download_to_file dbx src dest).
Proof.
  apply keeps_disk_bind; [apply keeps_disk_lift|].
  intros body w. unfold write_file.
  repeat match goal with |- context [if ?b then _ else _] => destruct b end;
    reflexivity.
Qed.

Lemma keeps_disk_utime (p : string) (t : Z * Z) : keeps_disk (utime p t).
Proof.
  intros w. unfold utime. destruct (files w !! p); [reflexivity|].
  now destruct (bool_decide (p ∈ dirs w) || is_root p).
Qed.

Lemma keeps_disk_set_times (sys : Platform) (entry : pyobj) (dest : string) :
  keeps_disk (set_times sys entry dest).
Proof.
  unfold set_times, getattr_strict, strptime_call, timestamp_call.
  repeat (apply keeps_disk_bind; [|intros ?]);
    repeat match goal with
      | |- keeps_disk (match ?x with _ => _ end) => destruct x
      end;
    auto using keeps_disk_ret, keeps_disk_raise, keeps_disk_lift, keeps_disk_utime.
Qed.

(** [copy_dropbox_file] never touches a persisted queue. *)
Lemma keeps_disk_copy (sys : Platform) (args : Args) (entry : pyobj) (dbx : Dropbox) :
  keeps_disk (copy_dropbox_file sys args entry dbx).
Proof.
  unfold copy_dropbox_file, getattr_strict, startswith_method.
  destruct (negb (truthy (getattr_default entry "size" PNone)));
    destruct (getattr entry "path_display") as [[| |p|]|];
    repeat first
      [ apply keeps_disk_ret | apply keeps_disk_raise | apply keeps_disk_print
      | apply keeps_disk_exit | apply keeps_disk_make_local_dir
      | apply keeps_disk_download | apply keeps_disk_set_times
      | apply keeps_disk_try; [|intros ?]
      | apply keeps_disk_bind; [|intros ?]
      | match goal with
        | |- keeps_disk (if ?b then _ else _) => destruct b
        | |- keeps_disk (match ?x with _ => _ end) => destruct x
        end ].
Qed.

(** *** Failures *)

Lemma open_then_pop (name blob : string) (rest : list string) (w : World) :
  disk w !! name = Some (blob :: rest) ->
  (q <- get_queue name ;; queue_pop q) w
  = (Ok (Some blob, mk_queue name []), popped w name rest).
Proof.
  intros H. unfold bind, get_queue, queue_open, queue_pop, stored. cbn.
  rewrite H. cbn. rewrite lookup_insert_eq. cbn.
  unfold popped, set_disk. cbn. now rewrite insert_insert_eq.
Qed.

Lemma for_each_app {A S} (pre l : list A) (s : S) (body : S -> A -> M S) (w : World) :
  for_each (pre ++ l) s body w
  = (s' <- for_each pre s body ;; for_each l s' body) w.
Proof.
  revert s w. induction pre as [|x pre IH]; intros s w; cbn [app for_each].
  - reflexivity.
  - unfold bind. destruct (body s x w) as [[s'|e|c|] w']; try reflexivity.
    rewrite IH. reflexivity.
Qed.

Lemma transfer_failure_exits
    (sys : Platform) (args : Args) (entry : pyobj) (dbx : Dropbox)
    (w : World) (p : string) (err : exn) (wf : World) :
  truthy (getattr_default entry "size" PNone) = true ->
  getattr entry "path_display" = Some (PStr p) ->
  any_startswith p (excludePaths args) = false ->
  transfer_failure sys args entry dbx p w err wf ->
  copy_dropbox_file sys args entry dbx w = (Exited 1, printed wf (exn_msg err))
  /\ disk wf = disk w.
Proof.
  intros Hs Hp Hex Hf.
  rewrite (copy_dropbox_file_steps _ _ _ _ _ _ Hs Hp Hex).
  destruct Hf as [err wf Hd | err w1 wf Hd Hl | err w1 w2 wf Hd Hl Ht].
  - split.
    + apply bind_exited. rewrite (try_except_raised _ _ _ _ _ Hd).
      apply print_and_exit_eq.
    + pose proof (keeps_disk_make_local_dir (dirname (dest_path args +:+ p)) w) as K. now rewrite Hd in K.
  - split.
    + rewrite (bind_ok _ _ _ _ _ (try_except_ok _ _ _ _ _ Hd)).
      rewrite (bind_ok _ _ _ _ _ (print_eq _ _)).
      apply bind_exited. rewrite (try_except_raised _ _ _ _ _ Hl).
      apply print_and_exit_eq.
    + pose proof (keeps_disk_make_local_dir (dirname (dest_path args +:+ p)) w) as K. rewrite Hd in K.
      pose proof (keeps_disk_download dbx p (dest_path args +:+ p)
                    (printed w1 ("Downloading " +:+ p +:+ " to " +:+ dest_path args +:+ p)))
        as K'.
      rewrite Hl in K'. cbn in K, K'. congruence.
  - split.
    + rewrite (bind_ok _ _ _ _ _ (try_except_ok _ _ _ _ _ Hd)).
      rewrite (bind_ok _ _ _ _ _ (print_eq _ _)).
      rewrite (bind_ok _ _ _ _ _ (try_except_ok _ _ _ _ _ Hl)).
      apply bind_exited. rewrite (try_except_raised _ _ _ _ _ Ht).
      apply print_and_exit_eq.
    + pose proof (keeps_disk_make_local_dir (dirname (dest_path args +:+ p)) w) as K. rewrite Hd in K.
      pose proof (keeps_disk_download dbx p (dest_path args +:+ p)
                    (printed w1 ("Downloading " +:+ p +:+ " to " +:+ dest_path args +:+ p)))
        as K'.
      rewrite Hl in K'.
      pose proof (keeps_disk_set_times sys entry (dest_path args +:+ p) w2) as K''.
      rewrite Ht in K''. cbn in K, K', K''. congruence.
Qed.

(** C6.  When making the local directory, the download, or reading and
    applying the times fails for an entry, [copy_dropbox_file] prints the
    error and leaves through [sys.exit(1)], and the run ends there with
    exit status 1: in direct mode the entries after it in the listing are
    not visited, and in queue mode no further item is popped, so what was
    queued behind it is still queued. *)
Theorem transfer_failure_aborts_run
    (sys : Platform) (args : Args) (entry : pyobj) (dbx : Dropbox)
    (w : World) (p : string) (err : exn) (wf : World) :
  truthy (getattr_default entry "size" PNone) = true ->
  getattr entry "path_display" = Some (PStr p) ->
  any_startswith p (excludePaths args) = false ->
  transfer_failure sys args entry dbx p w err wf ->
  let aborted := (@Exited unit 1, printed wf (exn_msg err)) in
  exit_status (fst aborted) = Some 1
  /\ (forall (fuel : nat) (args0 : Args) (w0 : World) (page : ListFolderResult)
             (before after : list pyobj),
        files_list_folder dbx (src_path args0) (r args0) = inr page ->
        entries page = before ++ entry :: after ->
        for_each before args0 (fun a e => copy_dropbox_file sys a e dbx) w0
        = (Ok args, w) ->
        get_direct sys (S fuel) args0 dbx w0 = aborted)
  /\ (forall (fuel : nat) (w0 : World) (name blob : string) (rest : list string),
        pullFilesFromQueue args = Some name ->
        disk w0 !! name = Some (blob :: rest) ->
        blob <> "" ->
        w = popped w0 name rest ->
        parse_work_item blob w = (Ok entry, w) ->
        get_from_queue sys (S fuel) args dbx w0 = aborted
        /\ disk (snd aborted) !! name = Some rest).
Proof.
  intros Hs Hp Hex Hf aborted.
  destruct (transfer_failure_exits _ _ _ _ _ _ _ _ Hs Hp Hex Hf) as [Hc Hdisk].
  split; [reflexivity|]. split.
  - intros fuel args0 w0 page before after Hpage Hent Hbefore.
    cbn [get_direct]. rewrite Hpage. cbn [lift]. unfold bind at 1, ret at 1.
    apply bind_exited. rewrite Hent, for_each_app.
    rewrite (bind_ok _ _ _ _ _ Hbefore). cbn [for_each].
    now apply bind_exited.
  - intros fuel w0 name blob rest Hname Hq Hblob Hw Hparse. split.
    + cbn [get_from_queue]. rewrite Hname. cbn [opt_str].
      pose proof (open_then_pop name blob rest w0 Hq) as Hpop.
      unfold bind at 1 in Hpop. unfold bind at 1.
      destruct (get_queue name w0) as [[q| | |] w0'] eqn:Hopen; try discriminate.
      rewrite (bind_ok _ _ _ _ _ Hpop). cbn [fst snd].
      apply String.eqb_neq in Hblob. rewrite Hblob. rewrite <- Hw.
      rewrite (bind_ok _ _ _ _ _ Hparse).
      now apply bind_exited.
    + cbn. rewrite Hdisk, Hw. cbn. apply lookup_insert_eq.
Qed.

(** ** Draining a queue *)

Lemma str_encode_nonempty (t : string) :
  t <> "" -> String.eqb (str_encode t) "" = false.
Proof.
  destruct t as [|c t]; [congruence|]. intros _. cbn [str_encode].
  unfold utf8_encode_char. destruct (N_of_ascii c <? 128)%N; reflexivity.
Qed.

Lemma world_eta (w : World) :
  mk_world (stdout w) (disk w) (FakeFileList_entries w) (dirs w) (files w) = w.
Proof. now destruct w. Qed.

Lemma queue_pop_head (q : FifoDiskQueue) (w : World) (x : string) (rest : list string) :
  stored w (q_name q) = x :: rest ->
  queue_pop q w = (Ok (Some x, q), popped w (q_name q) rest).
Proof. intros H. unfold queue_pop. now rewrite H. Qed.

Lemma queue_pop_none (q : FifoDiskQueue) (w : World) :
  stored w (q_name q) = [] -> q_buffer q = [] ->
  queue_pop q w = (Ok (None, q), w).
Proof. intros H Hb. unfold queue_pop. now rewrite H, Hb. Qed.

Lemma stored_lookup (w : World) (name : string) (l : list string) :
  disk w !! name = Some l -> stored w name = l.
Proof. intros H. unfold stored. now rewrite H. Qed.

Lemma drain_loop (texts : list string) :
  forall (fuel : nat) (result : FakeFileList) (q : FifoDiskQueue) (w : World),
    q_buffer q = [] ->
    disk w !! q_name q = Some (map str_encode texts) ->
    Forall (fun t => t <> "") texts ->
    (length texts < fuel)%nat ->
    get_files_in_queue_loop fuel result q w
    = (Ok (result, q), drained w (q_name q) texts).
Proof.
  induction texts as [|t ts IH]; intros fuel result q w Hbuf Hdisk Hne Hfuel;
    (destruct fuel as [|fuel]; [cbn in Hfuel; lia|]); cbn [get_files_in_queue_loop].
  - rewrite (bind_ok _ _ _ _ _ (queue_pop_none q w (stored_lookup _ _ _ Hdisk) Hbuf)).
    cbn [fst snd]. unfold ret, drained, set_FakeFileList_entries, set_disk. cbn.
    rewrite (insert_id _ _ _ Hdisk), app_nil_r. now rewrite world_eta.
  - inversion Hne as [|? ? Ht Hts]; subst.
    rewrite (bind_ok _ _ _ _ _
               (queue_pop_head q w _ _ (stored_lookup _ _ _ Hdisk))).
    cbn [fst snd]. rewrite (str_encode_nonempty _ Ht).
    unfold decode. rewrite bytes_decode_encode.
    unfold bind at 1, ret at 1. unfold bind at 1, FakeFileList_append at 1.
    rewrite IH; try assumption.
    + f_equal. unfold drained, popped, set_FakeFileList_entries, set_disk. cbn.
      now rewrite insert_insert_eq, <- app_assoc.
    + cbn. apply lookup_insert_eq.
    + cbn in Hfuel. lia.
Qed.

Lemma item_keys_nodup (a b c d : pyval) : NoDup (map fst (FakeFile_dict a b c d)).
Proof.
  cbn. repeat (apply NoDup_cons; split; [|]);
    try apply NoDup_nil_2;
    rewrite ?elem_of_cons, ?elem_of_nil; intuition discriminate.
Qed.

Lemma loads_item_text (it : WorkItem) :
  Json.loads (item_text it) = Some (Json.JDict (item_dict it)).
Proof.
  apply loads_dumps; [apply item_keys_nodup | apply dumps_work_item].
Qed.

Lemma item_text_nonempty (it : WorkItem) : item_text it <> "".
Proof. unfold item_text, work_item_text. now rewrite append_cons. Qed.

(** The printing loop of [peek] over the decoded texts of Work Items. *)
Lemma peek_prints (items : list WorkItem) :
  forall w,
    for_each (map item_text items) tt
      (fun _ file =>
         v <- json_loads file ;;
         p <- subscript v "path_display" ;;
         print (py_str p)) w
    = (Ok tt, set_stdout w (stdout w ++ map wi_path items)).
Proof.
  induction items as [|it items IH]; intros w; cbn [map for_each].
  - unfold ret, set_stdout. now rewrite app_nil_r, world_eta.
  - unfold bind at 1. unfold json_loads, bind at 1.
    rewrite loads_item_text. cbn. rewrite IH. cbn.
    unfold set_stdout. cbn. now rewrite <- app_assoc.
Qed.

Lemma qlib_pop_cons (name x : string) (rest : list string) (w : World) :
  Queuelib.queue_pop (Queuelib.mk_queue name (x :: rest)) w
  = (Ok (Some x, Queuelib.mk_queue name rest), w).
Proof. reflexivity. Qed.

Lemma qlib_pop_nil (name : string) (w : World) :
  Queuelib.queue_pop (Queuelib.mk_queue name []) w
  = (Ok (None, Queuelib.mk_queue name []), w).
Proof. reflexivity. Qed.

Lemma qlib_drain_loop (texts : list string) :
  forall (fuel : nat) (name : string) (w : World),
    Forall (fun t => t <> "") texts ->
    (length texts < fuel)%nat ->
    Queuelib.get_files_in_queue_loop fuel FakeFileList_new
      (Queuelib.mk_queue name (map str_encode texts)) w
    = (Ok (FakeFileList_new, Queuelib.mk_queue name []),
       set_FakeFileList_entries w (FakeFileList_entries w ++ texts)).
Proof.
  induction texts as [|t texts IH]; intros fuel name w Hne Hfuel;
    (destruct fuel as [|fuel]; [cbn in Hfuel; lia|]);
    cbn [Queuelib.get_files_in_queue_loop map].
  - rewrite (bind_ok _ _ _ _ _ (qlib_pop_nil _ _)). cbn [fst snd].
    unfold ret, set_FakeFileList_entries. now rewrite app_nil_r, world_eta.
  - apply Forall_cons_1 in Hne as [Ht Hne].
    rewrite (bind_ok _ _ _ _ _ (qlib_pop_cons _ _ _ _)). cbn [fst snd].
    rewrite (str_encode_nonempty _ Ht).
    unfold decode. rewrite bytes_decode_encode.
    unfold bind at 1, ret at 1. unfold bind at 1, FakeFileList_append at 1.
    rewrite IH by (try assumption; cbn in Hfuel; lia).
    unfold set_FakeFileList_entries. cbn. now rewrite <- app_assoc.
Qed.

Lemma qlib_files_name (fuel : nat) :
  forall (q : Queuelib.FifoDiskQueue) (w : World) (r : FakeFileList * Queuelib.FifoDiskQueue),
    fst (Queuelib.get_files_in_queue_loop fuel FakeFileList_new q w) = Ok r ->
    Queuelib.q_name (snd r) = Queuelib.q_name q.
Proof.
  induction fuel as [|fuel IH]; intros q w r; cbn [Queuelib.get_files_in_queue_loop];
    [discriminate|].
  unfold bind at 1, Queuelib.queue_pop at 1.
  destruct (Queuelib.q_items q) as [|x rest]; unfold ret at 1; cbn [fst snd].
  - now intros [= <-].
  - destruct (String.eqb x ""); [now intros [= <-]|].
    unfold decode. destruct (bytes_decode x); [|discriminate].
    unfold bind at 1, ret at 1. unfold bind at 1, FakeFileList_append at 1.
    intros H. now rewrite (IH _ _ _ H).
Qed.

(** C3.  On a queue holding [n] Work Items, in a process that has not
    read a queue before, [peek] pops until the handle has none left and
    prints the [n] paths in queue order; for an empty queue it prints
    [queue not found] instead.  The flag decides what becomes of the
    queue: with [flush] the handle is closed and the queue is left empty,
    without it no pop is committed and the queue holds its [n] items as
    before. *)
Theorem peek_prints_and_commits_on_flush
    (fuel : nat) (args : Args) (name : string) (items : list WorkItem) (w : World) :
  queueName args = Some name ->
  name <> "" ->
  stored w name = map item_blob items ->
  FakeFileList_entries w = [] ->
  (length items < fuel)%nat ->
  fst (Queuelib.peek fuel args w) = Ok tt
  /\ stdout (snd (Queuelib.peek fuel args w))
     = stdout w ++ (if Nat.eqb (length items) 0 then ["queue not found"]
                    else map wi_path items)
  /\ FakeFileList_entries (snd (Queuelib.peek fuel args w)) = map item_text items
  /\ stored (snd (Queuelib.peek fuel args w)) name
     = (if flush args then [] else map item_blob items).
Proof.
  intros Hname Hne Hst Hent Hfuel.
  assert (E : Queuelib.peek fuel args w
              = (Ok tt,
                 mk_world
                   (stdout w ++ (if Nat.eqb (length items) 0 then ["queue not found"]
                                 else map wi_path items))
                   (if flush args then delete name (disk w)
                    else <[name := map item_blob items]> (disk w))
                   (map item_text items) (dirs w) (files w))).
  { unfold Queuelib.peek. rewrite Hname.
    cbn [opt_truthy opt_str]. apply String.eqb_neq in Hne. rewrite Hne. cbn [negb].
    unfold bind at 1. unfold Queuelib.get_queue, Queuelib.queue_open at 1. rewrite Hst.
    unfold bind at 1. unfold Queuelib.get_files_in_queue, Queuelib.queue_truthy,
      Queuelib.queue_len. cbn [Queuelib.q_items]. rewrite length_map.
    destruct items as [|it items].
    - cbn [length Nat.eqb negb map]. rewrite (bind_ok _ _ _ _ _ (print_eq _ _)).
      unfold ret at 1. cbn [fst snd].
      unfold bind at 1, FakeFileList_get_entries at 1.
      cbn [FakeFileList_entries printed set_stdout set_disk]. rewrite Hent.
      cbn [for_each]. unfold bind at 1, ret at 1.
      destruct (flush args).
      + unfold Queuelib.queue_close, Queuelib.queue_len. cbn.
        unfold set_disk. cbn. rewrite Hent. f_equal. f_equal.
        apply delete_insert_eq.
      + unfold ret, printed, set_stdout, set_disk. cbn. now rewrite Hent.
    - set (its := it :: items) in *.
      replace (Nat.eqb (length its) 0) with false by reflexivity. cbn [negb].
      rewrite <- (map_map item_text str_encode).
      rewrite (qlib_drain_loop (map item_text its));
        [|apply Forall_forall; intros t Ht; apply list_elem_of_In in Ht;
          apply in_map_iff in Ht as (i & <- & _); apply item_text_nonempty
         |now rewrite length_map].
      cbn [fst snd]. unfold bind at 1, FakeFileList_get_entries at 1.
      cbn [FakeFileList_entries set_FakeFileList_entries set_disk].
      rewrite Hent. cbn [app]. unfold bind at 1. rewrite peek_prints.
      destruct (flush args).
      + unfold Queuelib.queue_close, Queuelib.queue_len. cbn.
        unfold set_disk. cbn. f_equal. f_equal. apply delete_insert_eq.
      + unfold ret, set_stdout. cbn. now rewrite map_map. }
  rewrite E. cbn [fst snd stdout FakeFileList_entries]. repeat split.
  unfold stored. cbn [disk]. destruct (flush args).
  - now rewrite lookup_delete_eq.
  - now rewrite lookup_insert_eq.
Qed.

Lemma open_then_drain (fuel : nat) (name : string) (texts : list string) (w : World) :
  stored w name = map str_encode texts ->
  Forall (fun t => t <> "") texts ->
  (length texts < fuel)%nat ->
  (q <- get_queue name ;; get_files_in_queue fuel q) w
  = (Ok (FakeFileList_new, mk_queue name []), drained w name texts).
Proof.
  intros Hst Hne Hfuel. unfold bind, get_queue, queue_open. rewrite Hst.
  unfold get_files_in_queue. cbn [queue_truthy negb].
  rewrite (drain_loop texts); try assumption; try reflexivity.
  - f_equal. unfold drained, set_FakeFileList_entries, set_disk. cbn.
    now rewrite insert_insert_eq.
  - cbn. apply lookup_insert_eq.
Qed.

(** C9.  The list [get_files_in_queue] fills belongs to the class
    [FakeFileList], not to the call: after a first call on the queue [n1]
    and a second call on the queue [n2], the entries of the second result
    are what the list held before, then the items of the first queue, then
    the items the second queue still had (none, when it is the same
    queue). *)
Theorem entries_accumulate_across_calls
    (f1 f2 : nat) (n1 n2 : string) (t1 t2 : list string) (w : World) :
  stored w n1 = map str_encode t1 ->
  stored w n2 = map str_encode t2 ->
  Forall (fun t => t <> "") t1 ->
  Forall (fun t => t <> "") t2 ->
  (length t1 < f1)%nat ->
  (length t2 < f2)%nat ->
  exists w',
    (q1 <- get_queue n1 ;;
     first <- get_files_in_queue f1 q1 ;;
     q2 <- get_queue n2 ;;
     second <- get_files_in_queue f2 q2 ;;
     FakeFileList_get_entries (fst second)) w
    = (Ok (FakeFileList_entries w ++ t1 ++ (if String.eqb n1 n2 then [] else t2)), w').
Proof.
  intros H1 H2 Hne1 Hne2 Hf1 Hf2.
  pose proof (open_then_drain f1 n1 t1 w H1 Hne1 Hf1) as Hd1.
  unfold bind at 1 in Hd1.
  unfold bind at 1.
  destruct (get_queue n1 w) as [[q1| | |] w1] eqn:Hopen; try discriminate.
  rewrite (bind_ok _ _ _ _ _ Hd1).
  set (t2' := if String.eqb n1 n2 then [] else t2).
  assert (Hst : stored (drained w n1 t1) n2 = map str_encode t2').
  { unfold stored, drained, set_FakeFileList_entries, set_disk. cbn.
    subst t2'. destruct (String.eqb_spec n1 n2) as [->|Hn].
    - now rewrite lookup_insert_eq.
    - rewrite lookup_insert_ne by assumption. exact H2. }
  assert (Hne : Forall (fun t => t <> "") t2').
  { subst t2'. destruct (String.eqb n1 n2); [constructor | assumption]. }
  assert (Hf : (length t2' < f2)%nat).
  { subst t2'. destruct (String.eqb n1 n2); [cbn; lia | assumption]. }
  pose proof (open_then_drain f2 n2 t2' _ Hst Hne Hf) as Hd2.
  unfold bind at 1 in Hd2. unfold bind at 1.
  destruct (get_queue n2 (drained w n1 t1)) as [[q2| | |] w2] eqn:Hopen2;
    try discriminate.
  rewrite (bind_ok _ _ _ _ _ Hd2).
  eexists. unfold FakeFileList_get_entries. f_equal.
  unfold drained, set_FakeFileList_entries, set_disk. cbn.
  now rewrite <- app_assoc.
Qed.

(** ** The round trip of a Work Item *)

Lemma fields_ok (a b c d : pyval) :
  forallb (fun kv => field_name_ok (fst kv)) (FakeFile_dict a b c d) = true.
Proof. reflexivity. Qed.

Lemma parse_item_blob (it : WorkItem) (w : World) :
  parse_work_item (item_blob it) w = (Ok (item_dict it), w).
Proof.
  unfold parse_work_item, item_blob, decode. rewrite bytes_decode_encode.
  unfold bind at 1, ret at 1. unfold json_loads. rewrite loads_item_text.
  unfold bind at 1, ret at 1. unfold namedtuple_of_dict, item_dict.
  now rewrite fields_ok.
Qed.

(** C5.  The blob [ls] pushes for a file entry is the UTF-8 text of a JSON
    object whose keys are exactly [path_display], [size],
    [server_modified] and [client_modified], in that order; pushed, closed,
    reopened and popped, it decodes to an object with these four fields
    holding the path, the size and the two ISO texts that were
    serialized. *)
Theorem work_item_round_trip
    (sizeof_fmt : Z -> string) (args : Args) (name : string) (entry : pyobj)
    (w : World) (p : string) (n : Z) (sm cm : datetime) :
  getattr entry "path_display" = Some (PStr p) ->
  any_startswith p (excludePaths args) = false ->
  getattr entry "size" = Some (PInt n) ->
  getattr entry "server_modified" = Some (PDatetime sm) ->
  getattr entry "client_modified" = Some (PDatetime cm) ->
  stored w name = [] ->
  let item := mk_item p n (isoformat sm) (isoformat cm) in
  (exists w',
      push_close_reopen_pop sizeof_fmt args name entry w = (Ok (item_dict item), w'))
  /\ fst (ls_entry sizeof_fmt args (Some (mk_queue name [])) entry w)
     = Ok (Some (mk_queue name [item_blob item]))
  /\ bytes_decode (item_blob item) = Some (item_text item)
  /\ Json.loads (item_text item) = Some (Json.JDict (item_dict item))
  /\ map fst (item_dict item)
     = ["path_display"; "size"; "server_modified"; "client_modified"].
Proof.
  intros Hp Hex Hs Hsm Hcm Hst item. repeat split.
  - unfold push_close_reopen_pop.
    unfold bind at 1. unfold get_queue at 1, queue_open at 1.
    rewrite (bind_ok _ _ _ _ _
               (ls_entry_pushed sizeof_fmt args _ entry _ p n sm cm Hp Hex Hs Hsm Hcm)).
    unfold bind at 1. unfold close_if_queue, queue_truthy, queue_close at 1.
    unfold bind at 1. unfold get_queue at 1, queue_open at 1.
    rewrite Hst.
    unfold queue_push, printed, set_stdout, set_disk, stored.
    cbn [q_name q_buffer disk stdout FakeFileList_entries dirs files app].
    rewrite !lookup_insert_eq. cbn [default from_option id app].
    unfold bind at 1, queue_pop at 1, stored.
    cbn [q_name q_buffer disk stdout FakeFileList_entries dirs files].
    rewrite !lookup_insert_eq. cbn [default from_option id fst snd].
    eexists. apply (parse_item_blob item).
  - now rewrite (ls_entry_pushed sizeof_fmt args _ entry _ p n sm cm Hp Hex Hs Hsm Hcm).
  - apply bytes_decode_encode.
  - apply loads_item_text.
Qed.

(** ** Direct mode on a listing of two pages *)

Lemma download_ok (dbx : Dropbox) (src dest body : string) (w : World) :
  files_download dbx src = inr body ->
  dest ∉ dirs w ->
  is_root dest = false ->
  dest <> "" ->
  is_dir w (dirname dest) = true ->
  files_download_to_file dbx src dest w
  = (Ok tt, set_files w (<[dest := mk_stat body None]> (files w))).
Proof.
  intros Hb Hd Hr Hne Hdir. unfold files_download_to_file, bind, lift.
  rewrite Hb. unfold ret, write_file.
  rewrite (bool_decide_eq_false_2 _ Hd), Hr. cbn [orb].
  apply String.eqb_neq in Hne. now rewrite Hne, Hdir.
Qed.

(** The transfer of an entry whose three steps go through. *)
Lemma copy_transfers
    (sys : Platform) (args : Args) (entry : pyobj) (dbx : Dropbox)
    (w w1 w2 : World) (p : string) (vs vc : pyval) (sm cm : datetime) (ta tm : Z) :
  truthy (getattr_default entry "size" PNone) = true ->
  getattr entry "path_display" = Some (PStr p) ->
  any_startswith p (excludePaths args) = false ->
  getattr entry "server_modified" = Some vs -> timestamp_form sm vs ->
  getattr entry "client_modified" = Some vc -> timestamp_form cm vc ->
  timestamp sys sm = inr ta -> timestamp sys cm = inr tm ->
  make_local_dir (dirname (dest_path args +:+ p)) w = (Ok tt, w1) ->
  files_download_to_file dbx p (dest_path args +:+ p)
    (printed w1 ("Downloading " +:+ p +:+ " to " +:+ dest_path args +:+ p))
  = (Ok tt, w2) ->
  exists body,
    files_download dbx p = inr body
    /\ copy_dropbox_file sys args entry dbx w
       = (Ok (normalized args),
          set_files w2 (<[dest_path args +:+ p := mk_stat body (Some (ta, tm))]>
                          (files w2))).
Proof.
  intros Hs Hp Hex Hvs Fs Hvc Fc Ha Hm Hdir Hdl.
  destruct (download_writes _ _ _ _ _ Hdl) as (body & Hbody & Hw2).
  exists body. split; [assumption|].
  rewrite (copy_dropbox_file_steps _ _ _ _ _ _ Hs Hp Hex).
  rewrite (bind_ok _ _ _ _ _ (try_except_ok _ _ _ _ _ Hdir)).
  rewrite (bind_ok _ _ _ _ _ (print_eq _ _)).
  rewrite (bind_ok _ _ _ _ _ (try_except_ok _ _ _ _ _ Hdl)).
  assert (Hl : files w2 !! (dest_path args +:+ p) = Some (mk_stat body None)).
  { rewrite Hw2. cbn. apply lookup_insert_eq. }
  assert (Ht : set_times sys entry (dest_path args +:+ p) w2
               = (Ok tt, set_files w2 (<[dest_path args +:+ p
                                        := mk_stat body (Some (ta, tm))]> (files w2)))).
  { rewrite (set_times_forms _ _ _ _ _ _ _ _ _ _ Hvs Fs Hvc Fc Ha Hm).
    unfold utime. now rewrite Hl. }
  now rewrite (bind_ok _ _ _ _ _ (try_except_ok _ _ _ _ _ Ht)).
Qed.

(** C4.  When the directory step and the download of an entry have gone
    through, and its [server_modified] and [client_modified] are each a
    [datetime] or a string of the form [YYYY-MM-DDTHH:MM:SS],
    [copy_dropbox_file] returns normally and the local file carries the
    pair (access time, modification time) = (timestamp of
    [server_modified], timestamp of [client_modified]). *)
Theorem copy_sets_times
    (sys : Platform) (args : Args) (entry : pyobj) (dbx : Dropbox)
    (w w1 w2 : World) (p : string) (vs vc : pyval) (sm cm : datetime) (ta tm : Z) :
  truthy (getattr_default entry "size" PNone) = true ->
  getattr entry "path_display" = Some (PStr p) ->
  any_startswith p (excludePaths args) = false ->
  getattr entry "server_modified" = Some vs -> timestamp_form sm vs ->
  getattr entry "client_modified" = Some vc -> timestamp_form cm vc ->
  timestamp sys sm = inr ta -> timestamp sys cm = inr tm ->
  make_local_dir (dirname (dest_path args +:+ p)) w = (Ok tt, w1) ->
  files_download_to_file dbx p (dest_path args +:+ p)
    (printed w1 ("Downloading " +:+ p +:+ " to " +:+ dest_path args +:+ p))
  = (Ok tt, w2) ->
  exists body w3,
    copy_dropbox_file sys args entry dbx w = (Ok (normalized args), w3)
    /\ files w3 !! (dest_path args +:+ p) = Some (mk_stat body (Some (ta, tm)))
    /\ files_download dbx p = inr body
    /\ w3 = set_files w2 (<[dest_path args +:+ p := mk_stat body (Some (ta, tm))]> (files w2)).
Proof.
  intros Hs Hp Hex Hvs Fs Hvc Fc Ha Hm Hdir Hdl.
  destruct (copy_transfers sys args entry dbx w w1 w2 p vs vc sm cm ta tm
              Hs Hp Hex Hvs Fs Hvc Fc Ha Hm Hdir Hdl) as (body & Hbody & Hc).
  exists body. eexists. split; [exact Hc|]. split; [|split; [assumption|reflexivity]].
  cbn. apply lookup_insert_eq.
Qed.

(** One pass of the loop of [get_direct] over the first page. *)
Lemma first_page_again (w : World) :
  "out" ∈ dirs w ->
  "out/a.txt" ∉ dirs w ->
  exists w',
    copy_dropbox_file (example_sys two_pages) direct_args
      (remote_file "/a.txt" 3) two_pages w
    = (Ok direct_args, w')
    /\ stdout w' = stdout w ++ [download_line_a]
    /\ dirs w' = dirs w
    /\ (forall q, q <> "out/a.txt" -> files w' !! q = files w !! q).
Proof.
  intros Hout Ha.
  assert (Hdir : make_local_dir (dirname (dest_path direct_args +:+ "/a.txt")) w
                 = (Ok tt, w)).
  { unfold make_local_dir, path_exists.
    change (dirname (dest_path direct_args +:+ "/a.txt")) with "out".
    now rewrite (bool_decide_eq_true_2 _ Hout). }
  assert (Hdl : files_download_to_file two_pages "/a.txt"
                  (dest_path direct_args +:+ "/a.txt")
                  (printed w ("Downloading " +:+ "/a.txt" +:+ " to "
                              +:+ dest_path direct_args +:+ "/a.txt"))
                = (Ok tt, set_files (printed w download_line_a)
                            (<["out/a.txt" := mk_stat "contents of /a.txt" None]>
                               (files (printed w download_line_a))))).
  { apply (download_ok two_pages "/a.txt" "out/a.txt" "contents of /a.txt");
      try reflexivity; try assumption; try discriminate.
    unfold is_dir. change (dirname "out/a.txt") with "out". cbn [dirs printed set_stdout].
    now rewrite (bool_decide_eq_true_2 _ Hout). }
  destruct (copy_transfers (example_sys two_pages) direct_args
              (remote_file "/a.txt" 3) two_pages w w _ "/a.txt"
              _ _ example_time example_time _ _
              eq_refl eq_refl eq_refl eq_refl (form_datetime _)
              eq_refl (form_datetime _) eq_refl eq_refl Hdir Hdl)
    as (body & _ & Hc).
  eexists. split; [exact Hc|]. cbn. repeat split.
  intros q Hq.
  rewrite !lookup_insert_ne; [reflexivity | |];
    intros E; apply Hq; rewrite <- E; reflexivity.
Qed.

Lemma count_occ_snoc (l : list string) (x y : string) :
  count_occ string_dec (l ++ [y]) x
  = (count_occ string_dec l x + (if string_dec y x then 1 else 0))%nat.
Proof. rewrite count_occ_app. cbn. now destruct (string_dec y x). Qed.

Lemma direct_loop_repeats (fuel : nat) :
  forall w,
    "out" ∈ dirs w ->
    "out/a.txt" ∉ dirs w ->
    files w !! "out/b.txt" = None ->
    exists w',
      get_direct (example_sys two_pages) fuel direct_args two_pages w = (OutOfFuel, w')
      /\ files w' !! "out/b.txt" = None
      /\ count_occ string_dec (stdout w') download_line_a
         = (count_occ string_dec (stdout w) download_line_a + fuel)%nat.
Proof.
  induction fuel as [|fuel IH]; intros w Hout Ha Hb.
  - exists w. cbn. repeat split; [assumption | lia].
  - destruct (first_page_again w Hout Ha) as (w1 & Hc & Hso & Hd & Hf).
    destruct (IH w1) as (w' & Hg & Hb' & Hn).
    + now rewrite Hd.
    + now rewrite Hd.
    + rewrite Hf by discriminate. assumption.
    + exists w'. split; [|split; [assumption|]].
      * cbn [get_direct].
        rewrite (bind_ok _ _ w w (mk_page [remote_file "/a.txt" 3] true "c1") eq_refl).
        cbn [entries has_more cursor for_each].
        rewrite (bind_ok _ _ w w1 direct_args)
          by (rewrite (bind_ok _ _ _ _ _ Hc); reflexivity).
        rewrite (bind_ok _ _ w1 w1 (mk_page [remote_file "/b.txt" 5] false "") eq_refl).
        exact Hg.
      * rewrite Hn, Hso, count_occ_snoc.
        destruct (string_dec download_line_a download_line_a); [lia | congruence].
Qed.

(** Whatever the remote holds, when its first pages come with
    [has_more] set the loop of [get_direct] never returns normally: it goes
    round again, or the run ends in an exception or an exit. *)
Lemma direct_loop_never_returns (sys : Platform) (dbx : Dropbox) (fuel : nat) :
  (forall p rc page, files_list_folder dbx p rc = inr page -> has_more page = true) ->
  forall args w, fst (get_direct sys fuel args dbx w) <> Ok tt.
Proof.
  intros Hmore. induction fuel as [|fuel IH]; intros args w; [discriminate|].
  cbn [get_direct]. unfold bind at 1.
  destruct (files_list_folder dbx (src_path args) (r args)) as [e|page] eqn:Hpage;
    [discriminate|].
  cbn [lift ret]. unfold bind at 1.
  destruct (for_each (entries page) args
              (fun a entry => copy_dropbox_file sys a entry dbx) w)
    as [[args'|e|c|] w1]; try discriminate.
  rewrite (Hmore _ _ _ Hpage). unfold bind at 1.
  destruct (files_list_folder_continue dbx (cursor page)) as [e|page'];
    [discriminate|].
  cbn [lift ret]. apply IH.
Qed.

(** C1, at the listing of two pages.  However many iterations are
    allowed, [get] without a queue name does not return: every iteration
    asks for the first page again and transfers [/a.txt] once more, and
    the entry of the second page is never transferred. *)
Theorem direct_mode_repeats_first_page (fuel : nat) :
  exists w,
    get (example_sys two_pages) fuel direct_args out_world = (OutOfFuel, w)
    /\ files w !! "out/b.txt" = None
    /\ count_occ string_dec (stdout w) download_line_a = fuel.
Proof.
  unfold get.
  set (w0 := snd (connect_to_dropbox (example_sys two_pages) direct_args
                    (snd (connect_to_dropbox (example_sys two_pages) direct_args
                            out_world)))).
  assert (Hout : "out" ∈ dirs w0) by (subst w0; cbn; set_solver).
  assert (Ha : "out/a.txt" ∉ dirs w0) by (subst w0; cbn; set_solver).
  assert (Hb0 : files w0 !! "out/b.txt" = None) by reflexivity.
  destruct (direct_loop_repeats fuel w0 Hout Ha Hb0) as (w & Hg & Hb & Hn).
  exists w. split; [exact Hg|]. split; [assumption|].
  rewrite Hn. reflexivity.
Qed.

(** ** Concrete runs *)

(** C2, as the code has it.  With a queue configured and no exclusion
    prefix matching, [ls] prints an entry without a size attribute and
    leaves the queue handle as it was; it serializes and pushes an entry
    whose size attribute is an integer, zero included; and whenever the
    handle comes back changed, the entry has a size attribute that is not
    [None]. *)
Theorem ls_enqueues_when_size_present
    (sizeof_fmt : Z -> string) (args : Args) (q : FifoDiskQueue)
    (entry : pyobj) (w : World) (p : string) :
  getattr entry "path_display" = Some (PStr p) ->
  any_startswith p (excludePaths args) = false ->
  (getattr entry "size" = None ->
   ls_entry sizeof_fmt args (Some q) entry w
   = (Ok (Some q), printed w (listing_line sizeof_fmt entry)))
  /\ (forall (n : Z) (sm cm : datetime),
        getattr entry "size" = Some (PInt n) ->
        getattr entry "server_modified" = Some (PDatetime sm) ->
        getattr entry "client_modified" = Some (PDatetime cm) ->
        ls_entry sizeof_fmt args (Some q) entry w
        = (Ok (Some (queue_push q (work_item_blob p n (isoformat sm) (isoformat cm)))),
           printed w (listing_line sizeof_fmt entry)))
  /\ (forall (q' : option FifoDiskQueue) (w' : World),
        ls_entry sizeof_fmt args (Some q) entry w = (Ok q', w') ->
        q' <> Some q ->
        exists v, getattr entry "size" = Some v /\ is_not_None v = true).
Proof.
  intros Hp Hex. split; [|split].
  - intros Hs. now apply (ls_entry_listed _ _ _ _ _ p).
  - intros n sm cm Hs Hsm Hcm. now apply ls_entry_pushed.
  - intros q' w' Hrun Hne.
    destruct (ls_entry_push_only_if _ _ _ _ _ _ _ Hrun Hne) as (v & _ & Hv & Hn & _).
    now exists v.
Qed.

Lemma ls_enqueues_when_size_present_witness :
  (getattr (remote_file "/docs/empty.txt" 0) "size" = None ->
   ls_entry sizeof_fmt_bytes ls_args (Some (mk_queue "q" []))
     (remote_file "/docs/empty.txt" 0) empty_world
   = (Ok (Some (mk_queue "q" [])),
      printed empty_world (listing_line sizeof_fmt_bytes (remote_file "/docs/empty.txt" 0))))
  /\ (forall (n : Z) (sm cm : datetime),
        getattr (remote_file "/docs/empty.txt" 0) "size" = Some (PInt n) ->
        getattr (remote_file "/docs/empty.txt" 0) "server_modified" = Some (PDatetime sm) ->
        getattr (remote_file "/docs/empty.txt" 0) "client_modified" = Some (PDatetime cm) ->
        ls_entry sizeof_fmt_bytes ls_args (Some (mk_queue "q" []))
          (remote_file "/docs/empty.txt" 0) empty_world
        = (Ok (Some (queue_push (mk_queue "q" [])
                       (work_item_blob "/docs/empty.txt" n (isoformat sm) (isoformat cm)))),
           printed empty_world
             (listing_line sizeof_fmt_bytes (remote_file "/docs/empty.txt" 0))))
  /\ (forall (q' : option FifoDiskQueue) (w' : World),
        ls_entry sizeof_fmt_bytes ls_args (Some (mk_queue "q" []))
          (remote_file "/docs/empty.txt" 0) empty_world = (Ok q', w') ->
        q' <> Some (mk_queue "q" []) ->
        exists v, getattr (remote_file "/docs/empty.txt" 0) "size" = Some v
                  /\ is_not_None v = true).
Proof.
  apply (ls_enqueues_when_size_present sizeof_fmt_bytes ls_args (mk_queue "q" [])
           (remote_file "/docs/empty.txt" 0) empty_world "/docs/empty.txt");
    reflexivity.
Defined.

(** C2 as stated fails on an empty file: [ls /docs --pushFilesToQueue q]
    over a folder holding a file of size 0 and a subfolder returns with
    the file of size 0 in the queue (and the subfolder, which has no size,
    not in it). *)
Lemma size_zero_entry_is_enqueued :
  getattr (remote_file "/docs/empty.txt" 0) "size" = Some (PInt 0)
  /\ any_startswith "/docs/empty.txt" (excludePaths ls_args) = false
  /\ fst (ls sizeof_fmt_bytes (example_sys one_page) 2 ls_args empty_world) = Ok tt
  /\ disk (snd (ls sizeof_fmt_bytes (example_sys one_page) 2 ls_args empty_world)) !! "q"
     = Some [item_blob (mk_item "/docs/empty.txt" 0
                          "2019-03-07T09:05:59" "2019-03-07T09:05:59")].
Proof. repeat split; vm_compute; reflexivity. Qed.

(** C7 as stated fails in [copy_dropbox_file] on an excluded entry of
    size 0: the line printed is the skip message, and no exclusion notice
    is printed. *)
Lemma excluded_empty_entry_prints_skip_message :
  any_startswith "/tmp/x" (excludePaths exclude_args) = true
  /\ copy_dropbox_file (example_sys two_pages) exclude_args
       (remote_file "/tmp/x" 0) two_pages out_world
     = (Ok exclude_args, printed out_world "empty file or directory skipping /tmp/x")
  /\ ~ In "Excluding /tmp/x"
         (stdout (snd (copy_dropbox_file (example_sys two_pages) exclude_args
                         (remote_file "/tmp/x" 0) two_pages out_world))).
Proof.
  repeat split; try reflexivity.
  cbn. intros [H|[]]. discriminate H.
Qed.

(** *** The theorems at concrete inputs *)

Lemma copy_skips_empty_witness :
  copy_dropbox_file (example_sys two_pages) direct_args
    (remote_file "/docs/empty.txt" 0) two_pages out_world
  = (Ok direct_args,
     printed out_world ("empty file or directory skipping " +:+ "/docs/empty.txt")).
Proof.
  apply (copy_skips_empty (example_sys two_pages) direct_args
           (remote_file "/docs/empty.txt" 0) two_pages out_world "/docs/empty.txt").
  - right. reflexivity.
  - reflexivity.
Defined.

Lemma excluded_entry_is_skipped_witness :
  ls_entry sizeof_fmt_bytes exclude_args (Some (mk_queue "q" []))
    (remote_file "/tmp/x" 3) out_world
  = (Ok (Some (mk_queue "q" [])), printed out_world ("Excluding " +:+ "/tmp/x"))
  /\ copy_dropbox_file (example_sys two_pages) exclude_args
       (remote_file "/tmp/x" 3) two_pages out_world
     = (Ok exclude_args, printed out_world (skip_line (remote_file "/tmp/x" 3) "/tmp/x")).
Proof.
  apply (excluded_entry_is_skipped sizeof_fmt_bytes (example_sys two_pages)
           exclude_args (Some (mk_queue "q" [])) (remote_file "/tmp/x" 3)
           two_pages out_world "/tmp/x"); reflexivity.
Defined.

Lemma peek_without_name_is_noop_witness :
  peek 3 direct_args queue_world = (Ok tt, queue_world).
Proof.
  apply (peek_without_name_is_noop 3 direct_args queue_world). reflexivity.
Defined.

Lemma peek_prints_and_commits_on_flush_witness :
  fst (Queuelib.peek 3 peek_flush_args queue_world) = Ok tt
  /\ stdout (snd (Queuelib.peek 3 peek_flush_args queue_world))
     = stdout queue_world
       ++ (if Nat.eqb (length [item_a; item_b]) 0 then ["queue not found"]
           else map wi_path [item_a; item_b])
  /\ FakeFileList_entries (snd (Queuelib.peek 3 peek_flush_args queue_world))
     = map item_text [item_a; item_b]
  /\ stored (snd (Queuelib.peek 3 peek_flush_args queue_world)) "q"
     = (if flush peek_flush_args then [] else map item_blob [item_a; item_b]).
Proof.
  apply (peek_prints_and_commits_on_flush 3 peek_flush_args "q" [item_a; item_b]
           queue_world).
  - reflexivity.
  - discriminate.
  - reflexivity.
  - reflexivity.
  - simpl. lia.
Defined.

(** Against C3 as the spec has it: without [--flush] the queue of two
    Work Items still holds both after [peek], and on an empty queue [peek]
    prints a line that is no path. *)
Lemma peek_without_flush_keeps_the_queue :
  stored (snd (Queuelib.peek 3 peek_args queue_world)) "q"
  = [item_blob item_a; item_blob item_b]
  /\ stdout (snd (Queuelib.peek 3 peek_args out_world)) = ["queue not found"].
Proof. split; vm_compute; reflexivity. Qed.

Lemma entries_accumulate_across_calls_witness :
  exists w',
    (q1 <- get_queue "q" ;;
     first <- get_files_in_queue 3 q1 ;;
     q2 <- get_queue "other" ;;
     second <- get_files_in_queue 2 q2 ;;
     FakeFileList_get_entries (fst second))
      (set_disk queue_world
         (<["other" := [str_encode "x"]]> (disk queue_world)))
    = (Ok (FakeFileList_entries
             (set_disk queue_world
                (<["other" := [str_encode "x"]]> (disk queue_world)))
           ++ [item_text item_a; item_text item_b]
           ++ (if String.eqb "q" "other" then [] else ["x"])), w').
Proof.
  apply (entries_accumulate_across_calls 3 2 "q" "other"
           [item_text item_a; item_text item_b] ["x"]).
  - reflexivity.
  - reflexivity.
  - repeat constructor; discriminate.
  - repeat constructor; discriminate.
  - simpl. lia.
  - simpl. lia.
Defined.

Lemma work_item_round_trip_witness :
  (exists w',
      push_close_reopen_pop sizeof_fmt_bytes ls_args "q" (remote_file "/a.txt" 3) out_world
      = (Ok (item_dict (mk_item "/a.txt" 3 (isoformat example_time)
                                (isoformat example_time))), w'))
  /\ fst (ls_entry sizeof_fmt_bytes ls_args (Some (mk_queue "q" []))
            (remote_file "/a.txt" 3) out_world)
     = Ok (Some (mk_queue "q" [item_blob (mk_item "/a.txt" 3 (isoformat example_time)
                                              (isoformat example_time))]))
  /\ bytes_decode (item_blob (mk_item "/a.txt" 3 (isoformat example_time)
                                      (isoformat example_time)))
     = Some (item_text (mk_item "/a.txt" 3 (isoformat example_time)
                                (isoformat example_time)))
  /\ Json.loads (item_text (mk_item "/a.txt" 3 (isoformat example_time)
                                    (isoformat example_time)))
     = Some (Json.JDict (item_dict (mk_item "/a.txt" 3 (isoformat example_time)
                                            (isoformat example_time))))
  /\ map fst (item_dict (mk_item "/a.txt" 3 (isoformat example_time)
                                 (isoformat example_time)))
     = ["path_display"; "size"; "server_modified"; "client_modified"].
Proof.
  apply (work_item_round_trip sizeof_fmt_bytes ls_args "q" (remote_file "/a.txt" 3)
           out_world "/a.txt" 3 example_time example_time); reflexivity.
Defined.

Lemma copy_sets_times_witness :
  exists body w3,
    copy_dropbox_file (example_sys two_pages) queue_args mixed_entry two_pages out_world
    = (Ok (normalized queue_args), w3)
    /\ files w3 !! (dest_path queue_args +:+ "/a.txt")
       = Some (mk_stat body (Some (1551949559, 1552003200)))
    /\ files_download two_pages "/a.txt" = inr body
    /\ w3 = set_files
              (set_files (printed out_world "Downloading /a.txt to out/a.txt")
                 (<["out/a.txt" := mk_stat "contents of /a.txt" None]> (files out_world)))
              (<[dest_path queue_args +:+ "/a.txt"
                 := mk_stat body (Some (1551949559, 1552003200))]>
                 (files (set_files (printed out_world "Downloading /a.txt to out/a.txt")
                           (<["out/a.txt" := mk_stat "contents of /a.txt" None]>
                              (files out_world))))).
Proof.
  apply (copy_sets_times (example_sys two_pages) queue_args mixed_entry two_pages
           out_world out_world
           (set_files (printed out_world "Downloading /a.txt to out/a.txt")
              (<["out/a.txt" := mk_stat "contents of /a.txt" None]> (files out_world)))
           "/a.txt" (PStr "2019-03-07T09:05:59")
           (PDatetime (mk_datetime 2019 3 8 0 0 0))
           example_time (mk_datetime 2019 3 8 0 0 0) 1551949559 1552003200).
  - reflexivity.
  - reflexivity.
  - reflexivity.
  - reflexivity.
  - apply (form_iso_string example_time). reflexivity.
  - reflexivity.
  - apply form_datetime.
  - reflexivity.
  - reflexivity.
  - vm_compute. reflexivity.
  - vm_compute. reflexivity.
Defined.

Lemma transfer_failure_aborts_run_witness :
  let aborted :=
    (@Exited unit 1,
     printed (printed out_world "Downloading /a.txt to out/a.txt") "path/not_found") in
  exit_status (fst aborted) = Some 1
  /\ (forall (fuel : nat) (args0 : Args) (w0 : World) (page : ListFolderResult)
             (before after : list pyobj),
        files_list_folder refusing (src_path args0) (r args0) = inr page ->
        entries page = before ++ remote_file "/a.txt" 3 :: after ->
        for_each before args0
          (fun a e => copy_dropbox_file (example_sys refusing) a e refusing) w0
        = (Ok queue_args, out_world) ->
        get_direct (example_sys refusing) (S fuel) args0 refusing w0 = aborted)
  /\ (forall (fuel : nat) (w0 : World) (name blob : string) (rest : list string),
        pullFilesFromQueue queue_args = Some name ->
        disk w0 !! name = Some (blob :: rest) ->
        blob <> "" ->
        out_world = popped w0 name rest ->
        parse_work_item blob out_world = (Ok (remote_file "/a.txt" 3), out_world) ->
        get_from_queue (example_sys refusing) (S fuel) queue_args refusing w0 = aborted
        /\ disk (snd aborted) !! name = Some rest).
Proof.
  apply (transfer_failure_aborts_run (example_sys refusing) queue_args
           (remote_file "/a.txt" 3) refusing out_world "/a.txt"
           (mk_exn ApiError "path/not_found")
           (printed out_world "Downloading /a.txt to out/a.txt")).
  - reflexivity.
  - reflexivity.
  - reflexivity.
  - apply (download_failure _ _ _ _ _ _ _ out_world).
    + vm_compute. reflexivity.
    + vm_compute. reflexivity.
Defined.

(** *** Whole commands on the example machines *)

(** [ls] follows the cursor: both pages are listed and queued, in order. *)
Example ls_visits_both_pages :
  fst (ls sizeof_fmt_bytes (example_sys two_pages) 3 ls_root_args out_world) = Ok tt
  /\ disk (snd (ls sizeof_fmt_bytes (example_sys two_pages) 3 ls_root_args out_world))
       !! "q"
     = Some [item_blob item_a; item_blob item_b].
Proof. split; vm_compute; reflexivity. Qed.

(** [get] in queue mode transfers both items and leaves the queue empty. *)
Example get_drains_queue :
  fst (get (example_sys two_pages) 3 queue_args queue_world) = Ok tt
  /\ disk (snd (get (example_sys two_pages) 3 queue_args queue_world)) !! "q" = Some []
  /\ files (snd (get (example_sys two_pages) 3 queue_args queue_world)) !! "out/b.txt"
     = Some (mk_stat "contents of /b.txt" (Some (1551949559, 1551949559))).
Proof. repeat split; vm_compute; reflexivity. Qed.

(** A refused download ends the run with status 1; the second item is
    still queued. *)
Example get_stops_at_refused_download :
  exit_status (fst (get (example_sys refusing) 3 queue_args queue_world)) = Some 1
  /\ disk (snd (get (example_sys refusing) 3 queue_args queue_world)) !! "q"
     = Some [item_blob item_b]
  /\ files (snd (get (example_sys refusing) 3 queue_args queue_world)) = ∅.
Proof. repeat split; vm_compute; reflexivity. Qed.

(** * Further properties *)

(** ** What a command leaves alone *)

Section Stays.

Variable R : World -> World -> Prop.
Hypothesis R_refl : forall w, R w w.
Hypothesis R_trans : forall a b c, R a b -> R b c -> R a c.

Lemma stays_ret {A} (a : A) : stays R (ret a).
Proof. intros w. apply R_refl. Qed.

Lemma stays_raise {A} (t : exn_kind) (s : string) : stays R (@raise A t s).
Proof. intros w. apply R_refl. Qed.

Lemma stays_exit {A} (c : Z) : stays R (@sys_exit A c).
Proof. intros w. apply R_refl. Qed.

Lemma stays_out_of_fuel {A} : stays R (@out_of_fuel A).
Proof. intros w. apply R_refl. Qed.

Lemma stays_lift {A} (x : exn + A) : stays R (lift x).
Proof. intros w. destruct x; apply R_refl. Qed.

Lemma stays_bind {A B} (m : M A) (k : A -> M B) :
  stays R m -> (forall a, stays R (k a)) -> stays R (bind m k).
Proof.
  intros Hm Hk w. unfold bind. specialize (Hm w).
  destruct (m w) as [[a|e|c|] w']; cbn in *; try assumption.
  eapply R_trans; [exact Hm | apply Hk].
Qed.

Lemma stays_try {A} (m : M A) (h : exn -> M A) :
  stays R m -> (forall e, stays R (h e)) -> stays R (try_except m h).
Proof.
  intros Hm Hh w. unfold try_except. specialize (Hm w).
  destruct (m w) as [[a|e|c|] w']; cbn in *; try assumption.
  eapply R_trans; [exact Hm | apply Hh].
Qed.

Lemma stays_for_each {A S} (l : list A) (body : S -> A -> M S) :
  (forall s x, stays R (body s x)) -> forall s, stays R (for_each l s body).
Proof.
  intros Hb. induction l as [|x l IH]; intros s; cbn [for_each].
  - apply stays_ret.
  - apply stays_bind; [apply Hb | apply IH].
Qed.

End Stays.

Lemma only_printed_refl (w : World) : only_printed w w.
Proof. repeat split. Qed.

Lemma only_printed_trans (a b c : World) :
  only_printed a b -> only_printed b c -> only_printed a c.
Proof. unfold only_printed. intuition congruence. Qed.

Lemma only_queue_refl (name : string) (w : World) : only_queue name w w.
Proof. repeat split. Qed.

Lemma only_queue_trans (name : string) (a b c : World) :
  only_queue name a b -> only_queue name b c -> only_queue name a c.
Proof.
  unfold only_queue. intros (H1 & H2 & H3) (H4 & H5 & H6).
  repeat split; try congruence.
  intros other Hne. now rewrite H6, H3.
Qed.

Lemma only_printed_queue (name : string) (w w' : World) :
  only_printed w w' -> only_queue name w w'.
Proof. unfold only_printed, only_queue. intuition congruence. Qed.

Lemma stays_weaken {A} (R R' : World -> World -> Prop) (m : M A) :
  (forall w w', R w w' -> R' w w') -> stays R m -> stays R' m.
Proof. intros H Hm w. apply H, Hm. Qed.

Lemma print_only_prints (s : string) : stays only_printed (print s).
Proof. intros w. repeat split. Qed.

(** One step of a proof that a computation keeps a relation: the
    combinator on top, the side conditions on the relation closed at
    once. *)
Ltac stays_side :=
  solve [ apply only_printed_refl | apply only_printed_trans
        | apply only_queue_refl | apply only_queue_trans ].

Ltac stays_step :=
  first
    [ apply stays_ret; stays_side
    | apply stays_raise; stays_side
    | apply stays_exit; stays_side
    | apply stays_out_of_fuel; stays_side
    | apply stays_lift; stays_side
    | apply print_only_prints
    | apply stays_bind; [stays_side | | intros ?]
    | apply stays_try; [stays_side | | intros ?]
    | apply stays_for_each; [stays_side | stays_side | intros ? ?]
    | match goal with
      | |- stays _ (if ?b then _ else _) => destruct b
      | |- stays _ (match ?x with _ => _ end) => destruct x
      end ].

Lemma connect_only_prints (sys : Platform) (args : Args) :
  stays only_printed (connect_to_dropbox sys args).
Proof. unfold connect_to_dropbox, print_and_exit. repeat stays_step. Qed.

(** [bind] when the result of the first computation is known to satisfy
    [P]. *)
Lemma stays_bind_post {A B} (R : World -> World -> Prop) (P : A -> Prop)
    (m : M A) (k : A -> M B) :
  (forall a b c, R a b -> R b c -> R a c) ->
  stays R m ->
  (forall w a, fst (m w) = Ok a -> P a) ->
  (forall a, P a -> stays R (k a)) ->
  stays R (bind m k).
Proof.
  intros Ht Hm HP Hk w. unfold bind. specialize (Hm w). specialize (HP w).
  destruct (m w) as [[a|e|c|] w']; cbn in *; try assumption.
  eapply Ht; [exact Hm | apply Hk, HP; reflexivity].
Qed.

Lemma queue_open_only_queue (name : string) : stays (only_queue name) (queue_open name).
Proof.
  intros w. unfold only_queue. cbn. repeat split. intros other Hne.
  now rewrite lookup_insert_ne by congruence.
Qed.

Lemma queue_close_only_queue (q : FifoDiskQueue) :
  stays (only_queue (q_name q)) (queue_close q).
Proof.
  intros w. unfold only_queue. cbn. repeat split. intros other Hne.
  now rewrite lookup_insert_ne by congruence.
Qed.

Lemma queue_pop_only_queue (q : FifoDiskQueue) :
  stays (only_queue (q_name q)) (queue_pop q).
Proof.
  intros w. unfold queue_pop.
  destruct (stored w (q_name q)); [destruct (q_buffer q)|];
    unfold only_queue; cbn; repeat split.
  intros other Hne. now rewrite lookup_insert_ne by congruence.
Qed.

Lemma queue_pop_name (q : FifoDiskQueue) (w : World) (r : option string * FifoDiskQueue) :
  fst (queue_pop q w) = Ok r -> q_name (snd r) = q_name q.
Proof.
  unfold queue_pop.
  destruct (stored w (q_name q)); [destruct (q_buffer q)|]; cbn;
    intros [= <-]; reflexivity.
Qed.

(** [ls_entry] only prints, and hands back a handle on the same queue. *)
Lemma ls_entry_only_prints (sizeof_fmt : Z -> string) (args : Args)
    (queue : option FifoDiskQueue) (entry : pyobj) :
  stays only_printed (ls_entry sizeof_fmt args queue entry).
Proof.
  unfold ls_entry, getattr_strict, startswith_method, sizeof_fmt_call,
    json_serial, json_dumps.
  repeat stays_step.
Qed.

Lemma ls_entry_handle (sizeof_fmt : Z -> string) (args : Args) (name : string)
    (queue r : option FifoDiskQueue) (entry : pyobj) (w : World) :
  handle_on name queue ->
  fst (ls_entry sizeof_fmt args queue entry w) = Ok r ->
  handle_on name r.
Proof.
  intros Hq. unfold ls_entry, getattr_strict, startswith_method, sizeof_fmt_call,
    json_serial, json_dumps, bind, ret, raise, print.
  repeat match goal with
         | |- context [match ?x with _ => _ end] => destruct x; cbn [fst snd]
         end;
    try discriminate; intros [= <-]; assumption.
Qed.

Lemma for_each_post {A S} (P : S -> Prop) (l : list A) (body : S -> A -> M S) :
  (forall s x w r, P s -> fst (body s x w) = Ok r -> P r) ->
  forall s w r, P s -> fst (for_each l s body w) = Ok r -> P r.
Proof.
  intros Hb. induction l as [|x l IH]; intros s w r Hs; cbn [for_each].
  - intros [= <-]. assumption.
  - unfold bind. destruct (body s x w) as [[s'|e|c|] w'] eqn:E; try discriminate.
    apply IH. apply (Hb s x w s' Hs). now rewrite E.
Qed.

Lemma close_if_queue_only_queue (name : string) (queue : option FifoDiskQueue) :
  handle_on name queue -> stays (only_queue name) (close_if_queue queue).
Proof.
  destruct queue as [q|]; cbn [handle_on close_if_queue queue_truthy].
  - intros <-. apply queue_close_only_queue.
  - intros _. apply stays_ret, only_queue_refl.
Qed.

Lemma ls_loop_only_queue (sizeof_fmt : Z -> string) (dbx : Dropbox) (args : Args)
    (fuel : nat) :
  forall page,
    stays (only_queue (opt_str (pushFilesToQueue args)))
          (ls_loop sizeof_fmt fuel args dbx page).
Proof.
  set (name := opt_str (pushFilesToQueue args)).
  induction fuel as [|fuel IH]; intros page; cbn [ls_loop].
  - apply stays_out_of_fuel, only_queue_refl.
  - apply (stays_bind_post _ (handle_on name)); [apply only_queue_trans | | |].
    + destruct (opt_truthy (pushFilesToQueue args)).
      * apply stays_bind; [apply only_queue_trans | apply queue_open_only_queue|].
        intros q. apply stays_ret, only_queue_refl.
      * apply stays_ret, only_queue_refl.
    + intros w a. destruct (opt_truthy (pushFilesToQueue args)); cbn.
      * intros [= <-]. reflexivity.
      * intros [= <-]. exact I.
    + intros queue Hq.
      apply (stays_bind_post _ (handle_on name)); [apply only_queue_trans | | |].
      * apply (stays_weaken only_printed); [apply only_printed_queue|].
        apply stays_for_each;
          [apply only_printed_refl | apply only_printed_trans |].
        intros s x. apply ls_entry_only_prints.
      * intros w r. apply (for_each_post (handle_on name)); [|assumption].
        intros s x w0 r0 Hs. now apply ls_entry_handle.
      * intros queue' Hq'. destruct (has_more page).
        -- apply stays_bind;
             [apply only_queue_trans | apply stays_lift, only_queue_refl|].
           intros page'. apply stays_bind;
             [apply only_queue_trans | now apply close_if_queue_only_queue|].
           intros _. apply IH.
        -- now apply close_if_queue_only_queue.
Qed.

Lemma ls_entry_no_queue (sizeof_fmt : Z -> string) (args : Args)
    (r : option FifoDiskQueue) (entry : pyobj) (w : World) :
  fst (ls_entry sizeof_fmt args None entry w) = Ok r -> r = None.
Proof.
  unfold ls_entry, getattr_strict, startswith_method, sizeof_fmt_call,
    bind, ret, raise, print.
  repeat match goal with
         | |- context [match ?x with _ => _ end] => destruct x; cbn [fst snd]
         end;
    try discriminate; intros [= <-]; reflexivity.
Qed.

Lemma ls_loop_only_prints (sizeof_fmt : Z -> string) (dbx : Dropbox) (args : Args)
    (fuel : nat) :
  opt_truthy (pushFilesToQueue args) = false ->
  forall page, stays only_printed (ls_loop sizeof_fmt fuel args dbx page).
Proof.
  intros Hq. induction fuel as [|fuel IH]; intros page; cbn [ls_loop].
  - apply stays_out_of_fuel, only_printed_refl.
  - rewrite Hq.
    apply (stays_bind_post _ (fun q => q = None)); [apply only_printed_trans | | |].
    + apply stays_ret, only_printed_refl.
    + intros w a [= <-]. reflexivity.
    + intros queue ->.
      apply (stays_bind_post _ (fun q => q = None)); [apply only_printed_trans | | |].
      * apply stays_for_each;
          [apply only_printed_refl | apply only_printed_trans |].
        intros s x. apply ls_entry_only_prints.
      * intros w r. apply (for_each_post (fun q => q = None)); [|reflexivity].
        intros s x w0 r0 ->. apply ls_entry_no_queue.
      * intros queue' ->. cbn [close_if_queue]. destruct (has_more page).
        -- repeat stays_step. apply IH.
        -- apply stays_ret, only_printed_refl.
Qed.

(** X2.  Without [--pushFilesToQueue], [ls] changes nothing but standard
    output, whatever the remote answers and however the run ends: no queue
    is opened or changed, [FakeFileList.entries] and the local file system
    stay as they were. *)
Theorem ls_print_mode_only_prints
    (sizeof_fmt : Z -> string) (sys : Platform) (fuel : nat) (args : Args) (w : World) :
  opt_truthy (pushFilesToQueue args) = false ->
  only_printed w (snd (ls sizeof_fmt sys fuel args w)).
Proof.
  intros Hq. revert w. change (stays only_printed (ls sizeof_fmt sys fuel args)).
  unfold ls. apply stays_bind; [apply only_printed_trans | apply connect_only_prints|].
  intros dbx. apply stays_bind; [apply only_printed_trans | apply stays_lift, only_printed_refl|].
  intros page. apply ls_loop_only_prints.
  now destruct (String.eqb (path args) "/").
Qed.

Lemma other_queues_refl (name : string) (w : World) : other_queues name w w.
Proof. intros other _. reflexivity. Qed.

Lemma other_queues_trans (name : string) (a b c : World) :
  other_queues name a b -> other_queues name b c -> other_queues name a c.
Proof. intros H1 H2 other Hne. now rewrite H2, H1. Qed.

Lemma only_queue_other (name : string) (w w' : World) :
  only_queue name w w' -> other_queues name w w'.
Proof. now intros (_ & _ & H). Qed.

Lemma keeps_disk_other {A} (name : string) (m : M A) :
  keeps_disk m -> stays (other_queues name) m.
Proof. intros H w other _. now rewrite H. Qed.

Lemma bind_returns {A B} (m : M A) (k : A -> M B) (w : World) (b : B) :
  fst (bind m k w) = Ok b ->
  exists a w', m w = (Ok a, w') /\ fst (k a w') = Ok b.
Proof.
  unfold bind. destruct (m w) as [[a|e|c|] w']; try discriminate.
  intros H. now exists a, w'.
Qed.

(** The namespace [copy_dropbox_file] hands back is the one it was given,
    but for [src_path]. *)
Lemma copy_returns_args (sys : Platform) (args a : Args) (entry : pyobj)
    (dbx : Dropbox) (w : World) :
  fst (copy_dropbox_file sys args entry dbx w) = Ok a ->
  a = args \/ a = normalized args.
Proof.
  unfold copy_dropbox_file.
  destruct (negb (truthy (getattr_default entry "size" PNone))).
  - intros H. apply bind_returns in H as (pd & w1 & _ & H).
    destruct pd; try discriminate.
    apply bind_returns in H as (_ & w2 & _ & H). injection H as <-. now left.
  - intros H. apply bind_returns in H as (pd & w1 & _ & H).
    apply bind_returns in H as (p & w2 & _ & H).
    destruct (any_startswith p (excludePaths args)).
    + apply bind_returns in H as (_ & w3 & _ & H). injection H as <-. now left.
    + fold (normalized args) in H.
      repeat (apply bind_returns in H as (? & ? & _ & H)).
      injection H as <-. now right.
Qed.

Lemma pull_normalized (args : Args) :
  pullFilesFromQueue (normalized args) = pullFilesFromQueue args.
Proof. unfold normalized. now destruct (String.eqb (src_path args) "/"). Qed.

Lemma get_from_queue_other_queues (sys : Platform) (dbx : Dropbox) (fuel : nat) :
  forall args,
    stays (other_queues (opt_str (pullFilesFromQueue args)))
          (get_from_queue sys fuel args dbx).
Proof.
  induction fuel as [|fuel IH]; intros args; cbn [get_from_queue].
  - apply stays_out_of_fuel, other_queues_refl.
  - set (name := opt_str (pullFilesFromQueue args)).
    apply (stays_bind_post _ (fun q => q_name q = name));
      [apply other_queues_trans
      | apply (stays_weaken (only_queue name));
        [apply only_queue_other | apply queue_open_only_queue]
      | intros w a [= <-]; reflexivity |].
    intros q Hq.
    apply (stays_bind_post _ (fun pq => q_name (snd pq) = name));
      [apply other_queues_trans | | |].
    + apply (stays_weaken (only_queue name)); [apply only_queue_other|].
      rewrite <- Hq. apply queue_pop_only_queue.
    + intros w r H. rewrite <- Hq. exact (queue_pop_name _ _ _ H).
    + intros [[entry|] q'] Hq'; cbn [fst snd] in *;
        [|apply stays_ret, other_queues_refl].
      destruct (String.eqb entry ""); [apply stays_ret, other_queues_refl|].
      apply stays_bind; [apply other_queues_trans | |].
      * apply keeps_disk_other. unfold parse_work_item, decode, json_loads,
          namedtuple_of_dict.
        repeat first
          [ apply keeps_disk_ret | apply keeps_disk_raise
          | apply keeps_disk_bind; [|intros ?]
          | match goal with
            | |- keeps_disk (if ?b then _ else _) => destruct b
            | |- keeps_disk (match ?x with _ => _ end) => destruct x
            end ].
      * intros parsed.
        apply (stays_bind_post _
                 (fun a => pullFilesFromQueue a = pullFilesFromQueue args));
          [apply other_queues_trans
          | apply keeps_disk_other, keeps_disk_copy | |].
        -- intros w a H. destruct (copy_returns_args _ _ _ _ _ _ H) as [->| ->];
             [reflexivity | apply pull_normalized].
        -- intros args' Ha. apply stays_bind; [apply other_queues_trans | |].
           ++ apply (stays_weaken (only_queue name)); [apply only_queue_other|].
              rewrite <- Hq'. apply queue_close_only_queue.
           ++ intros _. subst name. rewrite <- Ha. apply IH.
Qed.

Lemma keeps_disk_for_each {A S} (l : list A) (body : S -> A -> M S) :
  (forall s x, keeps_disk (body s x)) -> forall s, keeps_disk (for_each l s body).
Proof.
  intros Hb. induction l as [|x l IH]; intros s; cbn [for_each].
  - apply keeps_disk_ret.
  - apply keeps_disk_bind; [apply Hb | apply IH].
Qed.

Lemma keeps_disk_get_direct (sys : Platform) (dbx : Dropbox) (fuel : nat) :
  forall args, keeps_disk (get_direct sys fuel args dbx).
Proof.
  induction fuel as [|fuel IH]; intros args; cbn [get_direct].
  - intros w. reflexivity.
  - apply keeps_disk_bind; [apply keeps_disk_lift|]. intros page.
    apply keeps_disk_bind.
    + apply keeps_disk_for_each. intros a e. apply keeps_disk_copy.
    + intros args'. destruct (has_more page); [|apply keeps_disk_ret].
      apply keeps_disk_bind; [apply keeps_disk_lift|]. intros _. apply IH.
Qed.

Lemma keeps_disk_connect (sys : Platform) (args : Args) :
  keeps_disk (connect_to_dropbox sys args).
Proof. intros w. apply (connect_only_prints sys args w). Qed.

(** X3.  Without [--pullFilesFromQueue], [get] never touches a queue:
    whatever the remote holds and however the run ends, every persisted
    queue is as it was. *)
Theorem get_direct_mode_keeps_queues
    (sys : Platform) (fuel : nat) (args : Args) (w : World) :
  opt_truthy (pullFilesFromQueue args) = false ->
  disk (snd (get sys fuel args w)) = disk w.
Proof.
  intros Hq. revert w. change (keeps_disk (get sys fuel args)).
  unfold get. apply keeps_disk_bind; [apply keeps_disk_connect|].
  intros dbx. rewrite Hq.
  apply keeps_disk_bind; [apply keeps_disk_connect|].
  intros dbx'. apply keeps_disk_get_direct.
Qed.

Lemma qlib_open_others (name : string) :
  stays (other_queues name) (Queuelib.queue_open name).
Proof.
  intros w other Hne. cbn. now rewrite lookup_insert_ne by congruence.
Qed.

Lemma qlib_close_others (q : Queuelib.FifoDiskQueue) :
  stays (other_queues (Queuelib.q_name q)) (Queuelib.queue_close q).
Proof.
  intros w other Hne. unfold Queuelib.queue_close. cbn [snd disk set_disk].
  destruct (Nat.eqb (Queuelib.queue_len q) 0).
  - now rewrite lookup_delete_ne by congruence.
  - now rewrite lookup_insert_ne by congruence.
Qed.

Lemma keeps_disk_qlib_loop (fuel : nat) :
  forall q, keeps_disk (Queuelib.get_files_in_queue_loop fuel FakeFileList_new q).
Proof.
  induction fuel as [|fuel IH]; intros q; cbn [Queuelib.get_files_in_queue_loop].
  - intros w. reflexivity.
  - apply keeps_disk_bind.
    + unfold Queuelib.queue_pop. destruct (Queuelib.q_items q); apply keeps_disk_ret.
    + intros [[file|] q']; cbn [fst snd]; [|apply keeps_disk_ret].
      destruct (String.eqb file ""); [apply keeps_disk_ret|].
      apply keeps_disk_bind.
      * unfold decode. destruct (bytes_decode file);
          [apply keeps_disk_ret | apply keeps_disk_raise].
      * intros text. apply keeps_disk_bind; [intros w; reflexivity|].
        intros _. apply IH.
Qed.

Lemma keeps_disk_qlib_files (fuel : nat) (q : Queuelib.FifoDiskQueue) :
  keeps_disk (Queuelib.get_files_in_queue fuel q).
Proof.
  unfold Queuelib.get_files_in_queue. destruct (negb (Queuelib.queue_truthy q)).
  - apply keeps_disk_bind; [apply keeps_disk_print|]. intros _. apply keeps_disk_ret.
  - apply keeps_disk_qlib_loop.
Qed.

Lemma qlib_files_handle (fuel : nat) (q : Queuelib.FifoDiskQueue) (w : World)
    (r : FakeFileList * Queuelib.FifoDiskQueue) :
  fst (Queuelib.get_files_in_queue fuel q w) = Ok r ->
  Queuelib.q_name (snd r) = Queuelib.q_name q.
Proof.
  unfold Queuelib.get_files_in_queue. destruct (negb (Queuelib.queue_truthy q)).
  - now intros [= <-].
  - apply qlib_files_name.
Qed.

Lemma qlib_peek_others (fuel : nat) (args : Args) :
  stays (other_queues (opt_str (queueName args))) (Queuelib.peek fuel args).
Proof.
  unfold Queuelib.peek. set (name := opt_str (queueName args)).
  destruct (negb (opt_truthy (queueName args)));
    [apply stays_ret, other_queues_refl|].
  apply (stays_bind_post _ (fun q => Queuelib.q_name q = name));
    [apply other_queues_trans | apply qlib_open_others
    | intros w a [= <-]; reflexivity |].
  intros q Hq.
  apply (stays_bind_post _ (fun fq => Queuelib.q_name (snd fq) = name));
    [apply other_queues_trans | apply keeps_disk_other, keeps_disk_qlib_files
    | intros w r H; rewrite <- Hq; exact (qlib_files_handle _ _ _ _ H) |].
  intros fq Hfq.
  apply stays_bind; [apply other_queues_trans | |].
  - apply keeps_disk_other. intros w. reflexivity.
  - intros es. apply stays_bind; [apply other_queues_trans | |].
    + apply keeps_disk_other, keeps_disk_for_each. intros s file.
      unfold json_loads, subscript.
      repeat first
        [ apply keeps_disk_ret | apply keeps_disk_raise | apply keeps_disk_print
        | apply keeps_disk_bind; [|intros ?]
        | match goal with
          | |- keeps_disk (match ?x with _ => _ end) => destruct x
          end ].
    + intros _. destruct (flush args); [|apply stays_ret, other_queues_refl].
      rewrite <- Hfq. apply qlib_close_others.
Qed.

(** X11.  Each command changes no queue but the one named on its command
    line, however it ends: what every other queue holds after [ls],
    [peek] or [get] is what it held before. *)
Theorem commands_leave_other_queues
    (sizeof_fmt : Z -> string) (sys : Platform) (fuel : nat) (args : Args) (w : World) :
  other_queues (opt_str (pushFilesToQueue args)) w (snd (ls sizeof_fmt sys fuel args w))
  /\ other_queues (opt_str (queueName args)) w (snd (Queuelib.peek fuel args w))
  /\ other_queues (opt_str (pullFilesFromQueue args)) w (snd (get sys fuel args w)).
Proof.
  split; [|split].
  - apply only_queue_other. revert w.
    change (stays (only_queue (opt_str (pushFilesToQueue args)))
                  (ls sizeof_fmt sys fuel args)).
    unfold ls. apply stays_bind; [apply only_queue_trans | |].
    + apply (stays_weaken only_printed);
        [apply only_printed_queue | apply connect_only_prints].
    + intros dbx. apply stays_bind;
        [apply only_queue_trans | apply stays_lift, only_queue_refl|].
      intros page.
      replace (pushFilesToQueue args)
        with (pushFilesToQueue
                (if String.eqb (path args) "/" then set_path args "" else args))
        by (now destruct (String.eqb (path args) "/")).
      apply ls_loop_only_queue.
  - apply qlib_peek_others.
  - revert w.
    change (stays (other_queues (opt_str (pullFilesFromQueue args)))
                  (get sys fuel args)).
    unfold get. apply stays_bind; [apply other_queues_trans | |].
    + apply keeps_disk_other, keeps_disk_connect.
    + intros dbx. destruct (opt_truthy (pullFilesFromQueue args)).
      * apply get_from_queue_other_queues.
      * apply keeps_disk_other. apply keeps_disk_bind; [apply keeps_disk_connect|].
        intros dbx'. apply keeps_disk_get_direct.
Qed.

(** ** The listing of [ls], page by page *)

Lemma ls_entry_excluded (sizeof_fmt : Z -> string) (args : Args)
    (queue : option FifoDiskQueue) (entry : pyobj) (w : World) (p : string) :
  getattr entry "path_display" = Some (PStr p) ->
  any_startswith p (excludePaths args) = true ->
  ls_entry sizeof_fmt args queue entry w = (Ok queue, printed w ("Excluding " +:+ p)).
Proof.
  intros Hp Hex. unfold ls_entry.
  rewrite (bind_ok _ _ _ _ _ (getattr_strict_some _ _ _ w Hp)).
  cbn [startswith_method]. unfold bind at 1, ret at 1. now rewrite Hex.
Qed.

Lemma pushed_all_nil (queue : option FifoDiskQueue) : pushed_all queue [] = queue.
Proof. destruct queue as [[n b]|]; cbn; [now rewrite app_nil_r | reflexivity]. Qed.

Lemma ls_entry_listable (sizeof_fmt : Z -> string) (args : Args)
    (queue : option FifoDiskQueue) (entry : pyobj) (w : World) :
  listable entry ->
  ls_entry sizeof_fmt args queue entry w
  = (Ok (pushed_all queue (ls_blobs (excludePaths args) entry)),
     printed w (ls_line sizeof_fmt (excludePaths args) entry)).
Proof.
  intros [e p Hp Hs | e p n sm cm Hp Hs Hsm Hcm];
    unfold ls_line, ls_blobs, entry_path; rewrite Hp;
    destruct (any_startswith p (excludePaths args)) eqn:Hex.
  - rewrite pushed_all_nil. now apply ls_entry_excluded.
  - rewrite Hs, pushed_all_nil. now apply (ls_entry_listed _ _ _ _ _ p).
  - rewrite pushed_all_nil. now apply ls_entry_excluded.
  - rewrite Hs, Hsm, Hcm. destruct queue as [q|].
    + now apply ls_entry_pushed.
    + unfold ls_entry.
      rewrite (bind_ok _ _ _ _ _ (getattr_strict_some _ _ _ w Hp)).
      cbn [startswith_method]. unfold bind at 1, ret at 1. rewrite Hex.
      rewrite (getattr_default_some _ _ (PInt 0) _ Hs).
      unfold listing_line. rewrite Hs. reflexivity.
Qed.

Lemma for_each_listable (sizeof_fmt : Z -> string) (args : Args) (es : list pyobj) :
  Forall listable es ->
  forall queue w,
    for_each es queue (ls_entry sizeof_fmt args) w
    = (Ok (pushed_all queue (flat_map (ls_blobs (excludePaths args)) es)),
       set_stdout w (stdout w ++ map (ls_line sizeof_fmt (excludePaths args)) es)).
Proof.
  induction 1 as [|e es He Hes IH]; intros queue w; cbn [for_each flat_map map].
  - rewrite pushed_all_nil. unfold ret, set_stdout.
    now rewrite app_nil_r, world_eta.
  - rewrite (bind_ok _ _ _ _ _ (ls_entry_listable _ _ _ _ _ He)), IH.
    f_equal.
    + f_equal. destruct queue as [q|]; cbn; [now rewrite app_assoc | reflexivity].
    + unfold printed, set_stdout. cbn. now rewrite <- app_assoc.
Qed.

Lemma listed_app (sizeof_fmt : Z -> string) (args : Args) (w : World)
    (es1 es2 : list pyobj) :
  listed sizeof_fmt args (listed sizeof_fmt args w es1) es2
  = listed sizeof_fmt args w (es1 ++ es2).
Proof.
  unfold listed, stored. cbn [stdout disk FakeFileList_entries dirs files].
  rewrite map_app, flat_map_app.
  destruct (opt_truthy (pushFilesToQueue args)).
  - rewrite lookup_insert_eq, insert_insert_eq. cbn [default from_option id].
    now rewrite <- !app_assoc.
  - now rewrite <- !app_assoc.
Qed.

(** One page: the queue opened, the entries listed, the handle closed. *)
Lemma ls_page (sizeof_fmt : Z -> string) (args : Args) (es : list pyobj) (w : World) :
  Forall listable es ->
  (queue <- (if opt_truthy (pushFilesToQueue args)
             then q <- get_queue (opt_str (pushFilesToQueue args)) ;; ret (Some q)
             else ret None) ;;
   queue <- for_each es queue (ls_entry sizeof_fmt args) ;;
   close_if_queue queue) w
  = (Ok tt, listed sizeof_fmt args w es).
Proof.
  intros Hes. unfold listed.
  destruct (opt_truthy (pushFilesToQueue args)).
  - unfold bind at 1. unfold bind at 1, get_queue, queue_open, ret at 1.
    rewrite (bind_ok _ _ _ _ _ (for_each_listable _ _ _ Hes _ _)).
    cbn [pushed_all close_if_queue queue_truthy q_name q_buffer app].
    unfold queue_close, stored, set_disk, set_stdout.
    cbn [stdout disk FakeFileList_entries dirs files q_name q_buffer].
    now rewrite lookup_insert_eq, insert_insert_eq.
  - unfold bind at 1, ret at 1.
    rewrite (bind_ok _ _ _ _ _ (for_each_listable _ _ _ Hes _ _)).
    reflexivity.
Qed.

Lemma open_if_named (args : Args) (w : World) :
  (if opt_truthy (pushFilesToQueue args)
   then q <- get_queue (opt_str (pushFilesToQueue args)) ;; ret (Some q)
   else ret None) w
  = (Ok (if opt_truthy (pushFilesToQueue args)
         then Some (mk_queue (opt_str (pushFilesToQueue args)) [])
         else None),
     if opt_truthy (pushFilesToQueue args)
     then set_disk w (<[opt_str (pushFilesToQueue args)
                        := stored w (opt_str (pushFilesToQueue args))]> (disk w))
     else w).
Proof. now destruct (opt_truthy (pushFilesToQueue args)). Qed.

Lemma ls_loop_listing (sizeof_fmt : Z -> string) (args : Args) (dbx : Dropbox)
    (page : ListFolderResult) (pages : list ListFolderResult) :
  listing dbx page pages ->
  forall fuel w,
    Forall listable (concat (map entries pages)) ->
    (length pages <= fuel)%nat ->
    ls_loop sizeof_fmt fuel args dbx page w
    = (Ok tt, listed sizeof_fmt args w (concat (map entries pages))).
Proof.
  induction 1 as [page Hlast | page next rest Hmore Hnext Hrest IH];
    intros fuel w Hall Hfuel;
    (destruct fuel as [|fuel]; [cbn in Hfuel; lia|]);
    cbn [map concat] in Hall; apply Forall_app in Hall as [Hpage Hall];
    cbn [ls_loop map concat];
    pose proof (ls_page sizeof_fmt args (entries page) w Hpage) as Hp;
    rewrite (bind_ok _ _ _ _ _ (open_if_named args w)) in Hp;
    rewrite (bind_ok _ _ _ _ _ (open_if_named args w));
    rewrite (bind_ok _ _ _ _ _ (for_each_listable _ _ _ Hpage _ _)) in Hp;
    rewrite (bind_ok _ _ _ _ _ (for_each_listable _ _ _ Hpage _ _)).
  - rewrite Hlast, app_nil_r. exact Hp.
  - rewrite Hmore, Hnext. cbn [lift]. unfold bind at 1, ret at 1.
    rewrite (bind_ok _ _ _ _ _ Hp).
    rewrite IH; [now rewrite listed_app | assumption |].
    cbn in Hfuel. lia.
Qed.

(** X1.  When the connection succeeds and the remote answers the listing
    of the path in pages, [ls] goes through every page in turn and stops
    after the first one without [has_more]: the lines of all entries are
    printed in listing order and, with [--pushFilesToQueue], the blobs of
    the files that are not excluded are appended to the queue in the same
    order; nothing else changes. *)
Theorem ls_lists_every_page
    (sizeof_fmt : Z -> string) (sys : Platform) (fuel : nat) (args : Args)
    (w w0 : World) (dbx : Dropbox) (page : ListFolderResult)
    (pages : list ListFolderResult) :
  connect_to_dropbox sys args w = (Ok dbx, w0) ->
  files_list_folder dbx (ls_path args) (r args) = inr page ->
  listing dbx page pages ->
  Forall listable (concat (map entries pages)) ->
  (length pages <= fuel)%nat ->
  ls sizeof_fmt sys fuel args w
  = (Ok tt, listed sizeof_fmt args w0 (concat (map entries pages))).
Proof.
  intros Hconn Hpage Hlist Hall Hfuel. unfold ls.
  rewrite (bind_ok _ _ _ _ _ Hconn).
  assert (Hpath : path (if String.eqb (path args) "/" then set_path args "" else args)
                  = ls_path args).
  { unfold ls_path. now destruct (String.eqb (path args) "/"). }
  assert (Hr : r (if String.eqb (path args) "/" then set_path args "" else args)
               = r args)
    by now destruct (String.eqb (path args) "/").
  rewrite Hpath, Hr, Hpage. cbn [lift]. unfold bind at 1, ret at 1.
  rewrite (ls_loop_listing _ _ _ _ _ Hlist) by assumption.
  f_equal. unfold listed. now destruct (String.eqb (path args) "/").
Qed.

Lemma ls_lists_every_page_witness :
  ls sizeof_fmt_bytes (example_sys two_pages) 2 ls_root_args out_world
  = (Ok tt,
     listed sizeof_fmt_bytes ls_root_args
       (printed out_world ("Connected to Dropbox as user@example.com"
                           +:+ newline +:+ newline))
       (concat (map entries [mk_page [remote_file "/a.txt" 3] true "c1";
                             mk_page [remote_file "/b.txt" 5] false ""]))).
Proof.
  apply (ls_lists_every_page sizeof_fmt_bytes (example_sys two_pages) 2 ls_root_args
           out_world _ two_pages (mk_page [remote_file "/a.txt" 3] true "c1")).
  - reflexivity.
  - reflexivity.
  - apply listing_more with (next := mk_page [remote_file "/b.txt" 5] false "").
    + reflexivity.
    + reflexivity.
    + apply listing_last. reflexivity.
  - repeat constructor;
      eapply listable_file; reflexivity.
  - simpl. lia.
Defined.

(** ** Connecting *)

Lemma connect_refused (sys : Platform) (args : Args) (msg : string) (w : World) :
  connection_refused sys args msg ->
  connect_to_dropbox sys args w = (Exited 1, printed w msg).
Proof.
  intros [Htok | err Htok Hlogin]; unfold connect_to_dropbox;
    fold (effective_token sys args); rewrite Htok; cbn [negb].
  - reflexivity.
  - apply bind_exited. unfold try_except, lift. rewrite Hlogin. reflexivity.
Qed.

(** X4.  When there is no token on the command line or in the
    environment, or the service refuses the login, [ls] and [get] print the
    reason and leave through [sys.exit(1)]: no listing is requested, and
    nothing but standard output has changed. *)
Theorem refused_connection_exits
    (sizeof_fmt : Z -> string) (sys : Platform) (fuel : nat) (args : Args)
    (w : World) (msg : string) :
  connection_refused sys args msg ->
  ls sizeof_fmt sys fuel args w = (Exited 1, printed w msg)
  /\ get sys fuel args w = (Exited 1, printed w msg).
Proof.
  intros H. split; [unfold ls | unfold get];
    apply bind_exited; now apply connect_refused.
Qed.

Lemma refused_connection_exits_witness :
  ls sizeof_fmt_bytes (mk_platform (Some "") (fun _ => inr (two_pages, "x")) utc_timestamp)
     3 ls_root_args out_world
  = (Exited 1, printed out_world token_hint)
  /\ get (mk_platform (Some "") (fun _ => inr (two_pages, "x")) utc_timestamp)
         3 ls_root_args out_world
     = (Exited 1, printed out_world token_hint).
Proof.
  apply (refused_connection_exits sizeof_fmt_bytes
           (mk_platform (Some "") (fun _ => inr (two_pages, "x")) utc_timestamp)
           3 ls_root_args out_world token_hint).
  apply refused_no_token. reflexivity.
Defined.

(** ** Queued and live entries *)

Lemma bind_ext {A B} (m : M A) (k k' : A -> M B) (w : World) :
  (forall a w', k a w' = k' a w') -> bind m k w = bind m k' w.
Proof.
  intros H. unfold bind. destruct (m w) as [[a|e|c|] w']; try reflexivity. apply H.
Qed.

Lemma try_except_ext {A} (m m' : M A) (h : exn -> M A) (w : World) :
  m w = m' w -> try_except m h w = try_except m' h w.
Proof. intros H. unfold try_except. now rewrite H. Qed.

(** The times are read the same from the entry and from its Work Item:
    what [json_serial] wrote, the pattern of [copy_dropbox_file] reads
    back. *)
Lemma set_times_of_item (sys : Platform) (entry : pyobj) (dest p : string) (n : Z)
    (sm cm : datetime) (w : World) :
  getattr entry "server_modified" = Some (PDatetime sm) ->
  getattr entry "client_modified" = Some (PDatetime cm) ->
  valid_datetime sm = true ->
  valid_datetime cm = true ->
  set_times sys (item_dict (mk_item p n (isoformat sm) (isoformat cm))) dest w
  = set_times sys entry dest w.
Proof.
  intros Hsm Hcm Vsm Vcm. unfold set_times.
  rewrite (bind_ok _ _ _ _ _ (getattr_strict_some _ _ _ w Hsm)).
  rewrite (bind_ok _ _ _ _ _ (getattr_strict_some _ _ _ w Hcm)).
  rewrite (bind_ok _ _ w w (PStr (isoformat sm)) eq_refl).
  rewrite (bind_ok _ _ w w (PStr (isoformat cm)) eq_refl).
  unfold strptime_call. now rewrite !strptime_isoformat.
Qed.

(** [copy_dropbox_file] on an entry the skip rule or the exclusion rule
    stops. *)
Lemma copy_not_transferred
    (sys : Platform) (args : Args) (entry : pyobj) (dbx : Dropbox)
    (w : World) (p : string) :
  getattr entry "path_display" = Some (PStr p) ->
  truthy (getattr_default entry "size" PNone) = false
  \/ any_startswith p (excludePaths args) = true ->
  copy_dropbox_file sys args entry dbx w = (Ok args, printed w (skip_line entry p)).
Proof.
  intros Hp H. unfold copy_dropbox_file, skip_line.
  destruct (truthy (getattr_default entry "size" PNone)); cbn [negb]; cbv iota;
    rewrite (bind_ok _ _ _ _ _ (getattr_strict_some _ _ _ w Hp)).
  - destruct H as [H|Hex]; [discriminate|].
    cbn [startswith_method]. unfold bind at 1, ret at 1. now rewrite Hex.
  - reflexivity.
Qed.

(** The Work Item of a file against the file itself, under
    [copy_dropbox_file]. *)
Lemma item_transfers_as_entry
    (sys : Platform) (args : Args) (entry : pyobj) (dbx : Dropbox) (w : World)
    (p : string) (n : Z) (sm cm : datetime) :
  getattr entry "path_display" = Some (PStr p) ->
  getattr entry "size" = Some (PInt n) ->
  getattr entry "server_modified" = Some (PDatetime sm) ->
  getattr entry "client_modified" = Some (PDatetime cm) ->
  valid_datetime sm = true ->
  valid_datetime cm = true ->
  copy_dropbox_file sys args
    (item_dict (mk_item p n (isoformat sm) (isoformat cm))) dbx w
  = copy_dropbox_file sys args entry dbx w.
Proof.
  intros Hp Hs Hsm Hcm Vsm Vcm.
  set (item := item_dict (mk_item p n (isoformat sm) (isoformat cm))).
  assert (Hp' : getattr item "path_display" = Some (PStr p)) by reflexivity.
  assert (Hs' : getattr_default item "size" PNone = PInt n) by reflexivity.
  pose proof (getattr_default_some _ _ PNone _ Hs) as Hs''.
  assert (Hline : skip_line item p = skip_line entry p).
  { unfold skip_line. now rewrite Hs', Hs''. }
  destruct (truthy (PInt n)) eqn:Hn;
    [destruct (any_startswith p (excludePaths args)) eqn:Hex|].
  - rewrite (copy_not_transferred sys args item dbx w p Hp' (or_intror Hex)),
      (copy_not_transferred sys args entry dbx w p Hp (or_intror Hex)).
    now rewrite Hline.
  - rewrite (copy_dropbox_file_steps sys args item dbx w p),
      (copy_dropbox_file_steps sys args entry dbx w p);
      try assumption; try (rewrite Hs'; assumption); try (rewrite Hs''; assumption).
    apply bind_ext. intros _ w1. apply bind_ext. intros _ w2.
    apply bind_ext. intros _ w3. unfold bind.
    rewrite (try_except_ext _ (set_times sys entry (dest_path args +:+ p)));
      [reflexivity|].
    now apply set_times_of_item.
  - rewrite (copy_not_transferred sys args item dbx w p Hp'),
      (copy_not_transferred sys args entry dbx w p Hp).
    + now rewrite Hline.
    + left. now rewrite Hs''.
    + left. now rewrite Hs'.
Qed.

(** X5.  Transferring the Work Item that [ls] queues for a file has the
    same outcome, in every world, as transferring the live entry: the
    item carries the path and the size, and the ISO texts written by
    [json_serial] are read back to the same times. *)
Theorem queued_transfer_equals_live
    (sys : Platform) (args : Args) (entry : pyobj) (dbx : Dropbox) (w : World)
    (p : string) (n : Z) (sm cm : datetime) :
  getattr entry "path_display" = Some (PStr p) ->
  getattr entry "size" = Some (PInt n) ->
  getattr entry "server_modified" = Some (PDatetime sm) ->
  getattr entry "client_modified" = Some (PDatetime cm) ->
  valid_datetime sm = true ->
  valid_datetime cm = true ->
  copy_dropbox_file sys args
    (item_dict (mk_item p n (isoformat sm) (isoformat cm))) dbx w
  = copy_dropbox_file sys args entry dbx w.
Proof. apply item_transfers_as_entry. Qed.

Lemma queued_transfer_equals_live_witness :
  copy_dropbox_file (example_sys two_pages) queue_args
    (item_dict (mk_item "/a.txt" 3 (isoformat example_time) (isoformat example_time)))
    two_pages out_world
  = copy_dropbox_file (example_sys two_pages) queue_args (remote_file "/a.txt" 3)
      two_pages out_world.
Proof.
  apply (queued_transfer_equals_live (example_sys two_pages) queue_args
           (remote_file "/a.txt" 3) two_pages out_world "/a.txt" 3
           example_time example_time); reflexivity.
Defined.

(** ** Edges of the drain loops *)

(** X6.  A blob of no bytes counts as "no item" and is never got past:
    when the head of the queue is the empty blob, [get] in queue mode
    returns at once, printing and transferring nothing, and
    [get_files_in_queue] returns without listing anything; neither closes
    the handle, so the queue is as it was, the empty blob at its head, and
    the next run ends the same way. *)
Theorem empty_blob_blocks_queue
    (sys : Platform) (fuel : nat) (args : Args) (dbx : Dropbox) (w : World)
    (rest : list string) :
  stored w (opt_str (pullFilesFromQueue args)) = "" :: rest ->
  (fst (Queuelib.get_from_queue sys (S fuel) args dbx w) = Ok tt
   /\ stdout (snd (Queuelib.get_from_queue sys (S fuel) args dbx w)) = stdout w
   /\ stored (snd (Queuelib.get_from_queue sys (S fuel) args dbx w))
        (opt_str (pullFilesFromQueue args)) = "" :: rest)
  /\ (fst ((q <- Queuelib.get_queue (opt_str (pullFilesFromQueue args)) ;;
            Queuelib.get_files_in_queue (S fuel) q) w)
      = Ok (FakeFileList_new,
            Queuelib.mk_queue (opt_str (pullFilesFromQueue args)) rest)
      /\ stdout (snd ((q <- Queuelib.get_queue (opt_str (pullFilesFromQueue args)) ;;
                       Queuelib.get_files_in_queue (S fuel) q) w)) = stdout w
      /\ FakeFileList_entries
           (snd ((q <- Queuelib.get_queue (opt_str (pullFilesFromQueue args)) ;;
                  Queuelib.get_files_in_queue (S fuel) q) w))
         = FakeFileList_entries w
      /\ stored (snd ((q <- Queuelib.get_queue (opt_str (pullFilesFromQueue args)) ;;
                       Queuelib.get_files_in_queue (S fuel) q) w))
           (opt_str (pullFilesFromQueue args)) = "" :: rest).
Proof.
  intros Hq. set (name := opt_str (pullFilesFromQueue args)) in *.
  assert (Hs : stored (set_disk w (<[name := "" :: rest]> (disk w))) name = "" :: rest).
  { unfold stored. cbn [disk set_disk]. now rewrite lookup_insert_eq. }
  assert (Eg : Queuelib.get_from_queue sys (S fuel) args dbx w
               = (Ok tt, set_disk w (<[name := "" :: rest]> (disk w)))).
  { cbn [Queuelib.get_from_queue]. fold name.
    unfold bind at 1, Queuelib.get_queue, Queuelib.queue_open. rewrite Hq.
    now rewrite (bind_ok _ _ _ _ _ (qlib_pop_cons _ _ _ _)). }
  assert (Ef : (q <- Queuelib.get_queue name ;; Queuelib.get_files_in_queue (S fuel) q) w
               = (Ok (FakeFileList_new, Queuelib.mk_queue name rest),
                  set_disk w (<[name := "" :: rest]> (disk w)))).
  { unfold bind at 1, Queuelib.get_queue, Queuelib.queue_open. rewrite Hq.
    unfold Queuelib.get_files_in_queue, Queuelib.queue_truthy, Queuelib.queue_len.
    cbn [Queuelib.q_items length Nat.eqb negb Queuelib.get_files_in_queue_loop].
    now rewrite (bind_ok _ _ _ _ _ (qlib_pop_cons _ _ _ _)). }
  rewrite Eg, Ef. cbn [fst snd]. repeat split; exact Hs.
Qed.

Lemma empty_blob_blocks_queue_witness :
  (fst (Queuelib.get_from_queue (example_sys two_pages) 3 queue_args two_pages
          (set_disk out_world {[ "q" := [""; item_blob item_a] ]})) = Ok tt
   /\ stdout (snd (Queuelib.get_from_queue (example_sys two_pages) 3 queue_args two_pages
                     (set_disk out_world {[ "q" := [""; item_blob item_a] ]})))
      = stdout (set_disk out_world {[ "q" := [""; item_blob item_a] ]})
   /\ stored (snd (Queuelib.get_from_queue (example_sys two_pages) 3 queue_args two_pages
                     (set_disk out_world {[ "q" := [""; item_blob item_a] ]})))
        (opt_str (pullFilesFromQueue queue_args)) = "" :: [item_blob item_a])
  /\ (fst ((q <- Queuelib.get_queue (opt_str (pullFilesFromQueue queue_args)) ;;
            Queuelib.get_files_in_queue 3 q)
             (set_disk out_world {[ "q" := [""; item_blob item_a] ]}))
      = Ok (FakeFileList_new,
            Queuelib.mk_queue (opt_str (pullFilesFromQueue queue_args)) [item_blob item_a])
      /\ stdout (snd ((q <- Queuelib.get_queue (opt_str (pullFilesFromQueue queue_args)) ;;
                       Queuelib.get_files_in_queue 3 q)
                        (set_disk out_world {[ "q" := [""; item_blob item_a] ]})))
         = stdout (set_disk out_world {[ "q" := [""; item_blob item_a] ]})
      /\ FakeFileList_entries
           (snd ((q <- Queuelib.get_queue (opt_str (pullFilesFromQueue queue_args)) ;;
                  Queuelib.get_files_in_queue 3 q)
                   (set_disk out_world {[ "q" := [""; item_blob item_a] ]})))
         = FakeFileList_entries (set_disk out_world {[ "q" := [""; item_blob item_a] ]})
      /\ stored (snd ((q <- Queuelib.get_queue (opt_str (pullFilesFromQueue queue_args)) ;;
                       Queuelib.get_files_in_queue 3 q)
                        (set_disk out_world {[ "q" := [""; item_blob item_a] ]})))
           (opt_str (pullFilesFromQueue queue_args)) = "" :: [item_blob item_a]).
Proof.
  apply (empty_blob_blocks_queue (example_sys two_pages) 2 queue_args two_pages
           (set_disk out_world {[ "q" := [""; item_blob item_a] ]}) [item_blob item_a]).
  reflexivity.
Defined.

Lemma loads_no_json_value (s : string) :
  no_json_value s = true -> Json.loads s = None.
Proof.
  unfold no_json_value, Json.loads.
  destruct (Json.skip_ws s) as [|c rest]; [reflexivity|].
  destruct c as [[] [] [] [] [] [] [] []]; intros H;
    first [discriminate H | reflexivity].
Qed.

Lemma peek_prints_until (good : list WorkItem) (bad : string) (others : list string) :
  Json.loads bad = None ->
  forall w,
    for_each (map item_text good ++ bad :: others) tt
      (fun _ file =>
         v <- json_loads file ;;
         p <- subscript v "path_display" ;;
         print (py_str p)) w
    = (Raised (mk_exn JSONDecodeError "Expecting value"),
       set_stdout w (stdout w ++ map wi_path good)).
Proof.
  intros Hbad. induction good as [|it good IH]; intros w; cbn [map app for_each].
  - unfold bind at 1. unfold json_loads, bind at 1. rewrite Hbad. cbn.
    unfold set_stdout. now rewrite app_nil_r, world_eta.
  - unfold bind at 1. unfold json_loads, bind at 1.
    rewrite loads_item_text. cbn. rewrite IH. cbn.
    unfold set_stdout. cbn. now rewrite <- app_assoc.
Qed.

(** X7.  [peek] reads the whole queue before it decodes anything: when an
    item holds no JSON value, every item has been popped from the handle
    and added to [FakeFileList.entries], the paths of the items before the
    bad one are printed, and the run ends in the decoding error.  The
    handle is not closed on that way out, with [--flush] or without, so
    the queue itself holds all its items as before. *)
Theorem peek_reads_all_before_decoding
    (fuel : nat) (args : Args) (name : string) (good : list WorkItem)
    (bad : string) (others : list string) (w : World) :
  queueName args = Some name ->
  name <> "" ->
  stored w name = map str_encode (map item_text good ++ bad :: others) ->
  bad <> "" ->
  Forall (fun t => t <> "") others ->
  no_json_value bad = true ->
  FakeFileList_entries w = [] ->
  (length good + S (length others) < fuel)%nat ->
  exists err,
    exn_type err = JSONDecodeError
    /\ fst (Queuelib.peek fuel args w) = Raised err
    /\ stdout (snd (Queuelib.peek fuel args w)) = stdout w ++ map wi_path good
    /\ FakeFileList_entries (snd (Queuelib.peek fuel args w))
       = map item_text good ++ bad :: others
    /\ stored (snd (Queuelib.peek fuel args w)) name = stored w name.
Proof.
  intros Hname Hne Hst Hbad Hothers Hloads Hent Hfuel.
  apply loads_no_json_value in Hloads.
  exists (mk_exn JSONDecodeError "Expecting value"). split; [reflexivity|].
  set (texts := map item_text good ++ bad :: others) in *.
  assert (E : Queuelib.peek fuel args w
              = (Raised (mk_exn JSONDecodeError "Expecting value"),
                 mk_world (stdout w ++ map wi_path good)
                          (<[name := stored w name]> (disk w))
                          texts (dirs w) (files w))).
  { unfold Queuelib.peek. rewrite Hname.
    cbn [opt_truthy opt_str]. apply String.eqb_neq in Hne. rewrite Hne. cbn [negb].
    unfold bind at 1. unfold Queuelib.get_queue, Queuelib.queue_open at 1.
    rewrite Hst.
    unfold bind at 1. unfold Queuelib.get_files_in_queue, Queuelib.queue_truthy,
      Queuelib.queue_len. cbn [Queuelib.q_items]. rewrite length_map.
    replace (Nat.eqb (length texts) 0) with false
      by (subst texts; rewrite length_app; cbn; symmetry; apply Nat.eqb_neq; lia).
    cbn [negb]. rewrite (qlib_drain_loop texts).
    - cbn [fst snd]. unfold bind at 1, FakeFileList_get_entries at 1.
      cbn [FakeFileList_entries set_FakeFileList_entries set_disk].
      rewrite Hent. cbn [app]. unfold bind at 1. subst texts.
      rewrite (peek_prints_until good bad others Hloads).
      unfold set_stdout. reflexivity.
    - subst texts. apply Forall_app. split.
      + apply Forall_forall. intros t Ht. apply list_elem_of_In in Ht.
        apply in_map_iff in Ht as (it & <- & _). apply item_text_nonempty.
      + now constructor.
    - subst texts. rewrite length_app, length_map. cbn. lia. }
  rewrite E. cbn [fst snd stdout FakeFileList_entries]. repeat split.
  unfold stored at 1. cbn [disk]. now rewrite lookup_insert_eq.
Qed.

Lemma peek_reads_all_before_decoding_witness :
  exists err,
    exn_type err = JSONDecodeError
    /\ fst (Queuelib.peek 4 peek_flush_args
              (set_disk out_world
                 {[ "q" := map str_encode
                             (map item_text [item_a] ++ "queued by mistake"
                                :: [item_text item_b]) ]})) = Raised err
    /\ stdout (snd (Queuelib.peek 4 peek_flush_args
                      (set_disk out_world
                         {[ "q" := map str_encode
                                     (map item_text [item_a] ++ "queued by mistake"
                                        :: [item_text item_b]) ]})))
       = stdout (set_disk out_world
                   {[ "q" := map str_encode
                               (map item_text [item_a] ++ "queued by mistake"
                                  :: [item_text item_b]) ]})
         ++ map wi_path [item_a]
    /\ FakeFileList_entries
         (snd (Queuelib.peek 4 peek_flush_args
                 (set_disk out_world
                    {[ "q" := map str_encode
                                (map item_text [item_a] ++ "queued by mistake"
                                   :: [item_text item_b]) ]})))
       = map item_text [item_a] ++ "queued by mistake" :: [item_text item_b]
    /\ stored (snd (Queuelib.peek 4 peek_flush_args
                      (set_disk out_world
                         {[ "q" := map str_encode
                                     (map item_text [item_a] ++ "queued by mistake"
                                        :: [item_text item_b]) ]}))) "q"
       = stored (set_disk out_world
                   {[ "q" := map str_encode
                               (map item_text [item_a] ++ "queued by mistake"
                                  :: [item_text item_b]) ]}) "q".
Proof.
  apply (peek_reads_all_before_decoding 4 peek_flush_args "q" [item_a]
           "queued by mistake" [item_text item_b]).
  - reflexivity.
  - discriminate.
  - reflexivity.
  - discriminate.
  - repeat constructor. discriminate.
  - reflexivity.
  - reflexivity.
  - simpl. lia.
Defined.

(** X10.  A time that is not a [datetime] stops [ls] only when it has to
    be serialized: with a queue, [ls] prints the line of the entry and then
    raises the [TypeError] of [json_serial], pushing nothing; without a
    queue the entry is listed like any other. *)
Theorem ls_serializes_times_only_for_queue
    (sizeof_fmt : Z -> string) (args : Args) (q : FifoDiskQueue) (entry : pyobj)
    (w : World) (p : string) (n : Z) (v : pyval) :
  getattr entry "path_display" = Some (PStr p) ->
  any_startswith p (excludePaths args) = false ->
  getattr entry "size" = Some (PInt n) ->
  getattr entry "server_modified" = Some v ->
  (forall d, v <> PDatetime d) ->
  (exists msg,
      ls_entry sizeof_fmt args (Some q) entry w
      = (Raised (mk_exn TypeError msg), printed w (listing_line sizeof_fmt entry)))
  /\ ls_entry sizeof_fmt args None entry w
     = (Ok None, printed w (listing_line sizeof_fmt entry)).
Proof.
  intros Hp Hex Hs Hsm Hv. split.
  - eexists. unfold ls_entry.
    rewrite (bind_ok _ _ _ _ _ (getattr_strict_some _ _ _ w Hp)).
    cbn [startswith_method]. unfold bind at 1, ret at 1. rewrite Hex.
    rewrite (getattr_default_some _ _ (PInt 0) _ Hs).
    rewrite (getattr_default_some _ _ PNone _ Hs).
    unfold listing_line. rewrite Hs.
    cbn [sizeof_fmt_call is_not_None]. unfold bind at 1, ret at 1.
    rewrite (bind_ok _ _ _ _ _ (print_eq _ _)).
    rewrite (bind_ok _ _ _ _ _ (getattr_strict_some _ _ _ _ Hp)).
    rewrite (bind_ok _ _ _ _ _ (getattr_strict_some _ _ _ _ Hs)).
    rewrite (bind_ok _ _ _ _ _ (getattr_strict_some _ _ _ _ Hsm)).
    destruct v as [| | |d]; try reflexivity. now contradiction (Hv d).
  - unfold ls_entry.
    rewrite (bind_ok _ _ _ _ _ (getattr_strict_some _ _ _ w Hp)).
    cbn [startswith_method]. unfold bind at 1, ret at 1. rewrite Hex.
    rewrite (getattr_default_some _ _ (PInt 0) _ Hs).
    unfold listing_line. rewrite Hs. reflexivity.
Qed.

Lemma ls_serializes_times_only_for_queue_witness :
  (exists msg,
      ls_entry sizeof_fmt_bytes ls_args (Some (mk_queue "q" [])) mixed_entry out_world
      = (Raised (mk_exn TypeError msg),
         printed out_world (listing_line sizeof_fmt_bytes mixed_entry)))
  /\ ls_entry sizeof_fmt_bytes ls_args None mixed_entry out_world
     = (Ok None, printed out_world (listing_line sizeof_fmt_bytes mixed_entry)).
Proof.
  apply (ls_serializes_times_only_for_queue sizeof_fmt_bytes ls_args (mk_queue "q" [])
           mixed_entry out_world "/a.txt" 3 (PStr "2019-03-07T09:05:59")).
  - reflexivity.
  - reflexivity.
  - reflexivity.
  - reflexivity.
  - discriminate.
Defined.

Lemma ls_print_mode_only_prints_witness :
  only_printed out_world
    (snd (ls sizeof_fmt_bytes (example_sys two_pages) 5 direct_args out_world)).
Proof.
  apply (ls_print_mode_only_prints sizeof_fmt_bytes (example_sys two_pages) 5
           direct_args out_world).
  reflexivity.
Defined.

Lemma get_direct_mode_keeps_queues_witness :
  disk (snd (get (example_sys two_pages) 5 direct_args queue_world)) = disk queue_world.
Proof.
  apply (get_direct_mode_keeps_queues (example_sys two_pages) 5 direct_args queue_world).
  reflexivity.
Defined.

(** ** How a transfer can end *)

Lemma plain_ret {A} (a : A) : plain (ret a).
Proof. intros w. reflexivity. Qed.

Lemma plain_raise {A} (t : exn_kind) (s : string) : plain (@raise A t s).
Proof. intros w. reflexivity. Qed.

Lemma plain_lift {A} (x : exn + A) : plain (lift x).
Proof. intros w. now destruct x. Qed.

Lemma plain_print (s : string) : plain (print s).
Proof. intros w. reflexivity. Qed.

Lemma plain_bind {A B} (m : M A) (k : A -> M B) :
  plain m -> (forall a, plain (k a)) -> plain (bind m k).
Proof.
  intros Hm Hk w. unfold bind. specialize (Hm w).
  destruct (m w) as [[a|e|c|] w']; cbn in *; try assumption. apply Hk.
Qed.

Lemma plain_try {A} (m : M A) (h : exn -> M A) :
  plain m -> (forall e, plain (h e)) -> plain (try_except m h).
Proof.
  intros Hm Hh w. unfold try_except. specialize (Hm w).
  destruct (m w) as [[a|e|c|] w']; cbn in *; try assumption. apply Hh.
Qed.

Lemma plain_mkdir (p : string) : plain (mkdir p).
Proof.
  intros w. unfold mkdir.
  repeat match goal with |- context [if ?b then _ else _] => destruct b end;
    reflexivity.
Qed.

Lemma length_upto_after (p : string) :
  (String.length (upto_last_slash p) + String.length (after_last_slash p)
   = String.length p)%nat.
Proof.
  induction p as [|c p IH]; [reflexivity|].
  cbn [after_last_slash]. destruct (String.eqb (upto_last_slash (String c p)) "") eqn:He.
  - apply String.eqb_eq in He. now rewrite He.
  - cbn [upto_last_slash] in *. destruct (is_slash c).
    + cbn [String.length]. lia.
    + destruct (String.eqb (upto_last_slash p) ""); [discriminate|].
      cbn [String.length]. lia.
Qed.

Lemma length_rstrip_slash (s : string) :
  (String.length (rstrip_slash s) <= String.length s)%nat.
Proof.
  induction s as [|c s IH]; [reflexivity|].
  cbn [rstrip_slash]. destruct (is_slash c && String.eqb (rstrip_slash s) "");
    cbn [String.length]; lia.
Qed.

Lemma length_path_split (p : string) :
  (String.length (fst (path_split p)) + String.length (snd (path_split p))
   <= String.length p)%nat.
Proof.
  unfold path_split. cbn [fst snd].
  pose proof (length_upto_after p). pose proof (length_rstrip_slash (upto_last_slash p)).
  destruct (String.eqb (rstrip_slash (upto_last_slash p)) ""); lia.
Qed.

(** [os.makedirs] goes up one ancestor at a time; each ancestor is
    shorter than the path it was split from. *)
Lemma plain_makedirs_rec (fuel : nat) :
  forall p, (String.length p < fuel)%nat -> plain (makedirs_rec fuel p).
Proof.
  induction fuel as [|fuel IH]; intros p Hlt w; [lia|].
  cbn [makedirs_rec].
  pose proof (length_path_split p) as Hp.
  destruct (path_split p) as [head tail]. cbn [fst snd] in Hp.
  assert (Hh : forall head' tail',
             (if String.eqb tail "" then path_split head else (head, tail))
             = (head', tail') ->
             tail' <> "" -> (String.length head' < fuel)%nat).
  { intros head' tail' E Hne.
    assert (String.length tail' <> 0)%nat by (destruct tail'; cbn; congruence).
    destruct (String.eqb tail "").
    - pose proof (length_path_split head) as Hp'. rewrite E in Hp'.
      cbn [fst snd] in Hp'. lia.
    - injection E as <- <-. lia. }
  destruct (if String.eqb tail "" then path_split head else (head, tail))
    as [head' tail'].
  destruct (negb (String.eqb head' "") && negb (String.eqb tail' "")
            && negb (path_exists w head')) eqn:Hc.
  - apply plain_bind.
    + apply plain_try.
      * apply IH, (Hh head' tail' eq_refl).
        intros ->. rewrite andb_false_r in Hc. discriminate.
      * intros e. destruct (exn_type e); intros w0; reflexivity.
    + intros _. destruct (String.eqb tail' ".");
        [apply plain_ret | apply plain_mkdir].
  - apply plain_mkdir.
Qed.

Lemma plain_make_local_dir (d : string) : plain (make_local_dir d).
Proof.
  intros w. unfold make_local_dir. destruct (negb (path_exists w d)).
  - apply plain_bind; [apply plain_print|].
    intros _. apply plain_makedirs_rec. lia.
  - reflexivity.
Qed.

Lemma plain_download (dbx : Dropbox) (src dest : string) :
  plain (files_download_to_file dbx src dest).
Proof.
  apply plain_bind; [apply plain_lift|].
  intros body w. unfold write_file.
  repeat match goal with |- context [if ?b then _ else _] => destruct b end;
    reflexivity.
Qed.

Lemma plain_utime (p : string) (t : Z * Z) : plain (utime p t).
Proof.
  intros w. unfold utime. destruct (files w !! p); [reflexivity|].
  now destruct (bool_decide (p ∈ dirs w) || is_root p).
Qed.

Lemma plain_set_times (sys : Platform) (entry : pyobj) (dest : string) :
  plain (set_times sys entry dest).
Proof.
  unfold set_times, getattr_strict, strptime_call, timestamp_call.
  repeat (apply plain_bind; [|intros ?]);
    repeat match goal with
      | |- plain (match ?x with _ => _ end) => destruct x
      end;
    auto using plain_ret, plain_raise, plain_lift, plain_utime.
Qed.

(** A [try] block of [copy_dropbox_file]: it returns, or it prints the
    error and leaves with status 1. *)
Lemma try_block_cases {A} (m : M A) (w : World) :
  plain m ->
  (exists a w', try_except m print_and_exit w = (Ok a, w'))
  \/ (exists w', try_except m print_and_exit w = (Exited 1, w')).
Proof.
  intros Hm. specialize (Hm w). unfold try_except.
  destruct (m w) as [[a|e|c|] w']; try discriminate.
  - left. now exists a, w'.
  - right. eexists. apply print_and_exit_eq.
Qed.

(** X9.  On an entry whose path is a string, [copy_dropbox_file] never
    ends in an exception: it returns, or it leaves through [sys.exit(1)];
    whatever goes wrong with the directory, the download or the times is
    printed, not raised. *)
Theorem copy_returns_or_exits_1
    (sys : Platform) (args : Args) (entry : pyobj) (dbx : Dropbox) (w : World)
    (p : string) :
  getattr entry "path_display" = Some (PStr p) ->
  returned_or_exit_1 (fst (copy_dropbox_file sys args entry dbx w)) = true.
Proof.
  intros Hp. unfold copy_dropbox_file.
  destruct (negb (truthy (getattr_default entry "size" PNone)));
    rewrite (bind_ok _ _ _ _ _ (getattr_strict_some _ _ _ w Hp)); [reflexivity|].
  cbn [startswith_method]. unfold bind at 1, ret at 1.
  destruct (any_startswith p (excludePaths args)); [reflexivity|].
  fold (normalized args).
  destruct (try_block_cases
              (make_local_dir (dirname (dest_path (normalized args) +:+ p))) w
              (plain_make_local_dir _)) as [(a1 & w1 & E1)|(w1 & E1)];
    [|now rewrite (bind_exited _ _ _ _ _ E1)].
  rewrite (bind_ok _ _ _ _ _ E1).
  rewrite (bind_ok _ _ _ _ _ (print_eq _ _)).
  destruct (try_block_cases
              (files_download_to_file dbx p (dest_path (normalized args) +:+ p))
              (printed w1 ("Downloading " +:+ p +:+ " to "
                           +:+ (dest_path (normalized args) +:+ p)))
              (plain_download _ _ _)) as [(a2 & w2 & E2)|(w2 & E2)];
    [|now rewrite (bind_exited _ _ _ _ _ E2)].
  rewrite (bind_ok _ _ _ _ _ E2).
  destruct (try_block_cases
              (set_times sys entry (dest_path (normalized args) +:+ p)) w2
              (plain_set_times _ _ _)) as [(a3 & w3 & E3)|(w3 & E3)];
    [|now rewrite (bind_exited _ _ _ _ _ E3)].
  now rewrite (bind_ok _ _ _ _ _ E3).
Qed.

Lemma copy_returns_or_exits_1_witness :
  returned_or_exit_1
    (fst (copy_dropbox_file (example_sys refusing) direct_args (remote_file "/a.txt" 3)
            refusing out_world)) = true.
Proof.
  apply (copy_returns_or_exits_1 (example_sys refusing) direct_args
           (remote_file "/a.txt" 3) refusing out_world "/a.txt").
  reflexivity.
Defined.

(** ** Queue mode comes to an end *)

Lemma plain_halts {A} (m : M A) : plain m -> halts m.
Proof. intros H w. specialize (H w). now destruct (fst (m w)). Qed.

Lemma halts_ret {A} (a : A) : halts (ret a).
Proof. intros w. reflexivity. Qed.

Lemma halts_bind {A B} (m : M A) (k : A -> M B) :
  halts m -> (forall a, halts (k a)) -> halts (bind m k).
Proof.
  intros Hm Hk w. unfold bind. specialize (Hm w).
  destruct (m w) as [[a|e|c|] w']; cbn in *; try assumption. apply Hk.
Qed.

Lemma halts_try_block {A} (m : M A) : plain m -> halts (try_except m print_and_exit).
Proof.
  intros Hm w. destruct (try_block_cases m w Hm) as [(a & w' & E)|(w' & E)];
    now rewrite E.
Qed.

Lemma halts_copy (sys : Platform) (args : Args) (entry : pyobj) (dbx : Dropbox) :
  halts (copy_dropbox_file sys args entry dbx).
Proof.
  unfold copy_dropbox_file, getattr_strict, startswith_method.
  destruct (negb (truthy (getattr_default entry "size" PNone)));
    destruct (getattr entry "path_display") as [[| |p|]|];
    repeat first
      [ apply halts_ret
      | apply plain_halts; first [apply plain_raise | apply plain_print | apply plain_ret]
      | apply halts_try_block;
        first [apply plain_make_local_dir | apply plain_download | apply plain_set_times]
      | apply halts_bind; [|intros ?]
      | match goal with
        | |- halts (if ?b then _ else _) => destruct b
        | |- halts (match ?x with _ => _ end) => destruct x
        end ].
Qed.

Lemma plain_parse_work_item (blob : string) : plain (parse_work_item blob).
Proof.
  unfold parse_work_item, decode, json_loads, namedtuple_of_dict.
  repeat first
    [ apply plain_ret | apply plain_raise
    | apply plain_bind; [|intros ?]
    | match goal with
      | |- plain (if ?b then _ else _) => destruct b
      | |- plain (match ?x with _ => _ end) => destruct x
      end ].
Qed.

Lemma keeps_disk_parse_work_item (blob : string) : keeps_disk (parse_work_item blob).
Proof.
  unfold parse_work_item, decode, json_loads, namedtuple_of_dict.
  repeat first
    [ apply keeps_disk_ret | apply keeps_disk_raise
    | apply keeps_disk_bind; [|intros ?]
    | match goal with
      | |- keeps_disk (if ?b then _ else _) => destruct b
      | |- keeps_disk (match ?x with _ => _ end) => destruct x
      end ].
Qed.

(** X8.  [get] in queue mode comes to an end, whatever the queue holds:
    each turn of its loop pops one item, so a queue of [n] items is done
    within [n + 1] turns (the run returns, raises or exits). *)
Theorem queue_mode_ends
    (sys : Platform) (dbx : Dropbox) (fuel : nat) (args : Args) (w : World) :
  (length (stored w (opt_str (pullFilesFromQueue args))) < fuel)%nat ->
  ended (fst (get_from_queue sys fuel args dbx w)) = true.
Proof.
  revert args w. induction fuel as [|fuel IH]; intros args w Hlt; [lia|].
  cbn [get_from_queue]. set (name := opt_str (pullFilesFromQueue args)) in *.
  unfold bind at 1. unfold get_queue, queue_open.
  unfold bind at 1. unfold queue_pop at 1. cbn [q_name q_buffer].
  unfold stored at 1. cbn [disk set_disk]. rewrite lookup_insert_eq.
  cbn [default from_option id].
  destruct (stored w name) as [|x rest] eqn:Hst; [reflexivity|].
  cbn [fst snd]. destruct (String.eqb x ""); [reflexivity|].
  match goal with |- context [bind _ _ ?w0] => set (w2 := w0) end.
  assert (Hw2 : disk w2 = <[name := rest]> (disk w)).
  { subst w2. cbn. apply insert_insert_eq. }
  unfold bind at 1.
  pose proof (plain_parse_work_item x w2) as Hpl.
  pose proof (keeps_disk_parse_work_item x w2) as Hk3.
  destruct (parse_work_item x w2) as [[parsed|e|c|] w3]; try reflexivity;
    try discriminate.
  cbn [snd] in Hk3. unfold bind at 1.
  pose proof (halts_copy sys args parsed dbx w3) as Hh.
  pose proof (keeps_disk_copy sys args parsed dbx w3) as Hk4.
  pose proof (copy_returns_args sys args) as Ha.
  specialize (fun a => Ha a parsed dbx w3).
  destruct (copy_dropbox_file sys args parsed dbx w3) as [[args'|e|c|] w4];
    try reflexivity; try discriminate.
  cbn [snd] in Hk4. unfold bind at 1, queue_close at 1. cbn [q_name q_buffer].
  assert (Hn : pullFilesFromQueue args' = pullFilesFromQueue args).
  { destruct (Ha args' eq_refl) as [->| ->]; [reflexivity | apply pull_normalized]. }
  apply IH. rewrite Hn. fold name. unfold stored. cbn [disk set_disk].
  rewrite lookup_insert_eq. cbn [default from_option id].
  rewrite Hk4, Hk3, Hw2, lookup_insert_eq. cbn [default from_option id].
  rewrite app_nil_r. cbn [length] in Hlt. lia.
Qed.

Lemma queue_mode_ends_witness :
  ended (fst (get_from_queue (example_sys refusing) 3 queue_args refusing queue_world))
  = true.
Proof.
  apply (queue_mode_ends (example_sys refusing) refusing 3 queue_args queue_world).
  vm_compute. lia.
Defined.

(** ** What a transfer writes *)

Lemma wrote_only_refl (dest : string) (w : World) : wrote_only dest w w.
Proof. unfold wrote_only. repeat split; auto. Qed.

Lemma wrote_only_trans (dest : string) (a b c : World) :
  wrote_only dest a b -> wrote_only dest b c -> wrote_only dest a c.
Proof.
  unfold wrote_only.
  intros (F1 & S1 & D1 & N1 & K1 & E1) (F2 & S2 & D2 & N2 & K2 & E2).
  repeat split; try congruence; auto.
  - intros q Hq. now rewrite F2, F1.
  - intros q Hq. destruct (N2 q Hq) as [H|H]; auto.
Qed.

Lemma nothing_removed_refl (w : World) : nothing_removed w w.
Proof. split; auto. Qed.

Lemma nothing_removed_trans (a b c : World) :
  nothing_removed a b -> nothing_removed b c -> nothing_removed a c.
Proof. intros (D1 & F1) (D2 & F2). split; auto. Qed.

Lemma startswith_refl (s : string) : startswith s s = true.
Proof. induction s as [|c s IH]; cbn; [reflexivity|]. now rewrite Ascii.eqb_refl. Qed.

Lemma startswith_trans (a b c : string) :
  startswith a b = true -> startswith b c = true -> startswith a c = true.
Proof.
  revert a b. induction c as [|x c IH]; intros a b Hab Hbc; [now destruct a|].
  destruct b as [|y b]; [discriminate|]. destruct a as [|z a]; [discriminate|].
  cbn in *. apply andb_prop in Hab as [H1 H2]. apply andb_prop in Hbc as [H3 H4].
  apply Ascii.eqb_eq in H1, H3. subst. rewrite Ascii.eqb_refl. cbn.
  now apply (IH a b).
Qed.

Lemma startswith_nil (s : string) : startswith s "" = true.
Proof. now destruct s. Qed.

Lemma startswith_upto (p : string) : startswith p (upto_last_slash p) = true.
Proof.
  induction p as [|c p IH]; [reflexivity|]. cbn [upto_last_slash].
  destruct (is_slash c); [|destruct (String.eqb (upto_last_slash p) "")];
    cbn; try reflexivity; now rewrite Ascii.eqb_refl.
Qed.

Lemma startswith_rstrip (s : string) : startswith s (rstrip_slash s) = true.
Proof.
  induction s as [|c s IH]; [reflexivity|]. cbn [rstrip_slash].
  destruct (is_slash c && String.eqb (rstrip_slash s) ""); cbn;
    [reflexivity | now rewrite Ascii.eqb_refl].
Qed.

Lemma startswith_head (p : string) : startswith p (fst (path_split p)) = true.
Proof.
  unfold path_split. cbn [fst].
  destruct (String.eqb (rstrip_slash (upto_last_slash p)) "").
  - apply startswith_upto.
  - eapply startswith_trans; [apply startswith_upto | apply startswith_rstrip].
Qed.

Lemma wrote_only_prefix (d d' : string) (w w' : World) :
  startswith d d' = true -> files w' = files w ->
  wrote_only d' w w' -> wrote_only d w w'.
Proof.
  unfold wrote_only. intros Hp Hf (F & S & D & N & K & E).
  repeat split; auto; try (intros; now rewrite Hf).
  intros q Hq. destruct (N q Hq) as [H|H]; [now left|right].
  now apply (startswith_trans d d' q).
Qed.

Lemma makes_under_mkdir (p : string) : makes_under p (mkdir p).
Proof.
  intros w. unfold mkdir.
  repeat match goal with |- context [if ?b then _ else _] => destruct b end;
    (split; [reflexivity|]); try apply wrote_only_refl.
  unfold wrote_only. cbn. repeat split; auto.
  - intros q Hq. set_solver.
  - intros q Hq. apply elem_of_union in Hq as [Hq|Hq]; [|now left].
    right. apply elem_of_singleton in Hq as ->. apply startswith_refl.
Qed.

Lemma makes_under_bind {A B} (d : string) (m : M A) (k : A -> M B) :
  makes_under d m -> (forall a, makes_under d (k a)) -> makes_under d (bind m k).
Proof.
  intros Hm Hk w. unfold bind. destruct (Hm w) as [F1 W1].
  destruct (m w) as [[a|e|c|] w']; cbn in *; try (split; assumption).
  destruct (Hk a w') as [F2 W2]. split; [congruence|].
  eapply wrote_only_trans; eassumption.
Qed.

Lemma makes_under_prefix {A} (d d' : string) (m : M A) :
  startswith d d' = true -> makes_under d' m -> makes_under d m.
Proof.
  intros Hp Hm w. destruct (Hm w) as [F W]. split; [assumption|].
  now apply (wrote_only_prefix d d').
Qed.

Lemma makes_under_makedirs_rec (fuel : nat) :
  forall p, makes_under p (makedirs_rec fuel p).
Proof.
  induction fuel as [|fuel IH]; intros p w;
    [split; [reflexivity | apply wrote_only_refl]|].
  cbn [makedirs_rec].
  pose proof (startswith_head p) as Hp.
  destruct (path_split p) as [head tail]. cbn [fst] in Hp.
  assert (Hh : forall head' tail',
             (if String.eqb tail "" then path_split head else (head, tail))
             = (head', tail') -> startswith p head' = true).
  { intros head' tail' E. destruct (String.eqb tail "").
    - pose proof (startswith_head head) as Hp'. rewrite E in Hp'. cbn [fst] in Hp'.
      now apply (startswith_trans p head head').
    - now injection E as <- <-. }
  destruct (if String.eqb tail "" then path_split head else (head, tail))
    as [head' tail'].
  specialize (Hh head' tail' eq_refl).
  destruct (negb (String.eqb head' "") && negb (String.eqb tail' "")
            && negb (path_exists w head')).
  - apply makes_under_bind.
    + intros w0. unfold try_except.
      destruct (makes_under_prefix p head' _ Hh (IH head') w0) as [F W].
      destruct (makedirs_rec fuel head' w0) as [[a|e|c|] w1]; cbn in *;
        try (split; assumption).
      destruct (exn_type e); split; assumption.
    + intros _. destruct (String.eqb tail' ".").
      * intros w0. split; [reflexivity | apply wrote_only_refl].
      * apply makes_under_mkdir.
  - apply makes_under_mkdir.
Qed.

Lemma wrote_only_print (dest s : string) : stays (wrote_only dest) (print s).
Proof. intros w. unfold wrote_only. cbn. repeat split; auto. Qed.

Lemma wrote_only_make_local_dir (dest : string) :
  stays (wrote_only dest) (make_local_dir (dirname dest)).
Proof.
  intros w. unfold make_local_dir. destruct (negb (path_exists w (dirname dest)));
    [|apply wrote_only_refl].
  assert (H : makes_under dest (print ("Creating directory " +:+ dirname dest) ;;
                                makedirs (dirname dest))).
  { apply makes_under_bind.
    - intros w0. split; [reflexivity | apply wrote_only_print].
    - intros _. apply (makes_under_prefix dest (dirname dest));
        [apply startswith_head | apply makes_under_makedirs_rec]. }
  apply H.
Qed.

Lemma wrote_only_download (dbx : Dropbox) (src dest : string) :
  stays (wrote_only dest) (files_download_to_file dbx src dest).
Proof.
  apply stays_bind;
    [apply wrote_only_trans | apply stays_lift, wrote_only_refl|].
  intros body w. unfold write_file.
  repeat match goal with |- context [if ?b then _ else _] => destruct b end;
    try apply wrote_only_refl.
  unfold wrote_only. cbn. repeat split; auto.
  - intros q Hq. now rewrite lookup_insert_ne by congruence.
  - intros _. now rewrite lookup_insert_eq.
Qed.

Lemma wrote_only_utime (dest : string) (t : Z * Z) :
  stays (wrote_only dest) (utime dest t).
Proof.
  intros w. unfold utime. destruct (files w !! dest) eqn:E.
  - unfold wrote_only. cbn. repeat split; auto.
    + intros q Hq. now rewrite lookup_insert_ne by congruence.
    + intros _. now rewrite lookup_insert_eq.
  - destruct (bool_decide (dest ∈ dirs w) || is_root dest); apply wrote_only_refl.
Qed.

(** One step of a proof that a computation writes at [dest] only. *)
Ltac wrote_step :=
  first
    [ apply stays_ret; apply wrote_only_refl
    | apply stays_raise; apply wrote_only_refl
    | apply stays_exit; apply wrote_only_refl
    | apply stays_lift; apply wrote_only_refl
    | apply wrote_only_print
    | apply wrote_only_make_local_dir
    | apply wrote_only_download
    | apply wrote_only_utime
    | apply stays_bind; [apply wrote_only_trans | | intros ?]
    | apply stays_try; [apply wrote_only_trans | | intros ?]
    | match goal with
      | |- stays _ (if ?b then _ else _) => destruct b
      | |- stays _ (match ?x with _ => _ end) => destruct x
      end ].

Lemma wrote_only_set_times (sys : Platform) (entry : pyobj) (dest : string) :
  stays (wrote_only dest) (set_times sys entry dest).
Proof.
  unfold set_times, getattr_strict, strptime_call, timestamp_call.
  repeat wrote_step.
Qed.

Lemma wrote_only_copy (sys : Platform) (args : Args) (entry : pyobj) (dbx : Dropbox) :
  stays (wrote_only (dest_path args +:+ entry_path entry))
        (copy_dropbox_file sys args entry dbx).
Proof.
  unfold entry_path.
  destruct (getattr entry "path_display") as [[| |p|]|] eqn:Hp;
    try (unfold copy_dropbox_file, getattr_strict, startswith_method; rewrite Hp;
         repeat wrote_step; fail).
  destruct (truthy (getattr_default entry "size" PNone)) eqn:Hs;
    [destruct (any_startswith p (excludePaths args)) eqn:Hex|]; intros w.
  - rewrite (copy_not_transferred sys args entry dbx w p Hp (or_intror Hex)).
    apply wrote_only_print.
  - rewrite (copy_dropbox_file_steps sys args entry dbx w p Hs Hp Hex).
    revert w.
    match goal with
    | |- forall w, wrote_only ?d w (snd (?m w)) => change (stays (wrote_only d) m)
    end.
    unfold print_and_exit. repeat first [apply wrote_only_set_times | wrote_step].
  - rewrite (copy_not_transferred sys args entry dbx w p Hp (or_introl Hs)).
    apply wrote_only_print.
Qed.

(** X12.  A transfer writes at its destination only: whatever the entry
    and however the transfer ends, [copy_dropbox_file] changes no local
    file but [dest_path + path_display], creates no directory that is not
    a prefix of that name, removes nothing, and leaves the queues alone. *)
Theorem transfer_writes_at_destination_only
    (sys : Platform) (args : Args) (entry : pyobj) (dbx : Dropbox) (w : World) :
  wrote_only (dest_path args +:+ entry_path entry) w
    (snd (copy_dropbox_file sys args entry dbx w)).
Proof. apply wrote_only_copy. Qed.

Lemma wrote_only_nothing_removed (dest : string) (w w' : World) :
  wrote_only dest w w' -> nothing_removed w w'.
Proof.
  intros (F & S & D & _). split; [assumption|].
  intros q Hq. destruct (decide (q = dest)) as [->|Hne]; [auto|].
  now rewrite F.
Qed.

Lemma only_printed_nothing_removed (w w' : World) :
  only_printed w w' -> nothing_removed w w'.
Proof. intros (_ & _ & D & F). split; intros q; now rewrite ?D, ?F. Qed.

Lemma copy_removes_nothing (sys : Platform) (args : Args) (entry : pyobj)
    (dbx : Dropbox) :
  stays nothing_removed (copy_dropbox_file sys args entry dbx).
Proof.
  apply (stays_weaken (wrote_only (dest_path args +:+ entry_path entry)));
    [apply wrote_only_nothing_removed | apply wrote_only_copy].
Qed.

Lemma get_direct_removes_nothing (sys : Platform) (dbx : Dropbox) (fuel : nat) :
  forall args, stays nothing_removed (get_direct sys fuel args dbx).
Proof.
  induction fuel as [|fuel IH]; intros args; cbn [get_direct].
  - apply stays_out_of_fuel, nothing_removed_refl.
  - apply stays_bind;
      [apply nothing_removed_trans | apply stays_lift, nothing_removed_refl|].
    intros page. apply stays_bind; [apply nothing_removed_trans | |].
    + apply stays_for_each;
        [apply nothing_removed_refl | apply nothing_removed_trans|].
      intros a e. apply copy_removes_nothing.
    + intros args'. destruct (has_more page);
        [|apply stays_ret, nothing_removed_refl].
      apply stays_bind;
        [apply nothing_removed_trans | apply stays_lift, nothing_removed_refl|].
      intros _. apply IH.
Qed.

(** X13.  [get] in direct mode removes nothing from the local machine:
    however the run ends, every directory and every file that was there
    before is there afterwards. *)
Theorem get_direct_mode_removes_nothing
    (sys : Platform) (fuel : nat) (args : Args) (w : World) :
  opt_truthy (pullFilesFromQueue args) = false ->
  nothing_removed w (snd (get sys fuel args w)).
Proof.
  intros Hq. revert w. change (stays nothing_removed (get sys fuel args)).
  assert (Hc : forall a, stays nothing_removed (connect_to_dropbox sys a)).
  { intros a. apply (stays_weaken only_printed);
      [apply only_printed_nothing_removed | apply connect_only_prints]. }
  unfold get. apply stays_bind; [apply nothing_removed_trans | apply Hc|].
  intros dbx. rewrite Hq.
  apply stays_bind; [apply nothing_removed_trans | apply Hc|].
  intros dbx'. apply get_direct_removes_nothing.
Qed.

Lemma get_direct_mode_removes_nothing_witness :
  nothing_removed queue_world
    (snd (get (example_sys two_pages) 5 direct_args queue_world)).
Proof.
  apply (get_direct_mode_removes_nothing (example_sys two_pages) 5 direct_args
           queue_world).
  reflexivity.
Defined.

(** ** Logging in *)

Lemma connect_accepted (sys : Platform) (args : Args) (dbx : Dropbox)
    (email : string) (w : World) :
  opt_truthy (effective_token sys args) = true ->
  dropbox_login sys (opt_str (effective_token sys args)) = inr (dbx, email) ->
  connect_to_dropbox sys args w = (Ok dbx, printed w (greeting email)).
Proof.
  intros Htok Hlogin. unfold connect_to_dropbox.
  fold (effective_token sys args). rewrite Htok. cbn [negb].
  unfold try_except, lift, bind at 1. rewrite Hlogin. reflexivity.
Qed.

(** X14.  [get] logs in once in queue mode and twice in direct mode: with
    a token the service accepts, the greeting is printed once before the
    first item is popped, and twice before the first listing is
    requested. *)
Theorem get_logs_in_twice_in_direct_mode
    (sys : Platform) (fuel : nat) (args : Args) (dbx : Dropbox) (email : string)
    (w : World) :
  opt_truthy (effective_token sys args) = true ->
  dropbox_login sys (opt_str (effective_token sys args)) = inr (dbx, email) ->
  get sys fuel args w
  = if opt_truthy (pullFilesFromQueue args)
    then get_from_queue sys fuel args dbx (printed w (greeting email))
    else get_direct sys fuel args dbx
           (printed (printed w (greeting email)) (greeting email)).
Proof.
  intros Htok Hlogin. unfold get.
  rewrite (bind_ok _ _ _ _ _ (connect_accepted sys args dbx email w Htok Hlogin)).
  destruct (opt_truthy (pullFilesFromQueue args)); [reflexivity|].
  now rewrite (bind_ok _ _ _ _ _ (connect_accepted sys args dbx email _ Htok Hlogin)).
Qed.

Lemma get_logs_in_twice_in_direct_mode_witness :
  get (example_sys two_pages) 2 direct_args out_world
  = if opt_truthy (pullFilesFromQueue direct_args)
    then get_from_queue (example_sys two_pages) 2 direct_args two_pages
           (printed out_world (greeting "user@example.com"))
    else get_direct (example_sys two_pages) 2 direct_args two_pages
           (printed (printed out_world (greeting "user@example.com"))
              (greeting "user@example.com")).
Proof.
  apply (get_logs_in_twice_in_direct_mode (example_sys two_pages) 2 direct_args
           two_pages "user@example.com" out_world); reflexivity.
Defined.

(** ** The text of a size *)

Example sizeof_fmt_ex1 : sizeof_fmt 1536 = "1.5KiB".
Proof. reflexivity. Qed.

Example sizeof_fmt_ex2 : sizeof_fmt 1048575 = "1024.0KiB".
Proof. reflexivity. Qed.

Example sizeof_fmt_ex3 : sizeof_fmt 1100 = "1.1KiB".
Proof. reflexivity. Qed.

Example sizeof_fmt_ex4 : sizeof_fmt 1126 = "1.1KiB".
Proof. reflexivity. Qed.

Example sizeof_fmt_ex5 : sizeof_fmt 0 = "0.0B".
Proof. reflexivity. Qed.

Lemma round_half_even_exact (a : Z) : round_half_even a 1 = a.
Proof.
  unfold round_half_even. rewrite Z.div_1_r, Z.mod_1_r. reflexivity.
Qed.

Lemma round_half_even_up (a b q : Z) :
  0 < b -> Z.odd q = true -> (2 * q + 1) * b <= 2 * a -> a < (q + 1) * b ->
  round_half_even a b = q + 1.
Proof.
  intros Hb Hq Hlo Hhi. unfold round_half_even.
  assert (Hd : a / b = q) by (symmetry; apply (Z.div_unique a b q (a - q * b)); nia).
  assert (Hm : a mod b = a - q * b) by (rewrite Z.mod_eq by lia; rewrite Hd; lia).
  rewrite Hd, Hm.
  destruct (Z.ltb_spec (2 * (a - q * b)) b); [nia|].
  destruct (Z.ltb_spec b (2 * (a - q * b))); [reflexivity|].
  rewrite <- Z.negb_odd, Hq. reflexivity.
Qed.

(** X15.  A size below 1024 is shown as the number of bytes with one
    decimal, which is zero, and the unit [B]. *)
Theorem sizeof_fmt_bytes_below_1024 (n : Z) :
  0 <= n < 1024 -> sizeof_fmt n = str_of_Z n +:+ ".0B".
Proof.
  intros Hn. unfold sizeof_fmt. cbn [sizeof_fmt_loop].
  change (1024 * 1024 ^ Z.of_nat 0) with 1024.
  destruct (Z.ltb_spec (Z.abs n) 1024); [|lia].
  unfold format_1f. change (1024 ^ Z.of_nat 0) with 1.
  rewrite round_half_even_exact.
  destruct (Z.ltb_spec n 0); [lia|].
  rewrite Z.abs_eq by lia.
  replace (10 * n / 10) with n by (rewrite Z.mul_comm, Z.div_mul; lia).
  replace ((10 * n) mod 10) with 0 by (rewrite Z.mul_comm, Z.mod_mul; lia).
  rewrite !append_assoc, !append_nil_l. reflexivity.
Qed.

Lemma sizeof_fmt_bytes_below_1024_witness :
  sizeof_fmt 3 = str_of_Z 3 +:+ ".0B".
Proof. apply (sizeof_fmt_bytes_below_1024 3). lia. Defined.

(** X16.  Rounding comes after the choice of the unit, so a size that is
    within a twentieth of a unit below the next one is shown as 1024.0 of
    the smaller unit, never as 1.0 of the next: 1048575 bytes are
    [1024.0KiB]. *)
Theorem sizeof_fmt_shows_1024 (k : nat) (n : Z) :
  (1 <= k <= 4)%nat ->
  n < 1024 ^ Z.of_nat (S k) ->
  20 * (1024 ^ Z.of_nat (S k) - n) <= 1024 ^ Z.of_nat k ->
  sizeof_fmt n = "1024.0" +:+ unit_name k +:+ "B".
Proof.
  intros Hk Hhi Hlo.
  assert (Ht : round_half_even (10 * Z.abs n) (1024 ^ Z.of_nat k) = 10239 + 1).
  { assert (0 < 1024 ^ Z.of_nat k) by (apply Z.pow_pos_nonneg; lia).
    rewrite Nat2Z.inj_succ, Z.pow_succ_r in Hhi, Hlo by lia.
    apply round_half_even_up; try reflexivity; try assumption; lia. }
  assert (Hsign : (n <? 0) = false).
  { assert (0 < 1024 ^ Z.of_nat k) by (apply Z.pow_pos_nonneg; lia).
    rewrite Nat2Z.inj_succ, Z.pow_succ_r in Hlo by lia.
    apply Z.ltb_ge. lia. }
  unfold sizeof_fmt.
  destruct k as [|[|[|[|[|k]]]]]; try lia; cbn [sizeof_fmt_loop];
    unfold format_1f; rewrite ?Ht, Hsign;
    repeat match goal with
      | H : context [1024 ^ Z.of_nat ?j] |- _ =>
          let v := eval vm_compute in (1024 ^ Z.of_nat j) in
          change (1024 ^ Z.of_nat j) with v in H
      | |- context [1024 ^ Z.of_nat ?j] =>
          let v := eval vm_compute in (1024 ^ Z.of_nat j) in
          change (1024 ^ Z.of_nat j) with v
      end;
    repeat match goal with
      | |- context [if Z.abs n <? ?b then _ else _] =>
          first [ replace (Z.abs n <? b) with false by (symmetry; apply Z.ltb_ge; lia)
                | replace (Z.abs n <? b) with true by (symmetry; apply Z.ltb_lt; lia) ];
          cbv iota
      end;
    reflexivity.
Qed.

Lemma sizeof_fmt_shows_1024_witness :
  sizeof_fmt 1048575 = "1024.0" +:+ unit_name 1 +:+ "B".
Proof.
  apply (sizeof_fmt_shows_1024 1 1048575).
  - lia.
  - reflexivity.
  - vm_compute. discriminate.
Defined.

(** ** Queue mode, item by item *)

Lemma ignores_disk_ret {A} (a : A) : ignores_disk (ret a).
Proof. intros w d. reflexivity. Qed.

Lemma ignores_disk_raise {A} (t : exn_kind) (s : string) : ignores_disk (@raise A t s).
Proof. intros w d. reflexivity. Qed.

Lemma ignores_disk_lift {A} (x : exn + A) : ignores_disk (lift x).
Proof. intros w d. now destruct x. Qed.

Lemma ignores_disk_print (s : string) : ignores_disk (print s).
Proof. intros w d. reflexivity. Qed.

Lemma ignores_disk_exit {A} (e : exn) : ignores_disk (@print_and_exit A e).
Proof. intros w d. reflexivity. Qed.

Lemma ignores_disk_bind {A B} (m : M A) (k : A -> M B) :
  ignores_disk m -> (forall a, ignores_disk (k a)) -> ignores_disk (bind m k).
Proof.
  intros Hm Hk w d. unfold bind. rewrite Hm.
  destruct (m w) as [[a|e|c|] w']; cbn [fst snd]; try reflexivity. apply Hk.
Qed.

Lemma ignores_disk_try {A} (m : M A) (h : exn -> M A) :
  ignores_disk m -> (forall e, ignores_disk (h e)) -> ignores_disk (try_except m h).
Proof.
  intros Hm Hh w d. unfold try_except. rewrite Hm.
  destruct (m w) as [[a|e|c|] w']; cbn [fst snd]; try reflexivity. apply Hh.
Qed.

Lemma ignores_disk_for_each {A S} (l : list A) (body : S -> A -> M S) :
  (forall s x, ignores_disk (body s x)) -> forall s, ignores_disk (for_each l s body).
Proof.
  intros Hb. induction l as [|x l IH]; intros s; cbn [for_each].
  - apply ignores_disk_ret.
  - apply ignores_disk_bind; [apply Hb | apply IH].
Qed.

Lemma ignores_disk_mkdir (p : string) : ignores_disk (mkdir p).
Proof.
  intros w d. unfold mkdir, path_exists, is_dir. cbn [dirs files set_disk].
  repeat match goal with |- context [if ?b then _ else _] => destruct b end;
    reflexivity.
Qed.

Lemma ignores_disk_makedirs_rec (fuel : nat) :
  forall p, ignores_disk (makedirs_rec fuel p).
Proof.
  induction fuel as [|fuel IH]; intros p w d; [reflexivity|].
  cbn [makedirs_rec].
  destruct (path_split p) as [head tail].
  destruct (if String.eqb tail "" then path_split head else (head, tail))
    as [head' tail'].
  change (path_exists (set_disk w d) head') with (path_exists w head').
  destruct (negb (String.eqb head' "") && negb (String.eqb tail' "")
            && negb (path_exists w head')).
  - apply ignores_disk_bind.
    + apply ignores_disk_try; [apply IH|].
      intros e. destruct (exn_type e); intros w0 d0; reflexivity.
    + intros _. destruct (String.eqb tail' ".");
        [apply ignores_disk_ret | apply ignores_disk_mkdir].
  - apply ignores_disk_mkdir.
Qed.

Lemma ignores_disk_make_local_dir (dir : string) : ignores_disk (make_local_dir dir).
Proof.
  intros w d. unfold make_local_dir.
  change (path_exists (set_disk w d) dir) with (path_exists w dir).
  destruct (negb (path_exists w dir)); [|reflexivity].
  apply ignores_disk_bind; [apply ignores_disk_print|].
  intros _. apply ignores_disk_makedirs_rec.
Qed.

Lemma ignores_disk_download (dbx : Dropbox) (src dest : string) :
  ignores_disk (files_download_to_file dbx src dest).
Proof.
  apply ignores_disk_bind; [apply ignores_disk_lift|].
  intros body w d. unfold write_file, is_dir. cbn [dirs files set_disk].
  repeat match goal with |- context [if ?b then _ else _] => destruct b end;
    reflexivity.
Qed.

Lemma ignores_disk_utime (p : string) (t : Z * Z) : ignores_disk (utime p t).
Proof.
  intros w d. unfold utime. cbn [dirs files set_disk].
  destruct (files w !! p); [reflexivity|].
  now destruct (bool_decide (p ∈ dirs w) || is_root p).
Qed.

Lemma ignores_disk_set_times (sys : Platform) (entry : pyobj) (dest : string) :
  ignores_disk (set_times sys entry dest).
Proof.
  unfold set_times, getattr_strict, strptime_call, timestamp_call.
  repeat (apply ignores_disk_bind; [|intros ?]);
    repeat match goal with
      | |- ignores_disk (match ?x with _ => _ end) => destruct x
      end;
    auto using ignores_disk_ret, ignores_disk_raise, ignores_disk_lift,
      ignores_disk_utime.
Qed.

Lemma ignores_disk_copy (sys : Platform) (args : Args) (entry : pyobj) (dbx : Dropbox) :
  ignores_disk (copy_dropbox_file sys args entry dbx).
Proof.
  unfold copy_dropbox_file, getattr_strict, startswith_method.
  destruct (negb (truthy (getattr_default entry "size" PNone)));
    destruct (getattr entry "path_display") as [[| |p|]|];
    repeat first
      [ apply ignores_disk_ret | apply ignores_disk_raise | apply ignores_disk_print
      | apply ignores_disk_exit | apply ignores_disk_make_local_dir
      | apply ignores_disk_download | apply ignores_disk_set_times
      | apply ignores_disk_try; [|intros ?]
      | apply ignores_disk_bind; [|intros ?]
      | match goal with
        | |- ignores_disk (if ?b then _ else _) => destruct b
        | |- ignores_disk (match ?x with _ => _ end) => destruct x
        end ].
Qed.

Lemma set_disk_twice (w : World) (d d' : gmap string (list string)) :
  set_disk (set_disk w d) d' = set_disk w d'.
Proof. reflexivity. Qed.

Lemma pull_for_each (sys : Platform) (dbx : Dropbox) (es : list pyobj) :
  forall args a w,
    fst (for_each es args (fun a e => copy_dropbox_file sys a e dbx) w) = Ok a ->
    pullFilesFromQueue a = pullFilesFromQueue args.
Proof.
  induction es as [|e es IH]; intros args a w; cbn [for_each].
  - now intros [= <-].
  - intros H. apply bind_returns in H as (a1 & w1 & H1 & H).
    rewrite (IH _ _ _ H).
    destruct (copy_returns_args sys args a1 e dbx w) as [->| ->];
      [now rewrite H1 | reflexivity | apply pull_normalized].
Qed.

(** One turn of the loop of queue mode on an empty queue, and on a queue
    whose head is a Work Item; [d] are the queues. *)
Lemma queue_loop_done (sys : Platform) (dbx : Dropbox) (fuel : nat) (args : Args)
    (w : World) (d : gmap string (list string)) :
  d !! opt_str (pullFilesFromQueue args) = Some [] ->
  get_from_queue sys (S fuel) args dbx (set_disk w d)
  = (Ok tt, set_disk w (<[opt_str (pullFilesFromQueue args) := []]> d)).
Proof.
  intros Hd. cbn [get_from_queue].
  unfold bind at 1. unfold get_queue, queue_open.
  unfold bind at 1, queue_pop at 1. cbn [q_name q_buffer].
  unfold stored. cbn [disk set_disk]. rewrite lookup_insert_eq, Hd.
  reflexivity.
Qed.

Lemma queue_loop_step (sys : Platform) (dbx : Dropbox) (fuel : nat) (args : Args)
    (w : World) (d : gmap string (list string)) (it : WorkItem) (rest : list string) :
  d !! opt_str (pullFilesFromQueue args) = Some (item_blob it :: rest) ->
  get_from_queue sys (S fuel) args dbx (set_disk w d)
  = match copy_dropbox_file sys args (item_dict it) dbx w with
    | (Ok args', w1) =>
        get_from_queue sys fuel args' dbx
          (set_disk w1 (<[opt_str (pullFilesFromQueue args) := rest]> d))
    | (o, w1) =>
        (without_value o,
         set_disk w1 (<[opt_str (pullFilesFromQueue args) := rest]> d))
    end.
Proof.
  intros Hd. cbn [get_from_queue]. set (name := opt_str (pullFilesFromQueue args)) in *.
  pose proof (open_then_pop name (item_blob it) rest (set_disk w d) Hd) as Hpop.
  unfold bind at 1 in Hpop. unfold bind at 1.
  destruct (get_queue name (set_disk w d)) as [[q| | |] w0]; try discriminate.
  rewrite (bind_ok _ _ _ _ _ Hpop). cbn [fst snd].
  unfold item_blob at 1. rewrite (str_encode_nonempty _ (item_text_nonempty it)).
  fold (item_blob it). rewrite (bind_ok _ _ _ _ _ (parse_item_blob it _)).
  unfold popped. cbn [disk set_disk]. rewrite set_disk_twice.
  unfold bind at 1. rewrite (ignores_disk_copy sys args (item_dict it) dbx w).
  destruct (copy_dropbox_file sys args (item_dict it) dbx w)
    as [[args'|e|c|] w1]; cbn [fst snd without_value]; try reflexivity.
  unfold bind at 1, queue_close at 1. cbn [q_name q_buffer disk set_disk].
  rewrite set_disk_twice. unfold stored at 1. cbn [disk set_disk].
  rewrite lookup_insert_eq. cbn [default from_option id].
  now rewrite app_nil_r, insert_insert_eq.
Qed.

(** The loop of queue mode against the transfers themselves, on a world
    whose queues are [d]. *)
Lemma queue_loop_sequential (sys : Platform) (dbx : Dropbox) (items : list WorkItem) :
  forall (fuel : nat) (args : Args) (w : World) (d : gmap string (list string)),
    d !! opt_str (pullFilesFromQueue args) = Some (map item_blob items) ->
    (length items < fuel)%nat ->
    exists rest,
      get_from_queue sys fuel args dbx (set_disk w d)
      = (without_value
           (fst (for_each (map item_dict items) args
                   (fun a e => copy_dropbox_file sys a e dbx) w)),
         set_disk
           (snd (for_each (map item_dict items) args
                   (fun a e => copy_dropbox_file sys a e dbx) w))
           (<[opt_str (pullFilesFromQueue args) := rest]> d))
      /\ (fst (for_each (map item_dict items) args
                 (fun a e => copy_dropbox_file sys a e dbx) w) <> OutOfFuel)
      /\ (forall a,
            fst (for_each (map item_dict items) args
                   (fun a e => copy_dropbox_file sys a e dbx) w) = Ok a ->
            rest = []).
Proof.
  induction items as [|it items IH]; intros fuel args w d Hd Hlt;
    (destruct fuel as [|fuel]; [cbn in Hlt; lia|]).
  - exists []. rewrite (queue_loop_done sys dbx fuel args w d Hd).
    cbn [map for_each]. repeat split. discriminate.
  - cbn [map] in Hd.
    pose proof (queue_loop_step sys dbx fuel args w d it _ Hd) as Hstep.
    pose proof (halts_copy sys args (item_dict it) dbx w) as Hh.
    pose proof (copy_returns_args sys args) as Ha.
    specialize (fun a => Ha a (item_dict it) dbx w).
    cbn [map for_each]. unfold bind.
    destruct (copy_dropbox_file sys args (item_dict it) dbx w)
      as [[args'|e|c|] w1]; cbn [fst snd without_value] in *; try discriminate.
    + assert (Hn : opt_str (pullFilesFromQueue args')
                   = opt_str (pullFilesFromQueue args)).
      { destruct (Ha args' eq_refl) as [->| ->];
          [reflexivity | now rewrite pull_normalized]. }
      destruct (IH fuel args' w1
                  (<[opt_str (pullFilesFromQueue args) := map item_blob items]> d))
        as (rest & Hg & Hne & Hok).
      * rewrite Hn. apply lookup_insert_eq.
      * cbn [length] in Hlt. lia.
      * exists rest. rewrite Hstep, Hg, Hn, insert_insert_eq. auto.
    + exists (map item_blob items). rewrite Hstep. repeat split; discriminate.
    + exists (map item_blob items). rewrite Hstep. repeat split; discriminate.
Qed.

(** X17.  [get] in queue mode is the transfers of the queued Work Items,
    one after the other in queue order: it ends as they end, stopping at
    the first that does not return, and leaves standard output and the
    local file system as they leave them; when it returns, the queue is
    empty. *)
Theorem queue_mode_transfers_in_order
    (sys : Platform) (dbx : Dropbox) (fuel : nat) (args : Args) (w : World)
    (items : list WorkItem) :
  disk w !! opt_str (pullFilesFromQueue args) = Some (map item_blob items) ->
  (length items < fuel)%nat ->
  let r := for_each (map item_dict items) args
             (fun a e => copy_dropbox_file sys a e dbx) w in
  let g := get_from_queue sys fuel args dbx w in
  fst g = without_value (fst r)
  /\ outside_queues (snd g) = outside_queues (snd r)
  /\ (fst g = Ok tt -> stored (snd g) (opt_str (pullFilesFromQueue args)) = []).
Proof.
  intros Hd Hlt r g.
  destruct (queue_loop_sequential sys dbx items fuel args w (disk w) Hd Hlt)
    as (rest & Hg & Hne & Hok).
  replace (set_disk w (disk w)) with w in Hg by (now destruct w).
  subst g. fold r in Hg, Hok. rewrite Hg. cbn [fst snd].
  split; [reflexivity|]. split; [reflexivity|].
  intros Hr. unfold stored. cbn [disk set_disk]. rewrite lookup_insert_eq. cbn.
  destruct (fst r) as [a| | |]; try discriminate. now apply (Hok a).
Qed.

Lemma queue_mode_transfers_in_order_witness :
  let r := for_each (map item_dict [item_a; item_b]) queue_args
             (fun a e => copy_dropbox_file (example_sys two_pages) a e two_pages)
             queue_world in
  let g := get_from_queue (example_sys two_pages) 3 queue_args two_pages queue_world in
  fst g = without_value (fst r)
  /\ outside_queues (snd g) = outside_queues (snd r)
  /\ (fst g = Ok tt -> stored (snd g) (opt_str (pullFilesFromQueue queue_args)) = []).
Proof.
  apply (queue_mode_transfers_in_order (example_sys two_pages) two_pages 3 queue_args
           queue_world [item_a; item_b]).
  - reflexivity.
  - simpl. lia.
Defined.

(** ** From [ls] to [get] through a queue *)

Lemma ls_blobs_items (excluded : list string) (entry : pyobj) :
  ls_blobs excluded entry = map item_blob (ls_items excluded entry).
Proof.
  unfold ls_blobs, ls_items.
  destruct (any_startswith (entry_path entry) excluded); [reflexivity|].
  destruct (getattr entry "size") as [[| n | |]|]; try reflexivity.
  destruct (getattr entry "server_modified") as [[| | | sm]|]; try reflexivity.
  destruct (getattr entry "client_modified") as [[| | | cm]|]; reflexivity.
Qed.

Lemma length_ls_items (excluded : list string) (es : list pyobj) :
  (length (flat_map (ls_items excluded) es) <= length es)%nat.
Proof.
  induction es as [|e es IH]; [reflexivity|]. cbn [flat_map].
  rewrite length_app. cbn [length].
  assert (length (ls_items excluded e) <= 1)%nat; [|lia].
  unfold ls_items. destruct (any_startswith (entry_path e) excluded); [cbn; lia|].
  destruct (getattr e "size") as [[| n | |]|]; try (cbn; lia).
  destruct (getattr e "server_modified") as [[| | | sm]|]; try (cbn; lia).
  destruct (getattr e "client_modified") as [[| | | cm]|]; cbn; lia.
Qed.

(** Transferring the queued items is transferring the queued files. *)
Lemma for_each_items_as_files (sys : Platform) (dbx : Dropbox)
    (excluded : list string) (es : list pyobj) :
  Forall listable es -> Forall valid_times es ->
  forall args w,
    for_each (map item_dict (flat_map (ls_items excluded) es)) args
      (fun a e => copy_dropbox_file sys a e dbx) w
    = for_each (flat_map (ls_files excluded) es) args
        (fun a e => copy_dropbox_file sys a e dbx) w.
Proof.
  induction 1 as [|e es He Hes IH]; intros Hv args w; [reflexivity|].
  apply Forall_cons_1 in Hv as [Hve Hv]. cbn [flat_map].
  unfold ls_items at 1, ls_files at 1.
  destruct (any_startswith (entry_path e) excluded); [now apply IH|].
  destruct He as [e p Hp Hs | e p n sm cm Hp Hs Hsm Hcm].
  - rewrite Hs. now apply IH.
  - rewrite Hs, Hsm, Hcm. cbn [app map for_each].
    unfold bind. unfold entry_path. rewrite Hp.
    rewrite (item_transfers_as_entry sys args e dbx w p n sm cm Hp Hs Hsm Hcm
               (Hve _ _ Hsm) (Hve _ _ Hcm)).
    destruct (copy_dropbox_file sys args e dbx w) as [[a| | |] w']; try reflexivity.
    now apply IH.
Qed.

Lemma valid_times_remote_file (p : string) (n : Z) : valid_times (remote_file p n).
Proof.
  intros name d. unfold remote_file. cbn [getattr].
  repeat match goal with
    | |- context [if ?b then _ else _] => destruct b
    end;
    intros [= <-] || discriminate; reflexivity.
Qed.

(** X18.  What [ls] queues, [get] transfers: after the loop of [ls] has
    listed the pages of a folder into an empty queue, the loop of [get]
    on that queue is the transfers, one after the other in listing order,
    of the listed files that were not excluded from the listing; it ends
    as they end, leaves standard output and the local file system as they
    leave them, and when it returns the queue is empty again. *)
Theorem listed_files_are_transferred
    (sizeof_fmt : Z -> string) (sys : Platform) (dbx : Dropbox)
    (ls_args get_args : Args) (name : string)
    (page : ListFolderResult) (pages : list ListFolderResult)
    (fuel fuel' : nat) (w : World) :
  pushFilesToQueue ls_args = Some name ->
  name <> "" ->
  pullFilesFromQueue get_args = Some name ->
  stored w name = [] ->
  listing dbx page pages ->
  Forall listable (concat (map entries pages)) ->
  Forall valid_times (concat (map entries pages)) ->
  (length pages <= fuel)%nat ->
  (length (concat (map entries pages)) < fuel')%nat ->
  exists w1,
    ls_loop sizeof_fmt fuel ls_args dbx page w = (Ok tt, w1)
    /\ let r := for_each
                  (flat_map (ls_files (excludePaths ls_args))
                     (concat (map entries pages)))
                  get_args (fun a e => copy_dropbox_file sys a e dbx) w1 in
       let g := get_from_queue sys fuel' get_args dbx w1 in
       fst g = without_value (fst r)
       /\ outside_queues (snd g) = outside_queues (snd r)
       /\ (fst g = Ok tt -> stored (snd g) name = []).
Proof.
  intros Hpush Hne Hpull Hempty Hlist Hall Hvalid Hfuel Hfuel'.
  set (es := concat (map entries pages)) in *.
  exists (listed sizeof_fmt ls_args w es). split.
  { now apply ls_loop_listing. }
  set (w1 := listed sizeof_fmt ls_args w es).
  set (items := flat_map (ls_items (excludePaths ls_args)) es).
  assert (Hd : disk w1 !! opt_str (pullFilesFromQueue get_args)
               = Some (map item_blob items)).
  { subst w1 items. unfold listed. rewrite Hpush, Hpull. cbn [opt_truthy opt_str disk].
    apply String.eqb_neq in Hne. rewrite Hne. cbn [negb].
    rewrite lookup_insert_eq, Hempty. cbn [app]. f_equal.
    clear. induction es as [|e es IH]; [reflexivity|].
    cbn [flat_map]. now rewrite map_app, IH, ls_blobs_items. }
  assert (Hlen : (length items < fuel')%nat).
  { subst items. pose proof (length_ls_items (excludePaths ls_args) es). lia. }
  destruct (queue_loop_sequential sys dbx items fuel' get_args w1 (disk w1) Hd Hlen)
    as (rest & Hg & _ & Hok).
  replace (set_disk w1 (disk w1)) with w1 in Hg by (now destruct w1).
  subst items. rewrite (for_each_items_as_files sys dbx _ es Hall Hvalid) in Hg, Hok.
  cbn zeta. rewrite Hg. cbn [fst snd].
  split; [reflexivity|]. split; [reflexivity|].
  intros Hr. unfold stored. cbn [disk set_disk]. rewrite Hpull. cbn [opt_str].
  rewrite lookup_insert_eq. cbn.
  destruct (fst (for_each (flat_map (ls_files (excludePaths ls_args)) es) get_args
                   (fun a e => copy_dropbox_file sys a e dbx) w1)) as [a| | |];
    try discriminate.
  now apply (Hok a).
Qed.

Lemma listed_files_are_transferred_witness :
  exists w1,
    ls_loop sizeof_fmt_bytes 2 ls_root_args two_pages
      (mk_page [remote_file "/a.txt" 3] true "c1") out_world = (Ok tt, w1)
    /\ let r := for_each
                  (flat_map (ls_files (excludePaths ls_root_args))
                     (concat (map entries
                                [mk_page [remote_file "/a.txt" 3] true "c1";
                                 mk_page [remote_file "/b.txt" 5] false ""])))
                  queue_args
                  (fun a e => copy_dropbox_file (example_sys two_pages) a e two_pages)
                  w1 in
       let g := get_from_queue (example_sys two_pages) 3 queue_args two_pages w1 in
       fst g = without_value (fst r)
       /\ outside_queues (snd g) = outside_queues (snd r)
       /\ (fst g = Ok tt -> stored (snd g) "q" = []).
Proof.
  apply (listed_files_are_transferred sizeof_fmt_bytes (example_sys two_pages) two_pages
           ls_root_args queue_args "q"
           (mk_page [remote_file "/a.txt" 3] true "c1")
           [mk_page [remote_file "/a.txt" 3] true "c1";
            mk_page [remote_file "/b.txt" 5] false ""]
           2 3 out_world).
  - reflexivity.
  - discriminate.
  - reflexivity.
  - reflexivity.
  - apply listing_more with (next := mk_page [remote_file "/b.txt" 5] false "").
    + reflexivity.
    + reflexivity.
    + apply listing_last. reflexivity.
  - repeat constructor; eapply listable_file; reflexivity.
  - repeat constructor; apply valid_times_remote_file.
  - simpl. lia.
  - simpl. lia.
Defined.

(** ** Queue mode on the library's handle *)

(** One turn of the loop of queue mode on a queue whose head is a Work
    Item: the pop is committed by the [close] that follows a transfer
    that returns, and by nothing else. *)
Lemma qlib_loop_step (sys : Platform) (dbx : Dropbox) (fuel : nat) (args : Args)
    (w : World) (d : gmap string (list string)) (it : WorkItem) (rest : list string) :
  d !! opt_str (pullFilesFromQueue args) = Some (item_blob it :: rest) ->
  Queuelib.get_from_queue sys (S fuel) args dbx (set_disk w d)
  = match copy_dropbox_file sys args (item_dict it) dbx w with
    | (Ok args', w1) =>
        Queuelib.get_from_queue sys fuel args' dbx
          (set_disk w1
             (if Nat.eqb (length rest) 0
              then delete (opt_str (pullFilesFromQueue args)) d
              else <[opt_str (pullFilesFromQueue args) := rest]> d))
    | (o, w1) => (without_value o, set_disk w1 d)
    end.
Proof.
  intros Hd. cbn [Queuelib.get_from_queue].
  set (name := opt_str (pullFilesFromQueue args)) in *.
  unfold bind at 1, Queuelib.get_queue, Queuelib.queue_open.
  unfold stored. cbn [disk set_disk]. rewrite Hd. cbn [default from_option id].
  rewrite (insert_id d name _ Hd), set_disk_twice.
  rewrite (bind_ok _ _ _ _ _ (qlib_pop_cons _ _ _ _)). cbn [fst snd].
  unfold item_blob at 1. rewrite (str_encode_nonempty _ (item_text_nonempty it)).
  fold (item_blob it). rewrite (bind_ok _ _ _ _ _ (parse_item_blob it _)).
  unfold bind at 1. rewrite (ignores_disk_copy sys args (item_dict it) dbx w).
  destruct (copy_dropbox_file sys args (item_dict it) dbx w)
    as [[args'|e|c|] w1]; reflexivity.
Qed.

Lemma qlib_loop_sequential (sys : Platform) (dbx : Dropbox) (items : list WorkItem) :
  forall (fuel : nat) (args : Args) (w : World) (d : gmap string (list string)),
    default [] (d !! opt_str (pullFilesFromQueue args)) = map item_blob items ->
    (length items < fuel)%nat ->
    exists d',
      Queuelib.get_from_queue sys fuel args dbx (set_disk w d)
      = (without_value
           (fst (for_each (map item_dict items) args
                   (fun a e => copy_dropbox_file sys a e dbx) w)),
         set_disk
           (snd (for_each (map item_dict items) args
                   (fun a e => copy_dropbox_file sys a e dbx) w)) d')
      /\ (forall a,
            fst (for_each (map item_dict items) args
                   (fun a e => copy_dropbox_file sys a e dbx) w) = Ok a ->
            default [] (d' !! opt_str (pullFilesFromQueue args)) = []).
Proof.
  induction items as [|it items IH]; intros fuel args w d Hd Hlt;
    (destruct fuel as [|fuel]; [cbn in Hlt; lia|]).
  - exists (<[opt_str (pullFilesFromQueue args) := []]> d). split.
    + cbn [Queuelib.get_from_queue map for_each].
      unfold bind at 1, Queuelib.get_queue, Queuelib.queue_open.
      unfold stored. cbn [disk set_disk]. rewrite Hd. cbn [map].
      now rewrite (bind_ok _ _ _ _ _ (qlib_pop_nil _ _)), set_disk_twice.
    + intros _ _. now rewrite lookup_insert_eq.
  - cbn [map] in Hd.
    assert (Hd' : d !! opt_str (pullFilesFromQueue args)
                  = Some (item_blob it :: map item_blob items)).
    { destruct (d !! opt_str (pullFilesFromQueue args)) as [l|];
        cbn in Hd; [now subst | discriminate]. }
    pose proof (qlib_loop_step sys dbx fuel args w d it _ Hd') as Hstep.
    pose proof (halts_copy sys args (item_dict it) dbx w) as Hh.
    pose proof (copy_returns_args sys args) as Ha.
    specialize (fun a => Ha a (item_dict it) dbx w).
    cbn [map for_each]. unfold bind.
    destruct (copy_dropbox_file sys args (item_dict it) dbx w)
      as [[args'|e|c|] w1]; cbn [fst snd without_value] in *; try discriminate.
    + assert (Hn : opt_str (pullFilesFromQueue args')
                   = opt_str (pullFilesFromQueue args)).
      { destruct (Ha args' eq_refl) as [->| ->];
          [reflexivity | now rewrite pull_normalized]. }
      rewrite length_map in Hstep.
      destruct (IH fuel args' w1
                  (if Nat.eqb (length items) 0
                   then delete (opt_str (pullFilesFromQueue args)) d
                   else <[opt_str (pullFilesFromQueue args) := map item_blob items]> d))
        as (d' & Hg & Hok).
      * rewrite Hn. destruct items as [|it' items]; cbn [length Nat.eqb].
        -- now rewrite lookup_delete_eq.
        -- now rewrite lookup_insert_eq.
      * cbn [length] in Hlt. lia.
      * exists d'. rewrite Hstep, Hg. rewrite Hn in Hok. auto.
    + exists d. rewrite Hstep. split; [reflexivity | discriminate].
    + exists d. rewrite Hstep. split; [reflexivity | discriminate].
Qed.

(** X19.  The order of the transfers and the empty queue at the end do
    not rest on when a pop is committed: on the library's handle too,
    [get] in queue mode is the transfers of the queued Work Items, one
    after the other in queue order; it ends as they end and leaves
    standard output and the local file system as they leave them, and when
    it returns the queue holds nothing. *)
Theorem library_queue_mode_transfers_in_order
    (sys : Platform) (dbx : Dropbox) (fuel : nat) (args : Args) (w : World)
    (items : list WorkItem) :
  stored w (opt_str (pullFilesFromQueue args)) = map item_blob items ->
  (length items < fuel)%nat ->
  let r := for_each (map item_dict items) args
             (fun a e => copy_dropbox_file sys a e dbx) w in
  let g := Queuelib.get_from_queue sys fuel args dbx w in
  fst g = without_value (fst r)
  /\ outside_queues (snd g) = outside_queues (snd r)
  /\ (fst g = Ok tt -> stored (snd g) (opt_str (pullFilesFromQueue args)) = []).
Proof.
  intros Hd Hlt r g.
  destruct (qlib_loop_sequential sys dbx items fuel args w (disk w) Hd Hlt)
    as (d' & Hg & Hok).
  replace (set_disk w (disk w)) with w in Hg by (now destruct w).
  subst g. fold r in Hg, Hok. rewrite Hg. cbn [fst snd].
  split; [reflexivity|]. split; [reflexivity|].
  intros Hr. unfold stored. cbn [disk set_disk].
  destruct (fst r) as [a| | |]; try discriminate. now apply (Hok a).
Qed.

Lemma library_queue_mode_transfers_in_order_witness :
  let r := for_each (map item_dict [item_a; item_b]) queue_args
             (fun a e => copy_dropbox_file (example_sys two_pages) a e two_pages)
             queue_world in
  let g := Queuelib.get_from_queue (example_sys two_pages) 3 queue_args two_pages
             queue_world in
  fst g = without_value (fst r)
  /\ outside_queues (snd g) = outside_queues (snd r)
  /\ (fst g = Ok tt -> stored (snd g) (opt_str (pullFilesFromQueue queue_args)) = []).
Proof.
  apply (library_queue_mode_transfers_in_order (example_sys two_pages) two_pages 3
           queue_args queue_world [item_a; item_b]).
  - reflexivity.
  - simpl. lia.
Defined.

(** X20.  A transfer that fails keeps its item queued: when the transfer
    of the item at the head of the queue leaves through [sys.exit(1)],
    [get] in queue mode ends there with it, before the handle is closed,
    and the queue holds what it held, the item of the failed transfer
    first: the next run starts with it again. *)
Theorem failed_transfer_stays_queued
    (sys : Platform) (dbx : Dropbox) (fuel : nat) (args : Args) (w : World)
    (it : WorkItem) (rest : list string) :
  stored w (opt_str (pullFilesFromQueue args)) = item_blob it :: rest ->
  fst (copy_dropbox_file sys args (item_dict it) dbx w) = Exited 1 ->
  fst (Queuelib.get_from_queue sys (S fuel) args dbx w) = Exited 1
  /\ outside_queues (snd (Queuelib.get_from_queue sys (S fuel) args dbx w))
     = outside_queues (snd (copy_dropbox_file sys args (item_dict it) dbx w))
  /\ stored (snd (Queuelib.get_from_queue sys (S fuel) args dbx w))
       (opt_str (pullFilesFromQueue args)) = item_blob it :: rest.
Proof.
  intros Hs Hfail.
  assert (Hd : disk w !! opt_str (pullFilesFromQueue args)
               = Some (item_blob it :: rest)).
  { unfold stored in Hs.
    destruct (disk w !! opt_str (pullFilesFromQueue args)) as [l|];
      cbn in Hs; [now subst | discriminate]. }
  pose proof (qlib_loop_step sys dbx fuel args w (disk w) it rest Hd) as Hstep.
  replace (set_disk w (disk w)) with w in Hstep by (now destruct w).
  rewrite Hstep.
  destruct (copy_dropbox_file sys args (item_dict it) dbx w) as [[a|e|c|] w1];
    cbn [fst snd] in *; try discriminate.
  injection Hfail as ->. repeat split.
  unfold stored. cbn [disk set_disk]. now rewrite Hd.
Qed.

Lemma failed_transfer_stays_queued_witness :
  fst (Queuelib.get_from_queue (example_sys refusing) 3 queue_args refusing queue_world)
  = Exited 1
  /\ outside_queues
       (snd (Queuelib.get_from_queue (example_sys refusing) 3 queue_args refusing
               queue_world))
     = outside_queues
         (snd (copy_dropbox_file (example_sys refusing) queue_args (item_dict item_a)
                 refusing queue_world))
  /\ stored (snd (Queuelib.get_from_queue (example_sys refusing) 3 queue_args refusing
                    queue_world))
       (opt_str (pullFilesFromQueue queue_args))
     = item_blob item_a :: [item_blob item_b].
Proof.
  apply (failed_transfer_stays_queued (example_sys refusing) refusing 2 queue_args
           queue_world item_a [item_blob item_b]).
  - reflexivity.
  - vm_compute. reflexivity.
Defined.
